(** * Assembler phase I of the Duck Machine (DM2019W): a shallow embedding

  The repository holds two variants of the same program,
  [assembler_phase1.py] and [fadfa.py].  Both classify every source line
  with an ordered list of regular expressions, build a table of labels in a
  first pass ([resolve]) and rewrite the lines that refer to labels in a
  second pass ([transform]).

  Python strings are modelled as [string]; a character is an 8-bit code
  point, so the development speaks about lines over the Latin-1 range of
  Unicode.  Python dictionaries are [gmap]s, Python integers are [Z]. *)

From Stdlib Require Import String Ascii ZArith NArith Bool Lia DecimalString.
From stdpp Require Import gmap strings list fin_maps.

Local Open Scope string_scope.

(** ** Strings *)

Module Str.

Definition ord (c : ascii) : N := N_of_ascii c.

Definition between (lo hi : N) (c : ascii) : bool :=
  ((lo <=? ord c) && (ord c <=? hi))%N.

Definition is_lower (c : ascii) : bool := between 97 122 c.   (* [a-z] *)
Definition is_upper (c : ascii) : bool := between 65 90 c.    (* [A-Z] *)
Definition is_alpha (c : ascii) : bool := is_lower c || is_upper c.
Definition is_digit (c : ascii) : bool := between 48 57 c.    (* [0-9] *)
Definition is_hex (c : ascii) : bool :=                      (* [a-fA-F0-9] *)
  between 97 102 c || between 65 70 c || is_digit c.

(** [str.isspace] on one character, which is also the class [\s] of a
    [str] pattern: the ASCII white space (tab, line feed, vertical tab,
    form feed, carriage return, the four separators 28..31, blank) and,
    in the Latin-1 range, NEL (133) and the no-break space (160). *)
Definition is_space (c : ascii) : bool :=
  between 9 13 c || between 28 32 c || (ord c =? 133)%N || (ord c =? 160)%N.

(** The class [\w] of a [str] pattern: the alphanumeric characters of
    Unicode and the underscore; written out for the Latin-1 range. *)
Definition is_word (c : ascii) : bool :=
  is_digit c || is_alpha c || (ord c =? 95)%N
  || (ord c =? 170)%N || (ord c =? 178)%N || (ord c =? 179)%N
  || (ord c =? 181)%N || (ord c =? 185)%N || (ord c =? 186)%N
  || between 188 190 c || between 192 214 c || between 216 246 c
  || between 248 255 c.

(** [.] without DOTALL: anything but a line feed. *)
Definition is_dot (c : ascii) : bool := negb (ord c =? 10)%N.

Definition is_char (a c : ascii) : bool := Ascii.eqb a c.

(** [str.rstrip()] *)
Fixpoint rstrip (s : string) : string :=
  match s with
  | "" => ""
  | String c s' =>
      match rstrip s' with
      | "" => if is_space c then "" else String c ""
      | r => String c r
      end
  end.

(** [str.upper()] on the ASCII letters; the other characters of the
    opcode field never occur, the grammars restrict it to [[a-zA-Z]+]. *)
Definition upper_char (c : ascii) : ascii :=
  if is_lower c then ascii_of_N (ord c - 32) else c.

Fixpoint upper (s : string) : string :=
  match s with
  | "" => ""
  | String c s' => String (upper_char c) (upper s')
  end.

Fixpoint forallb (p : ascii -> bool) (s : string) : bool :=
  match s with
  | "" => true
  | String c s' => p c && forallb p s'
  end.

Fixpoint filter (p : ascii -> bool) (s : string) : string :=
  match s with
  | "" => ""
  | String c s' => if p c then String c (filter p s') else filter p s'
  end.

(** [s.startswith(p)], returning what follows the prefix. *)
Fixpoint strip_prefix (p s : string) : option string :=
  match p, s with
  | "", _ => Some s
  | String a p', String b s' =>
      if Ascii.eqb a b then strip_prefix p' s' else None
  | String _ _, "" => None
  end.

Definition startswith (s p : string) : bool :=
  match strip_prefix p s with Some _ => true | None => false end.

(** [p in s] for strings *)
Fixpoint contains (s p : string) : bool :=
  startswith s p ||
  match s with
  | "" => false
  | String _ s' => contains s' p
  end.

Fixpoint last (s : string) (d : option ascii) : option ascii :=
  match s with
  | "" => d
  | String c s' => last s' (Some c)
  end.

Definition head (s : string) : option ascii :=
  match s with "" => None | String c _ => Some c end.

(** The first [n] characters of [s]. *)
Fixpoint take (n : nat) (s : string) : string :=
  match n, s with
  | S n', String c s' => String c (take n' s')
  | _, _ => ""
  end.

(** Texts of letters, and of capital letters. *)
Definition letters (w : string) : Prop :=
  w <> "" /\ forallb is_alpha w = true.

Definition capitals (w : string) : Prop :=
  w <> "" /\ forallb is_upper w = true.

(** The text without its white space. *)
Definition without_spaces (s : string) : string :=
  filter (fun c => negb (is_space c)) s.

(** Integer literals: a text of decimal digits, or [0x] and a text of
    hexadecimal digits; the value of a digit, and of a text of digits in
    positional notation. *)
Definition decimal (v : string) : Prop :=
  v <> "" /\ forallb is_digit v = true.

Definition hexadecimal (v : string) : Prop :=
  exists h, v = "0x" +:+ h /\ h <> "" /\ forallb is_hex h = true.

Definition digit_of (c : ascii) : Z :=
  if is_digit c then Z.of_N (ord c) - 48
  else if between 97 102 c then Z.of_N (ord c) - 87
  else Z.of_N (ord c) - 55.

Fixpoint number (base : Z) (s : string) : Z :=
  match s with
  | "" => 0
  | String c s' =>
      digit_of c * base ^ Z.of_nat (String.length s') + number base s'
  end.

(** [str(n)] and ["{}".format(n)] for an integer. *)
Definition of_Z (z : Z) : string := NilZero.string_of_int (Z.to_int z).
Definition of_nat (n : nat) : string := of_Z (Z.of_nat n).

End Str.

(** ** The regular expressions of Python's [re], as far as the program uses
     them *)

Module Re.

(** Where the matcher stands: the character before the position (for
    [\b]) and the text that is left. *)
Record cursor := Cursor { prev : option ascii; rest : string }.

Inductive regex : Type :=
| Empty                                   (* the empty pattern *)
| Class (p : ascii -> bool)               (* one character of a class *)
| Lit (s : string)                        (* literal text *)
| Seq (r1 r2 : regex)                     (* r1 r2 *)
| Alt (r1 r2 : regex)                     (* r1|r2, left first *)
| Opt (r : regex)                         (* r?, greedy *)
| Star (r : regex)                        (* r*, greedy *)
| Plus (r : regex)                        (* r+, greedy *)
| Named (name : string) (r : regex)       (* (?P<name>r) *)
| NotAhead (r : regex)                    (* (?!r) *)
| WordBoundary                            (* \b *)
| EndAnchor.                              (* $ *)

(** The groups that matched so far and their text. *)
Abbreviation captures := (gmap string string).

Definition consumed (cur cur' : cursor) : string :=
  Str.take (String.length (rest cur) - String.length (rest cur')) (rest cur).

Definition word_at (c : option ascii) : bool :=
  match c with Some a => Str.is_word a | None => false end.

(** Greedy repetition of [step]: one more round first, stopping second.
    A round that consumes nothing is not repeated, so [fuel], the number
    of characters left, is never exhausted. *)
Fixpoint iterate (step : cursor -> captures -> list (cursor * captures))
    (fuel : nat) (cur : cursor) (caps : captures)
    : list (cursor * captures) :=
  match fuel with
  | O => [(cur, caps)]
  | S n =>
      (step cur caps ≫= fun '(cur', caps') =>
         if (String.length (rest cur') <? String.length (rest cur))%nat
         then iterate step n cur' caps' else [])
      ++ [(cur, caps)]
  end.

(** A backtracking matcher as a list of successes: every way in which [r]
    matches at [cur], in the order in which Python's engine tries them. *)
Fixpoint rmatch (r : regex) (cur : cursor) (caps : captures)
    : list (cursor * captures) :=
  match r with
  | Empty => [(cur, caps)]
  | Class p =>
      match rest cur with
      | String c s => if p c then [(Cursor (Some c) s, caps)] else []
      | "" => []
      end
  | Lit l =>
      match Str.strip_prefix l (rest cur) with
      | Some s => [(Cursor (Str.last l (prev cur)) s, caps)]
      | None => []
      end
  | Seq r1 r2 =>
      rmatch r1 cur caps ≫= fun '(cur', caps') => rmatch r2 cur' caps'
  | Alt r1 r2 => rmatch r1 cur caps ++ rmatch r2 cur caps
  | Opt r1 => rmatch r1 cur caps ++ [(cur, caps)]
  | Star r1 => iterate (rmatch r1) (String.length (rest cur)) cur caps
  | Plus r1 =>
      rmatch r1 cur caps ≫= fun '(cur', caps') =>
        iterate (rmatch r1) (String.length (rest cur')) cur' caps'
  | Named name r1 =>
      rmatch r1 cur caps ≫= fun '(cur', caps') =>
        [(cur', <[name := consumed cur cur']> caps')]
  | NotAhead r1 =>
      match rmatch r1 cur caps with
      | [] => [(cur, caps)]
      | _ :: _ => []
      end
  | WordBoundary =>
      if xorb (word_at (prev cur)) (word_at (Str.head (rest cur)))
      then [(cur, caps)] else []
  | EndAnchor =>
      match rest cur with
      | "" => [(cur, caps)]
      | String c "" => if Str.is_char "010" c then [(cur, caps)] else []
      | _ => []
      end
  end.

(** [pattern.fullmatch(s)]: the first success that ends at the end of the
    text. *)
Fixpoint first_full (l : list (cursor * captures)) : option captures :=
  match l with
  | [] => None
  | (cur, caps) :: l' =>
      match rest cur with
      | "" => Some caps
      | _ => first_full l'
      end
  end.

Definition fullmatch (r : regex) (s : string) : option captures :=
  first_full (rmatch r (Cursor None s) ∅).

(** The names of the groups of a pattern. *)
Fixpoint group_names (r : regex) : list string :=
  match r with
  | Empty | Class _ | Lit _ | WordBoundary | EndAnchor => []
  | Seq r1 r2 | Alt r1 r2 => group_names r1 ++ group_names r2
  | Opt r1 | Star r1 | Plus r1 | NotAhead r1 => group_names r1
  | Named name r1 => name :: group_names r1
  end.

(** [match.groupdict()]: every named group of the pattern, [None] for
    the groups that took no part in the match. *)
Definition groupdict (r : regex) (caps : captures)
    : gmap string (option string) :=
  foldr (fun name d => <[name := caps !! name]> d) ∅ (group_names r).

(** *** What a match says about the text

    [den r p w t c c']: the pattern [r] can match the text [w], which comes
    after the character [p] and before the text [t], and turns the groups
    [c] into [c']. *)

Inductive rep
    (R : option ascii -> string -> string -> captures -> captures -> Prop)
    : option ascii -> string -> string -> captures -> captures -> Prop :=
| rep_stop p t c : rep R p "" t c c
| rep_more p w1 w2 t c c1 c2 :
    R p w1 (w2 +:+ t) c c1 ->
    rep R (Str.last w1 p) w2 t c1 c2 ->
    rep R p (w1 +:+ w2) t c c2.

Fixpoint den (r : regex) (p : option ascii) (w t : string)
    (c c' : captures) : Prop :=
  match r with
  | Empty => w = "" ∧ c' = c
  | Class f => ∃ a, w = String a "" ∧ f a = true ∧ c' = c
  | Lit l => w = l ∧ c' = c
  | Seq r1 r2 =>
      ∃ w1 w2 c1, w = w1 +:+ w2 ∧ den r1 p w1 (w2 +:+ t) c c1
                  ∧ den r2 (Str.last w1 p) w2 t c1 c'
  | Alt r1 r2 => den r1 p w t c c' ∨ den r2 p w t c c'
  | Opt r1 => den r1 p w t c c' ∨ (w = "" ∧ c' = c)
  | Star r1 => rep (den r1) p w t c c'
  | Plus r1 =>
      ∃ w1 w2 c1, w = w1 +:+ w2 ∧ den r1 p w1 (w2 +:+ t) c c1
                  ∧ rep (den r1) (Str.last w1 p) w2 t c1 c'
  | Named name r1 => ∃ c1, den r1 p w t c c1 ∧ c' = <[name := w]> c1
  | NotAhead r1 => w = "" ∧ c' = c ∧ rmatch r1 (Cursor p t) c = []
  | WordBoundary =>
      w = "" ∧ c' = c ∧ xorb (word_at p) (word_at (Str.head t)) = true
  | EndAnchor => w = "" ∧ c' = c ∧ (t = "" ∨ t = String "010" "")
  end.

(** The groups after an optional group [k] took part, or not. *)
Definition set_group (k : string) (text : option string) (c : captures)
    : captures :=
  match text with
  | Some w => <[k := w]> c
  | None => c
  end.

(** The matcher went from [cur], [caps] to [cur'], [caps'] over a text of
    which [R] holds. *)
Definition reaches
    (R : option ascii -> string -> string -> captures -> captures -> Prop)
    (cur : cursor) (caps : captures) (cur' : cursor) (caps' : captures)
    : Prop :=
  ∃ w, rest cur = w +:+ rest cur' ∧ prev cur' = Str.last w (prev cur)
       ∧ R (prev cur) w (rest cur') caps caps'.

(** Groups that every match of the pattern sets. *)
Fixpoint always_set (r : regex) : list string :=
  match r with
  | Seq r1 r2 => always_set r1 ++ always_set r2
  | Plus r1 => always_set r1
  | Named name r1 => name :: always_set r1
  | _ => []
  end.

(** The patterns of the groups called [k]. *)
Fixpoint group_patterns (k : string) (r : regex) : list regex :=
  match r with
  | Empty | Class _ | Lit _ | WordBoundary | EndAnchor | NotAhead _ => []
  | Seq r1 r2 | Alt r1 r2 => group_patterns k r1 ++ group_patterns k r2
  | Opt r1 | Star r1 | Plus r1 => group_patterns k r1
  | Named name r1 =>
      (if decide (name = k) then [r1] else []) ++ group_patterns k r1
  end.

(** The text of group [k] in [c'] is the one in [c], or one of the patterns
    [rs] matched it. *)
Definition set_by (k : string) (rs : list regex) (c c' : captures) : Prop :=
  c' !! k = c !! k
  ∨ ∃ r1 p1 w1 t1 c1 c2,
      r1 ∈ rs ∧ den r1 p1 w1 t1 c1 c2 ∧ c' !! k = Some w1.

(** The matcher can stop wherever a match ends. *)
Definition finds (step : cursor → captures → list (cursor * captures))
    (p : option ascii) (w t : string) : Prop :=
  ∀ c0, ∃ c1, (Cursor (Str.last w p) t, c1) ∈ step (Cursor p (w +:+ t)) c0.

(** [lang r w]: the text [w] is in the language of [r], whatever comes
    before and after it. *)
Definition lang (r : regex) (w : string) : Prop :=
  ∀ p t (c : captures), ∃ c', den r p w t c c'.

(** [closes r w]: the text [w] is in the language of [r] at the end of a
    line. *)
Definition closes (r : regex) (w : string) : Prop :=
  ∀ p (c : captures), ∃ c', den r p w "" c c'.

(** [fits r p w t]: the text [w] is in the language of [r] after the
    character [p] and before the text [t]. *)
Definition fits (r : regex) (p : option ascii) (w t : string) : Prop :=
  ∀ c : captures, ∃ c', den r p w t c c'.

End Re.

(** ** What the two variants share *)

Module Asm.

Import Re.

(** [class AsmSrcKind(Enum)] *)
Inductive AsmSrcKind := COMMENT | FULL | DATA | MEMOP | JUMP.

#[global] Instance AsmSrcKind_eq_dec : EqDecision AsmSrcKind.
Proof. solve_decision. Defined.

(** A Python value that is a string or [None]: [Some s] or [None]. *)
Abbreviation value := (option string).

(** The exceptions that the program raises or catches. [SystemExit] is what
    [sys.exit] raises; [except Exception] does not catch it. *)
Inductive exn :=
| SyntaxError (msg : string)
| KeyError (key : value)
| AttributeError (msg : string)
| ValueError (msg : string)
| SystemExit (status : Z).

Inductive result (A : Type) :=
| Ok (a : A)
| Raise (e : exn).
Arguments Ok {A} a.
Arguments Raise {A} e.

(** How a format string shows a field: the text, or [None]. *)
Definition show (v : value) : string :=
  match v with
  | Some s => s
  | None => "None"
  end.

(** [repr(v)], for [None] and for a string without quotes, backslashes or
    control characters (a missing label is made of word characters). *)
Definition repr (v : value) : string :=
  match v with
  | Some s => "'" +:+ s +:+ "'"
  | None => "None"
  end.

(** [str(e)]: the message, and for a [KeyError] the [repr] of the key. *)
Definition str_exn (e : exn) : string :=
  match e with
  | SyntaxError msg | AttributeError msg | ValueError msg => msg
  | KeyError key => repr key
  | SystemExit status => Str.of_Z status
  end.

(** Code that runs in a state [St] and returns or raises. What it did to
    the state before it raised stays done. *)
Definition M (St A : Type) : Type := St -> result A * St.

Definition ret {St A} (a : A) : M St A := fun s => (Ok a, s).

Definition raise {St A} (e : exn) : M St A := fun s => (Raise e, s).

Definition bind {St A B} (m : M St A) (k : A -> M St B) : M St B :=
  fun s =>
    match m s with
    | (Ok a, s') => k a s'
    | (Raise e, s') => (Raise e, s')
    end.

Definition lift {St A} (r : result A) : M St A := fun s => (r, s).

Definition get {St} : M St St := fun s => (Ok s, s).

Definition modify {St} (f : St -> St) : M St unit := fun s => (Ok tt, f s).

(** [try: body except ...: handler]; a handler that returns [None] does
    not catch the exception. *)
Definition try_except {St A} (body : M St A) (handler : exn -> option (M St A))
    : M St A :=
  fun s =>
    match body s with
    | (Ok a, s') => (Ok a, s')
    | (Raise e, s') =>
        match handler e with
        | Some h => h s'
        | None => (Raise e, s')
        end
    end.

Notation "x <- m ;; k" := (bind m (fun x => k))
  (at level 100, m at next level, right associativity).
Notation "m ;; k" := (bind m (fun _ => k))
  (at level 100, right associativity).

(** [for lnum in range(len(lines)): line = lines[lnum] ...] *)
Fixpoint for_lines {St} (body : nat -> string -> M St unit) (lnum : nat)
    (lines : list string) : M St unit :=
  match lines with
  | [] => ret tt
  | line :: lines' => body lnum line ;; for_lines body (S lnum) lines'
  end.

(** [isinstance(e, Exception)] *)
Definition is_Exception (e : exn) : bool :=
  match e with
  | SystemExit _ => false
  | _ => true
  end.

(** The dictionary that [parse_line] returns: the groups of the pattern
    that matched, and under the key "kind" the kind of the line. No group
    is called "kind", so the entry is kept apart. *)
Record dict := Dict {
  kind : AsmSrcKind;
  items : gmap string value
}.

(** [fields[key]] *)
Definition getitem (f : dict) (key : string) : result value :=
  match items f !! key with
  | Some v => Ok v
  | None => Raise (KeyError (Some key))
  end.

(** [fields[key] = v] *)
Definition setitem (f : dict) (key : string) (v : value) : dict :=
  Dict (kind f) (<[key := v]> (items f)).

(** The loop of [parse_line] over [PATTERNS]. *)
Fixpoint parse_line_in (patterns : list (regex * AsmSrcKind)) (line : string)
    : result dict :=
  match patterns with
  | [] => Raise (SyntaxError ("Assembler syntax error in " +:+ line))
  | (pattern, kind) :: patterns' =>
      match fullmatch pattern line with
      | Some m => Ok (Dict kind (groupdict pattern m))
      | None => parse_line_in patterns' line
      end
  end.

(** The pieces that all the patterns are made of. *)
Definition spaces := Star (Class Str.is_space).                 (* \s*  *)
Definition spaces1 := Plus (Class Str.is_space).                (* \s+  *)
Definition ident :=                                             (* [a-zA-Z]\w* *)
  Seq (Class Str.is_alpha) (Star (Class Str.is_word)).
Definition register :=                                          (* r[0-9]+ *)
  Seq (Lit "r") (Plus (Class Str.is_digit)).
Definition opt_label :=                           (* ( (?P<label> [a-zA-Z]\w* ): )? *)
  Opt (Seq (Named "label" ident) (Lit ":")).
Definition opt_predicate :=                       (* (/ (?P<predicate> [A-Z]+) )? *)
  Opt (Seq (Lit "/") (Named "predicate" (Plus (Class Str.is_upper)))).
Definition comment_group :=                        (* (?P<comment> [\#;].* ) *)
  Named "comment"
    (Seq (Class (fun c => Str.is_char "#" c || Str.is_char ";" c))
         (Star (Class Str.is_dot))).

Fixpoint seq (rs : list regex) : regex :=
  match rs with
  | [] => Empty
  | [r] => r
  | r :: rs' => Seq r (seq rs')
  end.

(** [fix_optional_fields(fields)]: the same function in both variants.
    It changes the dictionary in place; when it raises, the caller drops
    the dictionary, so the changed dictionary is returned. *)
Definition fix_optional_fields {St} (fields : dict) : M St dict :=
  label <- lift (getitem fields "label") ;;
  let fields :=
    match label with
    | None => setitem fields "label" (Some "    ")
    | Some l => setitem fields "label" (Some (l +:+ ":"))
    end in
  predicate <- lift (getitem fields "predicate") ;;
  let fields :=
    match predicate with
    | None => setitem fields "predicate" (Some "")
    | Some p => setitem fields "predicate" (Some ("/" +:+ p))
    end in
  comment <- lift (getitem fields "comment") ;;
  let fields :=
    match comment with
    | None => setitem fields "comment" (Some "")
    | Some c => fields
    end in
  ret fields.

(** [labels[ref]] *)
Definition lookup_label (labels : gmap string Z) (ref : value) : result Z :=
  match ref with
  | Some name =>
      match labels !! name with
      | Some a => Ok a
      | None => Raise (KeyError ref)
      end
  | None => Raise (KeyError ref)
  end.

(** *** The first pass, [resolve], the same in both variants but for the
        patterns of its [parse_line] *)

Record rstate := RState {
  r_labels : gmap string Z;
  r_address : Z
}.

Section Resolve.

Variable parse_line : string -> result dict.

Definition resolve_line (lnum : nat) (raw : string) : M rstate unit :=
  let line := Str.rstrip raw in
  try_except
    (fields <- lift (parse_line line) ;;
     label <- lift (getitem fields "label") ;;
     match label with
     | Some group =>
         modify (fun s => RState (<[group := r_address s]> (r_labels s))
                                 (r_address s))
     | None => ret tt
     end ;;
     if decide (kind fields = COMMENT) then ret tt
     else modify (fun s => RState (r_labels s) (r_address s + 1)))
    (fun e =>
       (* Just ignore errors here *)
       if is_Exception e then Some (ret tt) else None).

Definition resolve (lines : list string) : result (gmap string Z) :=
  match for_lines resolve_line 0 lines (RState ∅ 0) with
  | (Ok _, s) => Ok (r_labels s)
  | (Raise e, _) => Raise e
  end.

End Resolve.

(** *** The state of the second pass, [transform]: its local variables and
        the two streams it prints to *)

Record tstate := TState {
  error_count : nat;
  address : Z;
  transformed : list string;
  stdout : list string;
  stderr : list string
}.

Definition initial : tstate := TState 0 0 [] [] [].

(** [ERROR_LIMIT = 5] *)
Definition ERROR_LIMIT : nat := 5.

(** [transformed.append(line)] *)
Definition append (line : string) : M tstate unit :=
  modify (fun s => TState (error_count s) (address s)
                          (transformed s ++ [line]) (stdout s) (stderr s)).

(** [address += 1] *)
Definition next_address : M tstate unit :=
  modify (fun s => TState (error_count s) (address s + 1)
                          (transformed s) (stdout s) (stderr s)).

(** [error_count += 1] *)
Definition count_error : M tstate unit :=
  modify (fun s => TState (S (error_count s)) (address s)
                          (transformed s) (stdout s) (stderr s)).

(** [print(msg, file=sys.stderr)] and [print(msg)] *)
Definition print_stderr (msg : string) : M tstate unit :=
  modify (fun s => TState (error_count s) (address s)
                          (transformed s) (stdout s) (stderr s ++ [msg])).

Definition print_stdout (msg : string) : M tstate unit :=
  modify (fun s => TState (error_count s) (address s)
                          (transformed s) (stdout s ++ [msg]) (stderr s)).

(** What a run of the program leaves behind: [main] reads the lines,
    calls [transform] and prints the result to the object file. An
    exception that nobody catches ends the process with status 1. *)
Record run := Run {
  exit_status : Z;
  objfile : list string;
  out : list string;
  err : list string
}.

Definition main_of (transform : list string -> M tstate (list string))
    (lines : list string) : run :=
  match transform lines initial with
  | (Ok transformed, s) => Run 0 transformed (stdout s) (stderr s)
  | (Raise (SystemExit status), s) => Run status [] (stdout s) (stderr s)
  | (Raise _, s) => Run 1 [] (stdout s) (stderr s)
  end.

(** *** Words for the statements about the second pass *)

(** The value of a field, [None] also when the key is missing. *)
Definition field (f : dict) (key : string) : value :=
  match items f !! key with
  | Some v => v
  | None => None
  end.

(** What [fix_optional_fields] makes of the label, the predicate and the
    comment. *)
Definition label_text (label : value) : string :=
  match label with
  | None => "    "
  | Some l => l +:+ ":"
  end.

Definition predicate_text (predicate : value) : string :=
  match predicate with
  | None => ""
  | Some p => "/" +:+ p
  end.

Definition comment_text (comment : value) : string :=
  match comment with
  | None => ""
  | Some c => c
  end.

(** The state after a line went to the output; [occupies] tells whether
    the line takes an address. *)
Definition emitted (s : tstate) (text : string) (occupies : bool) : tstate :=
  TState (error_count s) (if occupies then address s + 1 else address s)
         (transformed s ++ [text]) (stdout s) (stderr s).

(** The state after a failure was counted and reported, on the error
    stream or on the standard output. *)
Definition failed_err (s : tstate) (diag : string) : tstate :=
  TState (S (error_count s)) (address s) (transformed s)
         (stdout s) (stderr s ++ [diag]).

Definition failed_out (s : tstate) (diag : string) : tstate :=
  TState (S (error_count s)) (address s) (transformed s)
         (stdout s ++ [diag]) (stderr s).

(** The label as the source line has it: with its colon, or nothing. *)
Definition label_piece (label : value) : string :=
  match label with
  | None => ""
  | Some l => l +:+ ":"
  end.

(** The line that replaces a MEMOP line, and the one that replaces a JUMP
    line, with [opcode] in the opcode column. *)
Definition memop_text (f : dict) (opcode : string) (pc_relative : Z)
    : string :=
  label_text (field f "label") +:+ "   " +:+ opcode
  +:+ predicate_text (field f "predicate") +:+ "  "
  +:+ show (field f "target") +:+ ",r0,r15[" +:+ Str.of_Z pc_relative
  +:+ "] #" +:+ show (field f "labelref") +:+ "  "
  +:+ comment_text (field f "comment").

Definition jump_text (f : dict) (pc_relative : Z) : string :=
  label_text (field f "label") +:+ "   ADD"
  +:+ predicate_text (field f "predicate") +:+ "  r15,r0,r15["
  +:+ Str.of_Z pc_relative
  +:+ "] #" +:+ show (field f "labelref") +:+ "  "
  +:+ comment_text (field f "comment").

(** What [fadfa.py] prints for a FULL line and for a DATA line, with
    [opcode] in the opcode column. *)
Definition offset_text (offset : value) : string :=
  match offset with
  | None => ""
  | Some o => "[" +:+ o +:+ "]"
  end.

Definition full_text (f : dict) (opcode : string) : string :=
  label_text (field f "label") +:+ "   " +:+ opcode
  +:+ predicate_text (field f "predicate") +:+ "  "
  +:+ show (field f "target") +:+ "," +:+ show (field f "src1") +:+ ","
  +:+ show (field f "src2") +:+ offset_text (field f "offset") +:+ "  "
  +:+ comment_text (field f "comment").

Definition data_text (f : dict) (opcode : string) : string :=
  label_text (field f "label") +:+ "   " +:+ opcode +:+ "  "
  +:+ show (field f "value") +:+ "  "
  +:+ comment_text (field f "comment").

(** *** Words for the statements about the first pass *)

(** The line takes an address: it matches a pattern and its kind is not
    COMMENT. *)
Definition takes_address (parse_line : string -> result dict)
    (raw : string) : bool :=
  match parse_line (Str.rstrip raw) with
  | Ok f => bool_decide (kind f ≠ COMMENT)
  | Raise _ => false
  end.

(** The label that the line defines. *)
Definition defines (parse_line : string -> result dict)
    (raw : string) : value :=
  match parse_line (Str.rstrip raw) with
  | Ok f => field f "label"
  | Raise _ => None
  end.

(** What one line does to the state of the first pass: its label, if it
    has one, is bound to the current address, and the address moves on if
    the line takes one. *)
Definition bound (parse_line : string -> result dict)
    (r : rstate) (raw : string) : rstate :=
  RState
    (match defines parse_line raw with
     | Some name => <[name := r_address r]> (r_labels r)
     | None => r_labels r
     end)
    (if takes_address parse_line raw then r_address r + 1 else r_address r).

(** How many of the lines take an address, and the address of line [i]:
    the number of lines before it that take one. *)
Fixpoint addresses (parse_line : string -> result dict)
    (lines : list string) : Z :=
  match lines with
  | [] => 0
  | raw :: lines' =>
      (if takes_address parse_line raw then 1 else 0)
      + addresses parse_line lines'
  end.

Definition address_of (parse_line : string -> result dict)
    (lines : list string) (i : nat) : Z :=
  addresses parse_line (take i lines).

(** [labels] binds every label to the address of the last line that
    defines it, and nothing else. *)
Definition binds (parse_line : string -> result dict)
    (lines : list string) (labels : gmap string Z) : Prop :=
  ∀ name a,
    labels !! name = Some a ↔
    ∃ i raw,
      lines !! i = Some raw ∧ defines parse_line raw = Some name
      ∧ a = address_of parse_line lines i
      ∧ ∀ j raw', (i < j)%nat → lines !! j = Some raw' →
                  defines parse_line raw' ≠ Some name.


(** *** Words for the statements about a whole run *)

(** The label that a line refers to: the [labelref] of a MEMOP or JUMP
    line. *)
Definition refers (f : dict) : value :=
  match kind f with
  | MEMOP | JUMP => field f "labelref"
  | _ => None
  end.

(** The line takes an address: its kind is not COMMENT. *)
Definition occupies (f : dict) : bool :=
  bool_decide (kind f ≠ COMMENT).

(** The line refers to a label that the table does not have. *)
Definition unbound (labels : gmap string Z) (f : dict) : bool :=
  match refers f with
  | Some ref => bool_decide (labels !! ref = None)
  | None => false
  end.

(** A line fails in the second pass when no pattern matches it or when it
    refers to a label that the table does not have; [diagnostic] is what
    is printed then. *)
Definition fails (parse_line : string -> result dict)
    (labels : gmap string Z) (raw : string) : bool :=
  match parse_line (Str.rstrip raw) with
  | Raise _ => true
  | Ok f => unbound labels f
  end.

Definition diagnostic (parse_line : string -> result dict)
    (lnum : nat) (raw : string) : string :=
  match parse_line (Str.rstrip raw) with
  | Raise _ =>
      "Syntax error in line " +:+ Str.of_nat lnum +:+ ": " +:+ Str.rstrip raw
  | Ok f =>
      "Unknown word in line " +:+ Str.of_nat lnum +:+ ": " +:+ repr (refers f)
  end.

(** The diagnostics of the failing lines of [lines], the first of which is
    line [lnum]. *)
Fixpoint diagnostics (parse_line : string -> result dict)
    (labels : gmap string Z) (lnum : nat) (lines : list string)
    : list string :=
  match lines with
  | [] => []
  | raw :: lines' =>
      (if fails parse_line labels raw then [diagnostic parse_line lnum raw]
       else [])
      ++ diagnostics parse_line labels (S lnum) lines'
  end.

(** How many lines of [lines] fail. *)
Fixpoint failures (parse_line : string -> result dict)
    (labels : gmap string Z) (lines : list string) : nat :=
  match lines with
  | [] => 0
  | raw :: lines' =>
      (if fails parse_line labels raw then 1 else 0)
      + failures parse_line labels lines'
  end.

(** How many lines of [lines] the first pass gives an address while the
    second pass leaves them before it advances its counter: the lines that
    match a pattern and refer to a label that the table does not have. *)
Fixpoint skipped (parse_line : string -> result dict)
    (labels : gmap string Z) (lines : list string) : Z :=
  match lines with
  | [] => 0
  | raw :: lines' =>
      (if fails parse_line labels raw && takes_address parse_line raw
       then 1 else 0)
      + skipped parse_line labels lines'
  end.

(** The loop of the second pass over the lines, without the epilogue. *)
Definition loop (transform_line : gmap string Z -> nat -> string -> M tstate unit)
    (labels : gmap string Z) : nat -> list string -> M tstate unit :=
  for_lines (transform_line labels).

(** The message of the abandoned run, on either stream. *)
Definition abandoned_err (s : tstate) : tstate :=
  TState (error_count s) (address s) (transformed s) (stdout s)
         (stderr s ++ ["Too many errors; abandoning"]).

Definition abandoned_out (s : tstate) : tstate :=
  TState (error_count s) (address s) (transformed s)
         (stdout s ++ ["Too many errors; abandoning"]) (stderr s).

(** A label, an opcode, a predicate, a target, the sources [r0] and [r15]
    with a displacement, and a comment: a fully specified instruction. *)
Definition resolved_line (l : value) (op : string) (o : value)
    (tgt : string) (d : Z) (T : string) : string :=
  label_text l +:+ "   " +:+ op +:+ predicate_text o +:+ "  " +:+ tgt
  +:+ ",r0,r15[" +:+ Str.of_Z d +:+ "] " +:+ T.

(** Two states of the second pass with the same address counter and the
    same emitted lines. *)
Definition alike (s s' : tstate) : Prop :=
  address s = address s' /\ transformed s = transformed s'.

End Asm.

(** ** assembler_phase1.py *)

Module Phase1.

Import Re Asm.

Definition ASM_COMMENT_PAT : regex := seq [
  spaces;
  opt_label;
  spaces;
  Opt comment_group;
  spaces; EndAnchor ].

Definition ASM_FULL_PAT : regex := seq [
  spaces;
  opt_label;
  spaces;
  Named "opcode" (Plus (Class Str.is_alpha));
  opt_predicate;
  spaces1;
  Named "target" register; Lit ",";
  Named "src1" register; Lit ",";
  Named "src2" register;
  Opt (seq [Lit "["; Named "offset" (Seq (Opt (Lit "-")) (Plus (Class Str.is_digit))); Lit "]"]);
  Opt (Seq spaces comment_group);
  spaces; EndAnchor ].

Definition ASM_MEMOP_PAT : regex := seq [
  spaces;
  opt_label;
  spaces;
  Named "opcode" (Plus (Class Str.is_alpha));
  opt_predicate;
  spaces1;
  Named "target" register; Lit ",";
  Named "labelref" ident;
  Opt (Seq spaces comment_group);
  spaces; EndAnchor ].

Definition ASM_JUMP_PAT : regex := seq [
  spaces;
  opt_label;
  spaces;
  Named "opcode" (Lit "JUMP");
  opt_predicate;
  spaces1;
  Named "labelref" ident;
  Opt (Seq spaces comment_group);
  spaces; EndAnchor ].

Definition ASM_DATA_PAT : regex := seq [
  spaces;
  opt_label;
  spaces;
  Named "opcode" (Lit "DATA");
  spaces;
  Opt (Named "value"
         (Alt (Seq (Lit "0x") (Plus (Class Str.is_hex)))
              (Plus (Class Str.is_digit))));
  Opt (Seq spaces comment_group);
  spaces; EndAnchor ].

Definition PATTERNS : list (regex * AsmSrcKind) :=
  [ (ASM_FULL_PAT, FULL);
    (ASM_DATA_PAT, DATA);
    (ASM_COMMENT_PAT, COMMENT);
    (ASM_MEMOP_PAT, MEMOP);
    (ASM_JUMP_PAT, JUMP) ].

Definition parse_line (line : string) : result dict :=
  parse_line_in PATTERNS line.

Definition resolve : list string -> result (gmap string Z) :=
  Asm.resolve parse_line.

(** *** Python's [int(s, base)] on a text, for the bases 10 and 16

    As CPython 3.11 does it: white space before the number, a sign, for
    base 16 a prefix [0x] or [0X], then digits with single underscores
    between them (one is allowed after the prefix), then white space.  A
    number of more than 4300 digits is refused in base 10
    ([sys.int_max_str_digits]); base 16 has no limit. *)

(** The value of a digit in the base, if the character is one. *)
Definition digit_value (base : Z) (c : ascii) : option Z :=
  let d :=
    if Str.is_digit c then Some (Z.of_N (Str.ord c) - 48)%Z
    else if Str.between 97 102 c then Some (Z.of_N (Str.ord c) - 87)%Z
    else if Str.between 65 70 c then Some (Z.of_N (Str.ord c) - 55)%Z
    else None in
  match d with
  | Some v => if (v <? base)%Z then Some v else None
  | None => None
  end.

(** The white space that [int] skips: that of [str.isspace] without the
    four separators 28..31. *)
Definition int_space (c : ascii) : bool :=
  Str.is_space c && negb (Str.between 28 31 c).

Fixpoint skip_spaces (s : string) : string :=
  match s with
  | String c s' => if int_space c then skip_spaces s' else s
  | "" => ""
  end.

(** [scan base acc count after_digit s]: the loop over the digits and
    underscores at the beginning of [s].  It returns the number read,
    [acc] so far, how many digits it has, [count] so far, and the rest of
    the text; [after_digit] tells whether the last character was a digit.
    There is no result when an underscore does not follow a digit or is
    not followed by one, and when there is no digit at all. *)
Fixpoint scan (base acc : Z) (count : nat) (after_digit : bool) (s : string)
    : option (Z * nat * string) :=
  match s with
  | "" => if after_digit then Some (acc, count, "") else None
  | String c s' =>
      if Str.is_char "_" c
      then if after_digit then scan base acc count false s' else None
      else match digit_value base c with
           | Some v => scan base (acc * base + v)%Z (S count) true s'
           | None => if after_digit then Some (acc, count, s) else None
           end
  end.

(** [repr(s)] of a text: between single quotes, or between double quotes
    when the text holds a single quote and no double quote; the quote and
    the backslash are escaped, tab, line feed and carriage return are
    written with their letters and every other character that is not
    printable with its code. *)
Definition backslash : ascii := ascii_of_N 92.
Definition single_quote : ascii := ascii_of_N 39.
Definition double_quote : ascii := ascii_of_N 34.

Definition is_printable (c : ascii) : bool :=
  Str.between 32 126 c
  || (Str.between 161 255 c && negb (Str.ord c =? 173)%N).

Definition hex_digit_of (n : N) : ascii :=
  ascii_of_N (if (n <? 10)%N then 48 + n else 87 + n).

Definition escape (quote c : ascii) : string :=
  if Str.is_char quote c || Str.is_char backslash c
  then String backslash (String c "")
  else if (Str.ord c =? 9)%N then String backslash "t"
  else if (Str.ord c =? 10)%N then String backslash "n"
  else if (Str.ord c =? 13)%N then String backslash "r"
  else if is_printable c then String c ""
  else String backslash
         (String "x" (String (hex_digit_of (Str.ord c / 16))
                        (String (hex_digit_of (Str.ord c mod 16)) ""))).

Fixpoint escaped (quote : ascii) (s : string) : string :=
  match s with
  | "" => ""
  | String c s' => escape quote c +:+ escaped quote s'
  end.

Definition repr_str (s : string) : string :=
  let quote :=
    if Str.contains s (String single_quote "")
       && negb (Str.contains s (String double_quote ""))
    then double_quote else single_quote in
  String quote (escaped quote s +:+ String quote "").

(** The two errors of [int]; the first one shows at most 200 characters of
    the [repr] of the text. *)
Definition invalid_literal (literal : string) (base : Z) : exn :=
  ValueError ("invalid literal for int() with base " +:+ Str.of_Z base
              +:+ ": " +:+ Str.take 200 (repr_str literal)).

Definition int_max_str_digits : nat := 4300.

Definition exceeds_limit (count : nat) : exn :=
  ValueError ("Exceeds the limit (4300 digits) for integer string "
              +:+ "conversion: value has " +:+ Str.of_nat count
              +:+ " digits; use sys.set_int_max_str_digits() "
              +:+ "to increase the limit").

Definition int (literal : string) (base : Z) : result Z :=
  let s := skip_spaces literal in
  let '(sign, s) :=
    match s with
    | String "-" s' => ((-1)%Z, s')
    | String "+" s' => (1%Z, s')
    | _ => (1%Z, s)
    end in
  let s :=
    if (base =? 16)%Z && (Str.startswith s "0x" || Str.startswith s "0X")
    then match s with
         | String _ (String _ (String "_" s')) => s'
         | String _ (String _ s') => s'
         | _ => s
         end
    else s in
  match scan base 0 0 false s with
  | Some (v, count, rest) =>
      if negb (Z.land base (base - 1) =? 0)%Z
         && (int_max_str_digits <? count)%nat
      then Raise (exceeds_limit count)
      else match skip_spaces rest with
           | "" => Ok (sign * v)%Z
           | _ => Raise (invalid_literal literal base)
           end
  | None => Raise (invalid_literal literal base)
  end.

(** [s.lstrip()] *)
Fixpoint lstrip (s : string) : string :=
  match s with
  | String c s' => if Str.is_space c then lstrip s' else s
  | "" => ""
  end.

(** [value_parse] *)
Definition value_parse (int_literal : string) : result Z :=
  if Str.startswith int_literal "0x"
  then int int_literal 16
  else int int_literal 10.

(** The body of the [try] of [transform]. *)
Definition rewrite_line (labels : gmap string Z) (line : string)
    : M tstate unit :=
     fields <- lift (parse_line line) ;;
     match kind fields with
     | FULL => append line
     | DATA => append line
     | MEMOP =>
         ref <- lift (getitem fields "labelref") ;;
         target_address <- lift (lookup_label labels ref) ;;
         s <- get ;;
         let pc_relative := (target_address - address s)%Z in
         f <- fix_optional_fields fields ;;
         label <- lift (getitem f "label") ;;
         opcode <- lift (getitem f "opcode") ;;
         predicate <- lift (getitem f "predicate") ;;
         target <- lift (getitem f "target") ;;
         comment <- lift (getitem f "comment") ;;
         append (show label +:+ "   " +:+ show opcode +:+ show predicate
                 +:+ " " +:+ " " +:+ show target +:+ ",r0,r15["
                 +:+ Str.of_Z pc_relative +:+ "] #" +:+ show ref +:+ " "
                 +:+ " " +:+ show comment)
     | JUMP =>
         ref <- lift (getitem fields "labelref") ;;
         target_address <- lift (lookup_label labels ref) ;;
         s <- get ;;
         let pc_relative := (target_address - address s)%Z in
         f <- fix_optional_fields fields ;;
         label <- lift (getitem f "label") ;;
         predicate <- lift (getitem f "predicate") ;;
         comment <- lift (getitem f "comment") ;;
         append (show label +:+ "   ADD" +:+ show predicate
                 +:+ " " +:+ " r15,r0,r15["
                 +:+ Str.of_Z pc_relative +:+ "] #" +:+ show ref +:+ " "
                 +:+ " " +:+ show comment)
     | COMMENT => append line
     end ;;
     if decide (kind fields = COMMENT) then ret tt else next_address.

(** The [except] clauses of [transform]. *)
Definition report (lnum : nat) (line : string) (e : exn)
    : option (M tstate unit) :=
  match e with
  | SyntaxError _ =>
      Some (count_error ;;
            print_stderr ("Syntax error in line " +:+ Str.of_nat lnum
                          +:+ ": " +:+ line))
  | KeyError _ =>
      Some (count_error ;;
            print_stderr ("Unknown word in line " +:+ Str.of_nat lnum
                          +:+ ": " +:+ str_exn e))
  | AttributeError _ | ValueError _ =>
      Some (count_error ;;
            print_stderr ("Exception encountered in line "
                          +:+ Str.of_nat lnum +:+ ": " +:+ str_exn e))
  | SystemExit _ => None
  end.

(** [if error_count > ERROR_LIMIT: ...; sys.exit(1)] *)
Definition check_limit : M tstate unit :=
  s <- get ;;
  if (ERROR_LIMIT <? error_count s)%nat
  then print_stderr "Too many errors; abandoning" ;; raise (SystemExit 1)
  else ret tt.

(** One round of the loop of [transform]. *)
Definition transform_line (labels : gmap string Z) (lnum : nat) (raw : string)
    : M tstate unit :=
  let line := Str.rstrip raw in
  try_except (rewrite_line labels line) (report lnum line) ;;
  check_limit.

Definition transform (lines : list string) : M tstate (list string) :=
  labels <- lift (resolve lines) ;;
  for_lines (transform_line labels) 0 lines ;;
  s <- get ;;
  ret (transformed s).

Definition main : list string -> run := main_of transform.

(** [s.strip()] *)
Definition strip (s : string) : string := lstrip (Str.rstrip s).

(** [s.split()]: the words of [s], which are its runs of characters that
    are not white space; [word] is the word that is being read. *)
Fixpoint split (s : string) (word : string) : list string :=
  match s with
  | "" => match word with "" => [] | _ => [word] end
  | String c s' =>
      if Str.is_space c
      then match word with "" => split s' "" | _ => word :: split s' "" end
      else split s' (word +:+ String c "")
  end.

(** [sep.join(parts)] *)
Fixpoint join (sep : string) (parts : list string) : string :=
  match parts with
  | [] => ""
  | [w] => w
  | w :: parts' => w +:+ sep +:+ join sep parts'
  end.

(** [squish(s)]: discard initial and final spaces and compress all other
    runs of white space to a single space. *)
Definition squish (s : string) : string :=
  let parts := split (strip s) "" in
  join " " parts.

(** [to_flag].  The enumeration [CondFlag] is imported from the module
    [instr_format], which the repository does not hold; the function is
    modelled over what it uses of the enumeration: the type of the flags,
    the names that the iteration over [CondFlag] yields, the lookup by name
    [CondFlag[m]], the member [CondFlag.NEVER] and the operation [|]. *)
Section CondFlag.

Variable Flag : Type.
Variable names : list string.
Variable member : string -> option Flag.
Variable NEVER : Flag.
Variable union : Flag -> Flag -> Flag.

(** [CondFlag[m]] *)
Definition by_name (m : string) : result Flag :=
  match member m with
  | Some flag => Ok flag
  | None => Raise (KeyError (Some m))
  end.

(** [for bitname in m: composite = composite | CondFlag[bitname]] *)
Fixpoint combine (composite : Flag) (m : string) : result Flag :=
  match m with
  | "" => Ok composite
  | String bitname m' =>
      match by_name (String bitname "") with
      | Ok flag => combine (union composite flag) m'
      | Raise e => Raise e
      end
  end.

Definition to_flag (m : string) : result Flag :=
  if bool_decide (m ∈ names)
  then by_name m
  else combine NEVER m.

End CondFlag.

End Phase1.

(** ** fadfa.py *)

Module Fadfa.

Import Re Asm.

Definition ASM_COMMENT_PAT : regex := seq [
  spaces;
  opt_label;
  spaces;
  Opt comment_group;
  spaces; EndAnchor ].

Definition ASM_FULL_PAT : regex := seq [
  spaces;
  opt_label;
  spaces;
  Named "opcode" (Plus (Class Str.is_alpha));
  opt_predicate;
  spaces1;
  Named "target" register; Lit ",";
  Named "src1" register; Lit ",";
  Named "src2" register;
  Opt (seq [Lit "["; Named "offset" (Seq (Opt (Lit "-")) (Plus (Class Str.is_digit))); Lit "]"]);
  Opt (Seq spaces comment_group);
  spaces; EndAnchor ].

Definition ASM_DATA_PAT : regex := seq [
  spaces;
  opt_label;
  spaces;
  Named "opcode" (Alt (Lit "DATA") (Lit "data"));
  opt_predicate;
  spaces;
  Opt (Named "value"
         (Alt (Seq (Lit "0x") (Plus (Class Str.is_hex)))
              (Plus (Class Str.is_digit))));
  Opt (Seq spaces comment_group);
  spaces; EndAnchor ].

(* opcode: \b((?!LDA|lda)[a-zA-Z])+ *)
Definition ASM_MEMOP_PAT : regex := seq [
  spaces;
  opt_label;
  spaces;
  Named "opcode"
    (Seq WordBoundary
         (Plus (Seq (NotAhead (Alt (Lit "LDA") (Lit "lda")))
                    (Class Str.is_alpha))));
  opt_predicate;
  spaces1;
  Named "target" register; Lit ",";
  Named "labelref" ident;
  Opt (Seq spaces comment_group);
  spaces; EndAnchor ].

Definition ASM_JUMP_PAT : regex := seq [
  spaces;
  opt_label;
  spaces;
  Named "opcode" (Alt (Lit "JUMP") (Lit "jump"));
  opt_predicate;
  spaces1;
  Named "labelref" ident;
  Opt (Seq spaces comment_group);
  spaces; EndAnchor ].

Definition PATTERNS : list (regex * AsmSrcKind) :=
  [ (ASM_FULL_PAT, FULL);
    (ASM_DATA_PAT, DATA);
    (ASM_COMMENT_PAT, COMMENT);
    (ASM_MEMOP_PAT, MEMOP);
    (ASM_JUMP_PAT, JUMP) ].

Definition parse_line (line : string) : result dict :=
  parse_line_in PATTERNS line.

Definition resolve : list string -> result (gmap string Z) :=
  Asm.resolve parse_line.

(** [fields['opcode'].upper()] *)
Definition upper_of (v : value) : result value :=
  match v with
  | Some s => Ok (Some (Str.upper s))
  | None =>
      Raise (AttributeError "'NoneType' object has no attribute 'upper'")
  end.

(** The body of the [try] of [transform]. *)
Definition rewrite_line (lables : gmap string Z) (line : string)
    : M tstate unit :=
     fields <- lift (parse_line line) ;;
     f <- (if decide (kind fields = COMMENT) then ret fields
           else
             opcode <- lift (getitem fields "opcode") ;;
             upper <- lift (upper_of opcode) ;;
             ret (setitem fields "opcode" upper)) ;;
     match kind fields with
     | FULL =>
         f <- fix_optional_fields f ;;
         offset <- lift (getitem f "offset") ;;
         label <- lift (getitem f "label") ;;
         opcode <- lift (getitem f "opcode") ;;
         predicate <- lift (getitem f "predicate") ;;
         target <- lift (getitem f "target") ;;
         src1 <- lift (getitem f "src1") ;;
         src2 <- lift (getitem f "src2") ;;
         match offset with
         | None =>
             comment <- lift (getitem f "comment") ;;
             append (show label +:+ "   " +:+ show opcode +:+ show predicate
                     +:+ " " +:+ " " +:+ show target +:+ "," +:+ show src1
                     +:+ "," +:+ show src2 +:+ " "
                     +:+ " " +:+ show comment)
         | Some _ =>
             offset <- lift (getitem f "offset") ;;
             comment <- lift (getitem f "comment") ;;
             append (show label +:+ "   " +:+ show opcode +:+ show predicate
                     +:+ " " +:+ " " +:+ show target +:+ "," +:+ show src1
                     +:+ "," +:+ show src2 +:+ "[" +:+ show offset +:+ "] "
                     +:+ " " +:+ show comment)
         end
     | DATA =>
         f <- fix_optional_fields f ;;
         label <- lift (getitem f "label") ;;
         opcode <- lift (getitem f "opcode") ;;
         value <- lift (getitem f "value") ;;
         comment <- lift (getitem f "comment") ;;
         append (show label +:+ "   " +:+ show opcode +:+ " "
                 +:+ " " +:+ show value +:+ " "
                 +:+ " " +:+ show comment)
     | MEMOP =>
         ref <- lift (getitem fields "labelref") ;;
         mem_addr <- lift (lookup_label lables ref) ;;
         s <- get ;;
         let pc_relative := (mem_addr - address s)%Z in
         f <- fix_optional_fields f ;;
         label <- lift (getitem f "label") ;;
         opcode <- lift (getitem f "opcode") ;;
         predicate <- lift (getitem f "predicate") ;;
         target <- lift (getitem f "target") ;;
         labelref <- lift (getitem f "labelref") ;;
         comment <- lift (getitem f "comment") ;;
         append (show label +:+ "   " +:+ show opcode +:+ show predicate
                 +:+ " " +:+ " " +:+ show target +:+ ",r0,r15["
                 +:+ Str.of_Z pc_relative +:+ "] #" +:+ show labelref +:+ " "
                 +:+ " " +:+ show comment)
     | JUMP =>
         ref <- lift (getitem fields "labelref") ;;
         mem_addr <- lift (lookup_label lables ref) ;;
         s <- get ;;
         let pc_relative := (mem_addr - address s)%Z in
         let f := setitem f "opcode" (Some "ADD") in
         f <- fix_optional_fields f ;;
         label <- lift (getitem f "label") ;;
         opcode <- lift (getitem f "opcode") ;;
         predicate <- lift (getitem f "predicate") ;;
         labelref <- lift (getitem f "labelref") ;;
         comment <- lift (getitem f "comment") ;;
         append (show label +:+ "   " +:+ show opcode +:+ show predicate
                 +:+ " " +:+ " r15,r0,r15["
                 +:+ Str.of_Z pc_relative +:+ "] #" +:+ show labelref +:+ " "
                 +:+ " " +:+ show comment)
     | COMMENT => append line
     end ;;
     if decide (kind fields = COMMENT) then ret tt else next_address.

(** The [except] clauses of [transform]. *)
Definition report (lnum : nat) (line : string) (e : exn)
    : option (M tstate unit) :=
  match e with
  | SyntaxError _ =>
      Some (count_error ;;
            print_stdout ("Syntax error in line " +:+ Str.of_nat lnum
                          +:+ ": " +:+ line))
  | KeyError _ =>
      Some (count_error ;;
            print_stdout ("Unknown word in line " +:+ Str.of_nat lnum
                          +:+ ": " +:+ str_exn e))
  | AttributeError _ | ValueError _ =>
      Some (count_error ;;
            print_stdout ("Exception encountered in line "
                          +:+ Str.of_nat lnum +:+ ": " +:+ str_exn e))
  | SystemExit _ => None
  end.

(** [if error_count > ERROR_LIMIT: ...; sys.exit(1)] *)
Definition check_limit : M tstate unit :=
  s <- get ;;
  if (ERROR_LIMIT <? error_count s)%nat
  then print_stdout "Too many errors; abandoning" ;; raise (SystemExit 1)
  else ret tt.

(** One round of the loop of [transform]. *)
Definition transform_line (lables : gmap string Z) (lnum : nat) (raw : string)
    : M tstate unit :=
  let line := Str.rstrip raw in
  try_except (rewrite_line lables line) (report lnum line) ;;
  check_limit.

Definition transform (lines : list string) : M tstate (list string) :=
  lables <- lift (resolve lines) ;;
  for_lines (transform_line lables) 0 lines ;;
  s <- get ;;
  ret (transformed s).

Definition main : list string -> run := main_of transform.

End Fadfa.

(** ** Sample inputs *)

Module Sample.

Import Asm.

(** The program of the docstring of [transform]. *)
Definition program : list string :=
  [ "again:  STORE r1,x";
    "        SUB   r1,r0,r0[1]";
    "        JUMP/P  again";
    "        HALT r0,r0,r0";
    "x:      DATA 0" ].

(** Its table of labels. *)
Definition table : gmap string Z := <["x" := 4%Z]> (<["again" := 0%Z]> ∅).

(** A reference to a label that nobody defines, before two good lines. *)
Definition unresolved : list string :=
  [ "LOAD r1,nolabel";
    "x: DATA 0";
    "LOAD r2,x" ].

(** Seven lines that no pattern matches. *)
Definition garbage : list string :=
  [ "?"; "?"; "?"; "?"; "?"; "?"; "?" ].

(** A label on a line of its own, a blank line, and the instruction that
    the label names. *)
Definition label_alone : list string :=
  [ "ADD r1,r2,r3";
    "x:";
    "";
    "HALT r0,r0,r0" ].

(** Two lines that need no rewriting. *)
Definition plain : list string :=
  [ "ADD/Z r1,r2,r3[8]   ";
    "x: DATA 0x2a # answer" ].

(** What [parse_line] returns, or an empty COMMENT when it raises. *)
Definition parsed (r : result dict) : dict :=
  match r with
  | Ok f => f
  | Raise _ => Dict COMMENT ∅
  end.

(** The state in which a run ends. *)
Definition final {A} (r : result A * tstate) : tstate := snd r.

End Sample.

(** ** Words for the statements about texts and lines *)

Module Text.
Import Str.

(** White space only. *)
Definition blank (w : string) : Prop := forallb is_space w = true.

(** What the grammars ask of the fields: [[a-zA-Z]\w*], [r[0-9]+],
    [-?[0-9]+] and [[\#;].*]. *)
Definition identifier (w : string) : Prop :=
  exists a w', w = String a w' /\ is_alpha a = true /\ forallb is_word w' = true.

Definition register_name (w : string) : Prop :=
  exists d, w = "r" +:+ d /\ decimal d.

Definition signed_decimal (w : string) : Prop :=
  decimal w \/ exists d, w = "-" +:+ d /\ decimal d.

Definition remark (w : string) : Prop :=
  exists a w', w = String a w'
    /\ (is_char "#" a || is_char ";" a = true) /\ forallb is_dot w' = true.

(** The first character of a text that is not white space. *)
Fixpoint first_solid (s : string) : option ascii :=
  match s with
  | "" => None
  | String c s' => if is_space c then first_solid s' else Some c
  end.

(** A line that holds a comment and nothing else. *)
Definition remark_line (w : string) : Prop :=
  exists sp c, w = sp +:+ c /\ blank sp /\ remark c.

(** A text without white space, and a word: such a text that is not
    empty. *)
Definition solid (w : string) : Prop :=
  forallb (fun c => negb (is_space c)) w = true.

Definition word (w : string) : Prop := w <> "" /\ solid w.

(** The beginning of an instruction: white space, a label with its colon
    or none, white space, the opcode, a predicate after its slash or none.
    The end of a line: a comment, after white space, or none; white
    space. *)
Definition instruction_head (sp1 : string) (l : option string)
    (sp2 op : string) (o : option string) : string :=
  sp1 +:+ Asm.label_piece l +:+ sp2 +:+ op +:+ Asm.predicate_text o.

Definition head_ok (sp1 : string) (l : option string) (sp2 : string)
    (o : option string) : Prop :=
  blank sp1 /\ (forall v, l = Some v -> identifier v) /\ blank sp2
  /\ (forall v, o = Some v -> capitals v).

Definition line_end (sp4 : string) (cm : option string) (sp5 : string)
    : string :=
  (sp4 +:+ Asm.comment_text cm) +:+ sp5.

Definition end_ok (sp4 : string) (cm : option string) (sp5 : string)
    : Prop :=
  blank sp4 /\ (forall v, cm = Some v -> remark v)
  /\ (cm = None -> sp4 = "") /\ blank sp5.

(** The four forms of a line with an opcode, after its head [head] and
    before its end [tail]: white space and the operands. *)
Definition full_line (head sp3 tgt s1 s2 : string) (off : option string)
    (tail : string) : string :=
  head +:+ sp3 +:+ tgt +:+ "," +:+ s1 +:+ "," +:+ s2
  +:+ Asm.offset_text off +:+ tail.

Definition memop_line (head sp3 tgt ref tail : string) : string :=
  head +:+ sp3 +:+ tgt +:+ "," +:+ ref +:+ tail.

Definition jump_line (head sp3 ref tail : string) : string :=
  head +:+ sp3 +:+ ref +:+ tail.

Definition value_piece (v : option string) : string :=
  match v with
  | None => ""
  | Some w => w
  end.

Definition data_line (head sp3 : string) (v : option string)
    (tail : string) : string :=
  head +:+ sp3 +:+ value_piece v +:+ tail.

(** The operands of a FULL line and of a MEMOP line, and the value of a
    DATA line, as the grammars ask for them. *)
Definition full_operands (sp3 tgt s1 s2 : string) (off : option string)
    : Prop :=
  sp3 <> "" /\ blank sp3 /\ register_name tgt /\ register_name s1
  /\ register_name s2 /\ (forall v, off = Some v -> signed_decimal v).

Definition memop_operands (sp3 tgt ref : string) : Prop :=
  sp3 <> "" /\ blank sp3 /\ register_name tgt /\ identifier ref.

Definition jump_operand (sp3 ref : string) : Prop :=
  sp3 <> "" /\ blank sp3 /\ identifier ref.

Definition data_value (sp3 : string) (v : option string) : Prop :=
  blank sp3 /\ (forall w, v = Some w -> decimal w \/ hexadecimal w).

End Text.
(** * Properties *)

(** ** Strings: concatenation, prefixes and filters *)

Module StrFacts.
Import Str.

Lemma string_app_nil_l s : "" +:+ s = s.
Proof. reflexivity. Qed.

Lemma string_app_cons a s t : String a s +:+ t = String a (s +:+ t).
Proof. reflexivity. Qed.

Lemma string_app_nil_r s : s +:+ "" = s.
Proof. induction s as [|a s IH]; [done | by rewrite string_app_cons, IH]. Qed.

Lemma string_app_assoc s1 s2 s3 : (s1 +:+ s2) +:+ s3 = s1 +:+ (s2 +:+ s3).
Proof. induction s1 as [|a s1 IH]; [done | by rewrite !string_app_cons, IH]. Qed.

Lemma string_length_app s1 s2 :
  String.length (s1 +:+ s2) = (String.length s1 + String.length s2)%nat.
Proof. induction s1 as [|a s1 IH]; [done | by rewrite string_app_cons; simpl; rewrite IH]. Qed.

Lemma string_take_app w t :
  take (String.length (w +:+ t) - String.length t) (w +:+ t) = w.
Proof.
  rewrite string_length_app.
  replace (String.length w + String.length t - String.length t)%nat
    with (String.length w) by lia.
  induction w as [|a w IH]; [by destruct t|].
  rewrite string_app_cons; simpl. by rewrite IH.
Qed.

Lemma strip_prefix_Some p s s' : strip_prefix p s = Some s' → s = p +:+ s'.
Proof.
  revert s; induction p as [|a p IH]; intros s; simpl.
  - by intros [= ->].
  - destruct s as [|b s]; [done|].
    destruct (Ascii.eqb_spec a b) as [->|]; [|done].
    intros H. by rewrite string_app_cons, (IH _ H).
Qed.

Lemma strip_prefix_app p s : strip_prefix p (p +:+ s) = Some s.
Proof.
  induction p as [|a p IH]; [done|].
  rewrite string_app_cons; simpl. by rewrite Ascii.eqb_refl.
Qed.

Lemma string_last_app w1 w2 p : last (w1 +:+ w2) p = last w2 (last w1 p).
Proof.
  revert p; induction w1 as [|a w1 IH]; intros p; [done|].
  rewrite string_app_cons; simpl. apply IH.
Qed.

Lemma string_filter_app f s1 s2 : filter f (s1 +:+ s2) = filter f s1 +:+ filter f s2.
Proof.
  induction s1 as [|a s1 IH]; [done|].
  rewrite string_app_cons; simpl. destruct (f a); by rewrite ?string_app_cons, IH.
Qed.

Lemma string_forallb_app f s1 s2 :
  forallb f (s1 +:+ s2) = forallb f s1 && forallb f s2.
Proof.
  induction s1 as [|a s1 IH]; [done|].
  rewrite string_app_cons; simpl. by rewrite IH, andb_assoc.
Qed.

End StrFacts.

(** ** The matcher is sound for the declarative semantics

    Every result of [rmatch] is a match in the sense of [den]; the second
    half of the module follows the groups through a match: which groups
    are always set, and what the text of a group looks like. *)

Module ReFacts.
Import Str Re StrFacts.

(** A repetition that the matcher finds is a chain of matches of the
    repeated pattern. *)
Lemma iterate_sound step R :
  (∀ cur caps cur' caps',
     (cur', caps') ∈ step cur caps → reaches R cur caps cur' caps') →
  ∀ n cur caps cur' caps',
    (cur', caps') ∈ iterate step n cur caps →
    reaches (rep R) cur caps cur' caps'.
Proof.
  intros Hstep n; induction n as [|n IH]; intros cur caps cur' caps'; simpl.
  - intros [= -> ->]%list_elem_of_singleton. exists "". repeat split; constructor.
  - rewrite elem_of_app, list_elem_of_bind, list_elem_of_singleton.
    intros [([cur1 caps1] & Hin & H1)|[= -> ->]].
    + destruct (_ <? _)%nat; [|by apply elem_of_nil in Hin].
      apply Hstep in H1 as (w1 & E1 & P1 & D1).
      apply IH in Hin as (w2 & E2 & P2 & D2).
      exists (w1 +:+ w2). rewrite string_app_assoc, string_last_app, <- E2, <- P1.
      repeat split; [done..|].
      econstructor; [by rewrite <- E2|by rewrite <- P1].
    + exists "". repeat split; constructor.
Qed.

(** Every success of the matcher is a match: the text that it consumed
    is in the language of the pattern, with the groups that it reports. *)
Lemma rmatch_sound r :
  ∀ cur caps cur' caps',
    (cur', caps') ∈ rmatch r cur caps → reaches (den r) cur caps cur' caps'.
Proof.
  induction r as [|f|l|r1 IH1 r2 IH2|r1 IH1 r2 IH2|r1 IH1|r1 IH1|r1 IH1
                  |name r1 IH1|r1 IH1| |];
    intros cur caps cur' caps'; cbn [rmatch].
  - intros [= -> ->]%list_elem_of_singleton. by exists "".
  - destruct cur as [p [|a s]]; cbn [rest prev]; [by intros ?%elem_of_nil|].
    destruct (f a) eqn:Ef; [|by intros ?%elem_of_nil].
    intros [= -> ->]%list_elem_of_singleton. exists (String a ""). simpl. eauto 10.
  - destruct (strip_prefix l (rest cur)) as [s|] eqn:E; [|by intros ?%elem_of_nil].
    intros [= -> ->]%list_elem_of_singleton. exists l; simpl.
    by rewrite (strip_prefix_Some _ _ _ E).
  - rewrite list_elem_of_bind. intros ([cur1 caps1] & H2 & H1).
    apply IH1 in H1 as (w1 & E1 & P1 & D1).
    apply IH2 in H2 as (w2 & E2 & P2 & D2).
    exists (w1 +:+ w2). rewrite string_app_assoc, string_last_app, <- E2, <- P1.
    repeat split; [done..|].
    exists w1, w2, caps1. rewrite <- E2, <- P1. done.
  - rewrite elem_of_app. intros [H|H].
    + apply IH1 in H as (w & ? & ? & ?). exists w. simpl; auto.
    + apply IH2 in H as (w & ? & ? & ?). exists w. simpl; auto.
  - rewrite elem_of_app, list_elem_of_singleton. intros [H|[= -> ->]].
    + apply IH1 in H as (w & ? & ? & ?). exists w. simpl; auto.
    + exists "". simpl; auto.
  - intros H. by apply (iterate_sound _ _ IH1) in H.
  - rewrite list_elem_of_bind. intros ([cur1 caps1] & H2 & H1).
    apply IH1 in H1 as (w1 & E1 & P1 & D1).
    apply (iterate_sound _ _ IH1) in H2 as (w2 & E2 & P2 & D2).
    exists (w1 +:+ w2). rewrite string_app_assoc, string_last_app, <- E2, <- P1.
    repeat split; [done..|].
    exists w1, w2, caps1. rewrite <- E2, <- P1. done.
  - rewrite list_elem_of_bind. intros ([cur1 caps1] & H2 & H1).
    apply list_elem_of_singleton in H2 as [= -> ->].
    apply IH1 in H1 as (w & E & P & D).
    exists w. repeat split; [done..|].
    exists caps1. split; [done|].
    unfold consumed. by rewrite E, string_take_app.
  - destruct (rmatch r1 cur caps) eqn:E; [|by intros ?%elem_of_nil].
    intros [= -> ->]%list_elem_of_singleton. exists "". simpl.
    destruct cur; auto.
  - destruct (xorb _ _) eqn:E; [|by intros ?%elem_of_nil].
    intros [= -> ->]%list_elem_of_singleton. exists "". simpl.
    repeat split; auto.
  - destruct cur as [p [|a [|b s]]]; cbn [rest prev].
    + intros [= -> ->]%list_elem_of_singleton. exists "". simpl.
      repeat split; auto.
    + unfold is_char. destruct (Ascii.eqb_spec "010" a) as [<-|]; [|by intros ?%elem_of_nil].
      intros [= -> ->]%list_elem_of_singleton. exists "". simpl.
      repeat split; auto.
    + unfold is_char. destruct (Ascii.eqb "010" a); by intros ?%elem_of_nil.
Qed.

Lemma first_full_Some l caps :
  first_full l = Some caps → ∃ cur, (cur, caps) ∈ l ∧ rest cur = "".
Proof.
  induction l as [|[cur c] l IH]; simpl; [done|].
  destruct (rest cur) eqn:E.
  - intros [= ->]. exists cur. split; [left|done].
  - intros (cur' & ? & ?)%IH. exists cur'. split; [by right|done].
Qed.

(** A full match of [s] says that [s] itself is in the language. *)
Lemma fullmatch_sound r s m :
  fullmatch r s = Some m → den r None s "" ∅ m.
Proof.
  intros (cur & Hin & Hrest)%first_full_Some.
  apply rmatch_sound in Hin as (w & E & _ & D). simpl in *.
  rewrite Hrest in *. rewrite string_app_nil_r in E. by subst.
Qed.

Section Groups.

Variable k : string.

Lemma rep_keeps R p w t (c c' : captures) :
  (∀ p w t c c', R p w t c c' → is_Some (c !! k) → is_Some (c' !! k)) →
  rep R p w t c c' → is_Some (c !! k) → is_Some (c' !! k).
Proof. intros HR H; induction H; eauto. Qed.

Lemma den_keeps r :
  ∀ p w t c c', den r p w t c c' → is_Some (c !! k) → is_Some (c' !! k).
Proof.
  induction r as [|f|l|r1 IH1 r2 IH2|r1 IH1 r2 IH2|r1 IH1|r1 IH1|r1 IH1
                  |name r1 IH1|r1 IH1| |]; intros p w t c c'; cbn [den].
  - by intros [_ ->].
  - by intros (? & _ & _ & ->).
  - by intros [_ ->].
  - intros (w1 & w2 & c1 & _ & D1 & D2); eauto.
  - intros [D|D]; eauto.
  - intros [D|[_ ->]]; eauto.
  - apply rep_keeps; eauto.
  - intros (w1 & w2 & c1 & _ & D1 & D2) Hc.
    eapply rep_keeps; [|done|]; eauto.
  - intros (c1 & D & ->) Hc.
    destruct (decide (name = k)) as [->|].
    + rewrite lookup_insert_eq; eauto.
    + rewrite lookup_insert_ne by done. eauto.
  - by intros (_ & -> & _).
  - by intros (_ & -> & _).
  - by intros (_ & -> & _).
Qed.

(** A group outside of every option, alternative and repetition is set by
    every match. *)
Lemma den_always_set r :
  ∀ p w t c c', den r p w t c c' → k ∈ always_set r → is_Some (c' !! k).
Proof.
  induction r as [|f|l|r1 IH1 r2 IH2|r1 IH1 r2 IH2|r1 IH1|r1 IH1|r1 IH1
                  |name r1 IH1|r1 IH1| |]; intros p w t c c'; cbn [den always_set];
    try by intros _ ?%elem_of_nil.
  - intros (w1 & w2 & c1 & _ & D1 & D2) [?|?]%elem_of_app.
    + eapply den_keeps; eauto.
    + eauto.
  - intros (w1 & w2 & c1 & _ & D1 & D2) Hk.
    eapply rep_keeps; [apply den_keeps|done|]; eauto.
  - intros (c1 & D & ->) [->|?]%elem_of_cons.
    + rewrite lookup_insert_eq; eauto.
    + destruct (decide (name = k)) as [->|].
      * rewrite lookup_insert_eq; eauto.
      * rewrite lookup_insert_ne by done. eauto.
Qed.

Lemma set_by_weaken rs rs' c c' :
  rs ⊆ rs' → set_by k rs c c' → set_by k rs' c c'.
Proof.
  intros Hsub [?|(r1 & p1 & w1 & t1 & c1 & c2 & ? & ? & ?)]; [by left|].
  right. exists r1, p1, w1, t1, c1, c2. auto.
Qed.

Lemma set_by_trans rs c c1 c' :
  set_by k rs c c1 → set_by k rs c1 c' → set_by k rs c c'.
Proof.
  intros H1 [E|H2]; [|by right].
  destruct H1 as [?|(r1 & p1 & w1 & t1 & d1 & d2 & ? & ? & ?)].
  - left; congruence.
  - right. exists r1, p1, w1, t1, d1, d2. rewrite E. auto.
Qed.

Lemma rep_group R rs p w t (c c' : captures) :
  (∀ p w t c c', R p w t c c' → set_by k rs c c') →
  rep R p w t c c' → set_by k rs c c'.
Proof.
  intros HR H; induction H; [by left|].
  eapply set_by_trans; eauto.
Qed.

(** A group keeps its text, or it has the text that one of its own
    patterns matched. *)
Lemma den_group r :
  ∀ p w t c c', den r p w t c c' → set_by k (group_patterns k r) c c'.
Proof.
  induction r as [|f|l|r1 IH1 r2 IH2|r1 IH1 r2 IH2|r1 IH1|r1 IH1|r1 IH1
                  |name r1 IH1|r1 IH1| |]; intros p w t c c'; cbn [den group_patterns].
  - intros [_ ->]; by left.
  - intros (? & _ & _ & ->); by left.
  - intros [_ ->]; by left.
  - intros (w1 & w2 & c1 & _ & D1 & D2).
    eapply set_by_trans; (eapply set_by_weaken; [|eauto]); set_solver.
  - intros [D|D]; (eapply set_by_weaken; [|eauto]); set_solver.
  - intros [D|[_ ->]]; [eauto | by left].
  - apply rep_group; eauto.
  - intros (w1 & w2 & c1 & _ & D1 & D2).
    eapply set_by_trans; [eauto|]. eapply rep_group; eauto.
  - intros (c1 & D & ->).
    destruct (decide (name = k)) as [->|].
    + right. exists r1, p, w, t, c, c1. rewrite lookup_insert_eq.
      split; [set_solver|done].
    + apply IH1 in D. simpl.
      destruct D as [E|(r' & p1 & w1 & t1 & d1 & d2 & ? & ? & ?)].
      * left. by rewrite lookup_insert_ne.
      * right. exists r', p1, w1, t1, d1, d2. by rewrite lookup_insert_ne.
  - intros (_ & -> & _); by left.
  - intros (_ & -> & _); by left.
  - intros (_ & -> & _); by left.
Qed.

End Groups.

(** Repetitions of a class, and what they match. *)
Lemma rep_class f p w t (c c' : captures) :
  rep (den (Class f)) p w t c c' → Str.forallb f w = true ∧ c' = c.
Proof.
  induction 1 as [|p w1 w2 t c c1 c2 (a & -> & Ha & ->) _ [IH ->]]; [done|].
  split; [|done]. rewrite string_app_cons, string_app_nil_l; simpl. by rewrite Ha, IH.
Qed.

Lemma den_plus_class f p w t (c c' : captures) :
  den (Plus (Class f)) p w t c c' →
  w ≠ "" ∧ Str.forallb f w = true ∧ c' = c.
Proof.
  intros (w1 & w2 & c1 & -> & (a & -> & Ha & ->) & [H ->]%rep_class).
  rewrite string_app_cons, string_app_nil_l. simpl. by rewrite Ha, H.
Qed.

(** The dictionary of a match has the groups of the pattern as its keys. *)
Lemma groupdict_lookup r (m : captures) k :
  groupdict r m !! k = if decide (k ∈ group_names r) then Some (m !! k) else None.
Proof.
  unfold groupdict. induction (group_names r) as [|n ns IH]; simpl.
  - by rewrite lookup_empty.
  - destruct (decide (n = k)) as [->|Hne].
    + rewrite lookup_insert_eq. rewrite decide_True; [done|left].
    + rewrite lookup_insert_ne by done. rewrite IH.
      destruct (decide (k ∈ ns)).
      * rewrite decide_True; [done|by right].
      * rewrite decide_False; [done|]. intros [?|?]%elem_of_cons; congruence.
Qed.

End ReFacts.

(** ** Dictionaries of fields *)

(** A name is in a list of names that is given in full. *)
Ltac in_list := apply (bool_decide_unpack _); vm_compute; exact I.

Module AsmFacts.
Import Str Re Asm StrFacts ReFacts.

(** [parse_line] returns the groups of one of its patterns, and raises
    nothing but a SyntaxError. *)
Lemma parse_line_in_Ok pats line f :
  parse_line_in pats line = Ok f →
  ∃ pat kd m, (pat, kd) ∈ pats ∧ fullmatch pat line = Some m
              ∧ f = Dict kd (groupdict pat m).
Proof.
  induction pats as [|[pat k] pats IH]; simpl; [done|].
  destruct (fullmatch pat line) as [m|] eqn:E.
  - intros [= <-]. exists pat, k, m. split; [left|done].
  - intros (pat' & k' & m & ? & ? & ?)%IH. exists pat', k', m.
    split; [by right|done].
Qed.

Lemma parse_line_in_Raise pats line e :
  parse_line_in pats line = Raise e →
  e = SyntaxError ("Assembler syntax error in " +:+ line)
  ∧ ∀ pat k, (pat, k) ∈ pats → fullmatch pat line = None.
Proof.
  induction pats as [|[pat k] pats IH]; simpl.
  - intros [= <-]. split; [done|]. by intros ?? ?%elem_of_nil.
  - destruct (fullmatch pat line) as [m|] eqn:E; [done|].
    intros [-> H]%IH. split; [done|].
    intros pat' k' [[= -> ->]|?]%elem_of_cons; eauto.
Qed.

Lemma getitem_groupdict kd r (m : captures) k :
  bool_decide (k ∈ group_names r) = true →
  getitem (Dict kd (groupdict r m)) k = Ok (m !! k).
Proof.
  intros H%bool_decide_eq_true. unfold getitem; simpl.
  by rewrite groupdict_lookup, decide_True.
Qed.

Lemma field_groupdict kd r (m : captures) k :
  bool_decide (k ∈ group_names r) = true →
  field (Dict kd (groupdict r m)) k = m !! k.
Proof.
  intros H%bool_decide_eq_true. unfold field; simpl.
  by rewrite groupdict_lookup, decide_True.
Qed.

Lemma getitem_field f k v : getitem f k = Ok v → field f k = v.
Proof. unfold getitem, field. by destruct (items f !! k); intros [= ->]. Qed.

Lemma getitem_setitem_eq f k v : getitem (setitem f k v) k = Ok v.
Proof. unfold getitem, setitem; simpl. by rewrite lookup_insert_eq. Qed.

Lemma getitem_setitem_ne f k k' v :
  k ≠ k' → getitem (setitem f k v) k' = getitem f k'.
Proof. intros. unfold getitem, setitem; simpl. by rewrite lookup_insert_ne. Qed.

(** [fix_optional_fields] on a dictionary that has the three keys. *)
Lemma fix_optional_fields_ok {St} f (s : St) l p c :
  getitem f "label" = Ok l → getitem f "predicate" = Ok p →
  getitem f "comment" = Ok c →
  ∃ f', fix_optional_fields f s = (Ok f', s)
    ∧ kind f' = kind f
    ∧ getitem f' "label" = Ok (Some (label_text l))
    ∧ getitem f' "predicate" = Ok (Some (predicate_text p))
    ∧ getitem f' "comment" = Ok (Some (comment_text c))
    ∧ ∀ k, k ≠ "label" → k ≠ "predicate" → k ≠ "comment" →
           getitem f' k = getitem f k.
Proof.
  intros Hl Hp Hc. unfold fix_optional_fields, bind, lift, ret.
  rewrite Hl.
  destruct l as [l|]; (rewrite getitem_setitem_ne, Hp by done);
    (destruct p as [p|]; (rewrite !getitem_setitem_ne, Hc by done));
    (destruct c as [c|]; (eexists; split; [reflexivity|]));
    cbn [kind setitem];
    rewrite ?getitem_setitem_eq;
    repeat (rewrite getitem_setitem_ne by done; rewrite ?getitem_setitem_eq);
    rewrite ?Hc;
    (repeat split; try done);
    intros k ???; by rewrite ?getitem_setitem_ne by done.
Qed.

End AsmFacts.

(** One case for each pattern of a list of patterns that is given in full. *)
Ltac pattern_cases Hin :=
  repeat (apply elem_of_cons in Hin as [[= -> ->]|Hin]);
  [..|by apply elem_of_nil in Hin].

(** The key [k] is in the dictionary: its group is set by every match, or
    it is one of the names of the pattern. *)
Ltac has_group D k :=
  let v := fresh "v" in let E := fresh "E" in
  destruct (ReFacts.den_always_set k _ _ _ _ _ _ D) as [v E]; [in_list|];
  exists v; rewrite AsmFacts.getitem_groupdict by reflexivity; by rewrite E.

Ltac has_key := eexists; by rewrite AsmFacts.getitem_groupdict by reflexivity.

(** ** [assembler_phase1.py]: what a parsed line has, and what
    [rewrite_line] makes of each kind of line *)

Module P1.
Import Str Re Asm StrFacts ReFacts AsmFacts Phase1.

(** A parsed line is in the language of one of the five patterns. *)
Lemma parse_pattern line f :
  parse_line line = Ok f →
  ∃ pat kd m, (pat, kd) ∈ PATTERNS ∧ den pat None line "" ∅ m
              ∧ f = Dict kd (groupdict pat m).
Proof.
  intros (pat & kd & m & ? & ?%fullmatch_sound & ?)%parse_line_in_Ok.
  eauto 10.
Qed.

Lemma parsed_label line f :
  parse_line line = Ok f → ∃ l, getitem f "label" = Ok l.
Proof.
  intros (pat & kd & m & Hin & D & ->)%parse_pattern. unfold PATTERNS in Hin.
  pattern_cases Hin; has_key.
Qed.

Lemma parsed_comment line f :
  parse_line line = Ok f → ∃ c, getitem f "comment" = Ok c.
Proof.
  intros (pat & kd & m & Hin & D & ->)%parse_pattern. unfold PATTERNS in Hin.
  pattern_cases Hin; has_key.
Qed.

Lemma parsed_predicate line f :
  parse_line line = Ok f → kind f ≠ COMMENT → kind f ≠ DATA →
  ∃ p, getitem f "predicate" = Ok p.
Proof.
  intros (pat & kd & m & Hin & D & ->)%parse_pattern ??. unfold PATTERNS in Hin.
  pattern_cases Hin; cbn [kind] in *; simplify_eq; has_key.
Qed.

Lemma parsed_opcode line f :
  parse_line line = Ok f → kind f ≠ COMMENT →
  ∃ op, getitem f "opcode" = Ok (Some op).
Proof.
  intros (pat & kd & m & Hin & D & ->)%parse_pattern ?. unfold PATTERNS in Hin.
  pattern_cases Hin; cbn [kind] in *; simplify_eq; has_group D "opcode".
Qed.

Lemma parsed_labelref line f :
  parse_line line = Ok f → kind f = MEMOP ∨ kind f = JUMP →
  ∃ ref, getitem f "labelref" = Ok (Some ref).
Proof.
  intros (pat & kd & m & Hin & D & ->)%parse_pattern [?|?]; unfold PATTERNS in Hin;
  pattern_cases Hin; cbn [kind] in *; simplify_eq; has_group D "labelref".
Qed.

Lemma parsed_target line f :
  parse_line line = Ok f → kind f = MEMOP →
  ∃ tgt, getitem f "target" = Ok (Some tgt).
Proof.
  intros (pat & kd & m & Hin & D & ->)%parse_pattern ?; unfold PATTERNS in Hin;
  pattern_cases Hin; cbn [kind] in *; simplify_eq; has_group D "target".
Qed.

(** [rewrite_line], kind by kind. *)
Lemma rewrite_line_syntax labels line e s :
  parse_line line = Raise e → rewrite_line labels line s = (Raise e, s).
Proof. intros H. unfold rewrite_line, bind, lift. by rewrite H. Qed.

Lemma rewrite_line_pass labels line f s :
  parse_line line = Ok f → kind f = FULL ∨ kind f = DATA →
  rewrite_line labels line s = (Ok tt, emitted s line true).
Proof.
  intros H Hk. unfold rewrite_line, bind, lift. rewrite H.
  by destruct Hk as [-> | ->].
Qed.

Lemma rewrite_line_comment labels line f s :
  parse_line line = Ok f → kind f = COMMENT →
  rewrite_line labels line s = (Ok tt, emitted s line false).
Proof.
  intros H Hk. unfold rewrite_line, bind, lift. rewrite H. by rewrite Hk.
Qed.

Lemma rewrite_line_memop line f :
  parse_line line = Ok f → kind f = MEMOP →
  ∃ op ref, field f "opcode" = Some op ∧ field f "labelref" = Some ref ∧
    ∀ labels s,
      rewrite_line labels line s =
      match labels !! ref with
      | Some a => (Ok tt, emitted s (memop_text f op (a - address s)) true)
      | None => (Raise (KeyError (Some ref)), s)
      end.
Proof.
  intros H Hk.
  destruct (parsed_label _ _ H) as [l Hl].
  destruct (parsed_comment _ _ H) as [c Hc].
  destruct (parsed_predicate _ _ H) as [p Hp]; [by rewrite Hk..|].
  destruct (parsed_opcode _ _ H) as [op Hop]; [by rewrite Hk|].
  destruct (parsed_target _ _ H) as [tgt Ht]; [done|].
  destruct (parsed_labelref _ _ H) as [ref Hr]; [by left|].
  exists op, ref.
  split; [by apply getitem_field|]. split; [by apply getitem_field|].
  intros labels s. unfold rewrite_line, bind at 1, lift at 1. rewrite H, Hk.
  unfold bind, lift. rewrite Hr. cbn [lookup_label].
  destruct (labels !! ref) as [a|]; [|done].
  unfold get.
  destruct (fix_optional_fields_ok f s l p c Hl Hp Hc)
    as (f' & -> & _ & -> & H1 & H2 & H3).
  rewrite H1, H2, !H3, Hop, Ht by done.
  unfold memop_text.
  rewrite (getitem_field _ _ _ Hl), (getitem_field _ _ _ Hp),
    (getitem_field _ _ _ Hc), (getitem_field _ _ _ Ht),
    (getitem_field _ _ _ Hr).
  reflexivity.
Qed.

Lemma rewrite_line_jump line f :
  parse_line line = Ok f → kind f = JUMP →
  ∃ ref, field f "labelref" = Some ref ∧
    ∀ labels s,
      rewrite_line labels line s =
      match labels !! ref with
      | Some a => (Ok tt, emitted s (jump_text f (a - address s)) true)
      | None => (Raise (KeyError (Some ref)), s)
      end.
Proof.
  intros H Hk.
  destruct (parsed_label _ _ H) as [l Hl].
  destruct (parsed_comment _ _ H) as [c Hc].
  destruct (parsed_predicate _ _ H) as [p Hp]; [by rewrite Hk..|].
  destruct (parsed_labelref _ _ H) as [ref Hr]; [by right|].
  exists ref. split; [by apply getitem_field|].
  intros labels s. unfold rewrite_line, bind at 1, lift at 1. rewrite H, Hk.
  unfold bind, lift. rewrite Hr. cbn [lookup_label].
  destruct (labels !! ref) as [a|]; [|done].
  unfold get.
  destruct (fix_optional_fields_ok f s l p c Hl Hp Hc)
    as (f' & -> & _ & -> & H1 & H2 & H3).
  rewrite H1, H2.
  unfold jump_text.
  rewrite (getitem_field _ _ _ Hl), (getitem_field _ _ _ Hp),
    (getitem_field _ _ _ Hc), (getitem_field _ _ _ Hr).
  reflexivity.
Qed.

End P1.

(** ** [fadfa.py]: the same lemmas, with the suffix [_fa] *)

Module FA.
Import Str Re Asm StrFacts ReFacts AsmFacts Fadfa.

Lemma parse_pattern_fa line f :
  parse_line line = Ok f →
  ∃ pat kd m, (pat, kd) ∈ PATTERNS ∧ den pat None line "" ∅ m
              ∧ f = Dict kd (groupdict pat m).
Proof.
  intros (pat & kd & m & ? & ?%fullmatch_sound & ?)%parse_line_in_Ok.
  eauto 10.
Qed.

Lemma parsed_label_fa line f :
  parse_line line = Ok f → ∃ l, getitem f "label" = Ok l.
Proof.
  intros (pat & kd & m & Hin & D & ->)%parse_pattern_fa. unfold PATTERNS in Hin.
  pattern_cases Hin; has_key.
Qed.

Lemma parsed_comment_fa line f :
  parse_line line = Ok f → ∃ c, getitem f "comment" = Ok c.
Proof.
  intros (pat & kd & m & Hin & D & ->)%parse_pattern_fa. unfold PATTERNS in Hin.
  pattern_cases Hin; has_key.
Qed.

Lemma parsed_predicate_fa line f :
  parse_line line = Ok f → kind f ≠ COMMENT →
  ∃ p, getitem f "predicate" = Ok p.
Proof.
  intros (pat & kd & m & Hin & D & ->)%parse_pattern_fa ?. unfold PATTERNS in Hin.
  pattern_cases Hin; cbn [kind] in *; simplify_eq; has_key.
Qed.

Lemma parsed_opcode_fa line f :
  parse_line line = Ok f → kind f ≠ COMMENT →
  ∃ op, getitem f "opcode" = Ok (Some op).
Proof.
  intros (pat & kd & m & Hin & D & ->)%parse_pattern_fa ?. unfold PATTERNS in Hin.
  pattern_cases Hin; cbn [kind] in *; simplify_eq; has_group D "opcode".
Qed.

Lemma parsed_labelref_fa line f :
  parse_line line = Ok f → kind f = MEMOP ∨ kind f = JUMP →
  ∃ ref, getitem f "labelref" = Ok (Some ref).
Proof.
  intros (pat & kd & m & Hin & D & ->)%parse_pattern_fa [?|?]; unfold PATTERNS in Hin;
  pattern_cases Hin; cbn [kind] in *; simplify_eq; has_group D "labelref".
Qed.

Lemma parsed_target_fa line f :
  parse_line line = Ok f → kind f = MEMOP ∨ kind f = FULL →
  ∃ tgt, getitem f "target" = Ok (Some tgt).
Proof.
  intros (pat & kd & m & Hin & D & ->)%parse_pattern_fa [?|?]; unfold PATTERNS in Hin;
  pattern_cases Hin; cbn [kind] in *; simplify_eq; has_group D "target".
Qed.

Lemma parsed_sources line f :
  parse_line line = Ok f → kind f = FULL →
  ∃ s1 s2 off, getitem f "src1" = Ok (Some s1)
    ∧ getitem f "src2" = Ok (Some s2) ∧ getitem f "offset" = Ok off.
Proof.
  intros (pat & kd & m & Hin & D & ->)%parse_pattern_fa ?; unfold PATTERNS in Hin;
  pattern_cases Hin; cbn [kind] in *; simplify_eq.
  destruct (den_always_set "src1" _ _ _ _ _ _ D) as [s1 E1]; [in_list|].
  destruct (den_always_set "src2" _ _ _ _ _ _ D) as [s2 E2]; [in_list|].
  exists s1, s2, (m !! "offset").
  rewrite !getitem_groupdict by reflexivity. by rewrite E1, E2.
Qed.

Lemma parsed_value line f :
  parse_line line = Ok f → kind f = DATA → ∃ v, getitem f "value" = Ok v.
Proof.
  intros (pat & kd & m & Hin & D & ->)%parse_pattern_fa ?; unfold PATTERNS in Hin;
  pattern_cases Hin; cbn [kind] in *; simplify_eq; has_key.
Qed.

(** [rewrite_line], kind by kind. *)
Lemma rewrite_line_syntax_fa lables line e s :
  parse_line line = Raise e → rewrite_line lables line s = (Raise e, s).
Proof. intros H. unfold rewrite_line, bind, lift. by rewrite H. Qed.

Lemma rewrite_line_comment_fa lables line f s :
  parse_line line = Ok f → kind f = COMMENT →
  rewrite_line lables line s = (Ok tt, emitted s line false).
Proof.
  intros H Hk. unfold rewrite_line, bind, lift. rewrite H. by rewrite Hk.
Qed.

Ltac start H Hk :=
  unfold rewrite_line, bind at 1, lift at 1; rewrite H;
  unfold bind at 1; rewrite Hk;
  rewrite decide_False by done;
  unfold bind at 1, lift at 1.

Lemma rewrite_line_full line f :
  parse_line line = Ok f → kind f = FULL →
  ∃ op, field f "opcode" = Some op ∧
    ∀ lables s,
      rewrite_line lables line s =
      (Ok tt, emitted s (full_text f (upper op)) true).
Proof.
  intros H Hk.
  destruct (parsed_label_fa _ _ H) as [l Hl].
  destruct (parsed_comment_fa _ _ H) as [c Hc].
  destruct (parsed_predicate_fa _ _ H) as [p Hp]; [by rewrite Hk..|].
  destruct (parsed_opcode_fa _ _ H) as [op Hop]; [by rewrite Hk|].
  destruct (parsed_target_fa _ _ H) as [tgt Ht]; [by right|].
  destruct (parsed_sources _ _ H Hk) as (s1 & s2 & off & Hs1 & Hs2 & Hoff).
  exists op. split; [by apply getitem_field|].
  intros lables s. start H Hk. rewrite Hop.
  unfold bind, lift, upper_of, ret.
  set (g := setitem f "opcode" (Some (upper op))).
  destruct (fix_optional_fields_ok g s l p c)
    as (f' & -> & _ & H1 & H2 & H3 & H4);
    [by unfold g; rewrite getitem_setitem_ne..|].
  rewrite H1, H2, H3, !H4 by done. unfold g.
  rewrite getitem_setitem_eq, !getitem_setitem_ne, Ht, Hs1, Hs2, Hoff by done.
  unfold full_text.
  rewrite (getitem_field _ _ _ Hl), (getitem_field _ _ _ Hp),
    (getitem_field _ _ _ Hc), (getitem_field _ _ _ Ht),
    (getitem_field _ _ _ Hs1), (getitem_field _ _ _ Hs2),
    (getitem_field _ _ _ Hoff).
  destruct off as [o|]; [|reflexivity].
  unfold append, modify, next_address, emitted, offset_text, show.
  cbn [error_count address transformed stdout stderr].
  rewrite decide_False by done.
  cbn [error_count address transformed stdout stderr].
  do 4 f_equal. rewrite !string_app_assoc. reflexivity.
Qed.

Lemma rewrite_line_data line f :
  parse_line line = Ok f → kind f = DATA →
  ∃ op, field f "opcode" = Some op ∧
    ∀ lables s,
      rewrite_line lables line s =
      (Ok tt, emitted s (data_text f (upper op)) true).
Proof.
  intros H Hk.
  destruct (parsed_label_fa _ _ H) as [l Hl].
  destruct (parsed_comment_fa _ _ H) as [c Hc].
  destruct (parsed_predicate_fa _ _ H) as [p Hp]; [by rewrite Hk..|].
  destruct (parsed_opcode_fa _ _ H) as [op Hop]; [by rewrite Hk|].
  destruct (parsed_value _ _ H Hk) as (v & Hv).
  exists op. split; [by apply getitem_field|].
  intros lables s. start H Hk. rewrite Hop.
  unfold bind, lift, upper_of, ret.
  set (g := setitem f "opcode" (Some (upper op))).
  destruct (fix_optional_fields_ok g s l p c)
    as (f' & -> & _ & H1 & H2 & H3 & H4);
    [by unfold g; rewrite getitem_setitem_ne..|].
  rewrite H1, H3, !H4 by done. unfold g.
  rewrite getitem_setitem_eq, !getitem_setitem_ne, Hv by done.
  unfold data_text.
  rewrite (getitem_field _ _ _ Hl), (getitem_field _ _ _ Hc),
    (getitem_field _ _ _ Hv).
  reflexivity.
Qed.

Lemma rewrite_line_memop_fa line f :
  parse_line line = Ok f → kind f = MEMOP →
  ∃ op ref, field f "opcode" = Some op ∧ field f "labelref" = Some ref ∧
    ∀ lables s,
      rewrite_line lables line s =
      match lables !! ref with
      | Some a =>
          (Ok tt, emitted s (memop_text f (upper op) (a - address s)) true)
      | None => (Raise (KeyError (Some ref)), s)
      end.
Proof.
  intros H Hk.
  destruct (parsed_label_fa _ _ H) as [l Hl].
  destruct (parsed_comment_fa _ _ H) as [c Hc].
  destruct (parsed_predicate_fa _ _ H) as [p Hp]; [by rewrite Hk..|].
  destruct (parsed_opcode_fa _ _ H) as [op Hop]; [by rewrite Hk|].
  destruct (parsed_target_fa _ _ H) as [tgt Ht]; [by left|].
  destruct (parsed_labelref_fa _ _ H) as [ref Hr]; [by left|].
  exists op, ref.
  split; [by apply getitem_field|]. split; [by apply getitem_field|].
  intros lables s. start H Hk. rewrite Hop.
  unfold bind, lift, upper_of, ret. rewrite Hr. cbn [lookup_label].
  destruct (lables !! ref) as [a|]; [|done].
  unfold get.
  set (g := setitem f "opcode" (Some (upper op))).
  destruct (fix_optional_fields_ok g s l p c)
    as (f' & -> & _ & H1 & H2 & H3 & H4);
    [by unfold g; rewrite getitem_setitem_ne..|].
  rewrite H1, H2, H3, !H4 by done. unfold g.
  rewrite getitem_setitem_eq, !getitem_setitem_ne, Ht, Hr by done.
  unfold memop_text.
  rewrite (getitem_field _ _ _ Hl), (getitem_field _ _ _ Hp),
    (getitem_field _ _ _ Hc), (getitem_field _ _ _ Ht),
    (getitem_field _ _ _ Hr).
  reflexivity.
Qed.

Lemma rewrite_line_jump_fa line f :
  parse_line line = Ok f → kind f = JUMP →
  ∃ ref, field f "labelref" = Some ref ∧
    ∀ lables s,
      rewrite_line lables line s =
      match lables !! ref with
      | Some a => (Ok tt, emitted s (jump_text f (a - address s)) true)
      | None => (Raise (KeyError (Some ref)), s)
      end.
Proof.
  intros H Hk.
  destruct (parsed_label_fa _ _ H) as [l Hl].
  destruct (parsed_comment_fa _ _ H) as [c Hc].
  destruct (parsed_predicate_fa _ _ H) as [p Hp]; [by rewrite Hk..|].
  destruct (parsed_opcode_fa _ _ H) as [op Hop]; [by rewrite Hk|].
  destruct (parsed_labelref_fa _ _ H) as [ref Hr]; [by right|].
  exists ref. split; [by apply getitem_field|].
  intros lables s. start H Hk. rewrite Hop.
  unfold bind, lift, upper_of, ret. rewrite Hr. cbn [lookup_label].
  destruct (lables !! ref) as [a|]; [|done].
  unfold get.
  set (g := setitem (setitem f "opcode" (Some (upper op))) "opcode" (Some "ADD")).
  destruct (fix_optional_fields_ok g s l p c)
    as (f' & -> & _ & H1 & H2 & H3 & H4);
    [by unfold g; rewrite !getitem_setitem_ne..|].
  rewrite H1, H2, H3, !H4 by done. unfold g.
  rewrite getitem_setitem_eq, !getitem_setitem_ne, Hr by done.
  unfold jump_text.
  rewrite (getitem_field _ _ _ Hl), (getitem_field _ _ _ Hp),
    (getitem_field _ _ _ Hc), (getitem_field _ _ _ Hr).
  reflexivity.
Qed.

End FA.

(** ** One turn of the loop of [transform] in [assembler_phase1.py] *)

Module P1Step.
Import Str Re Asm StrFacts ReFacts AsmFacts Phase1 P1.

Lemma parse_line_Raise line e :
  parse_line line = Raise e →
  e = SyntaxError ("Assembler syntax error in " +:+ line).
Proof. by intros [? _]%parse_line_in_Raise. Qed.

Lemma check_limit_spec s :
  check_limit s =
  if (5 <? error_count s)%nat
  then (Raise (SystemExit 1), abandoned_err s)
  else (Ok tt, s).
Proof.
  unfold check_limit, bind, get, ERROR_LIMIT.
  by destruct (5 <? error_count s)%nat.
Qed.

Lemma try_fail labels lnum raw s :
  fails parse_line labels raw = true →
  try_except (rewrite_line labels (rstrip raw)) (report lnum (rstrip raw)) s
  = (Ok tt, failed_err s (diagnostic parse_line lnum raw)).
Proof.
  unfold fails, diagnostic.
  destruct (parse_line (rstrip raw)) as [f|e] eqn:Hp.
  - unfold unbound, refers. intros Hu.
    destruct (kind f) eqn:Hk; try done.
    + destruct (rewrite_line_memop _ _ Hp Hk) as (op & ref & _ & Hr & Hrw).
      rewrite Hr in *. apply bool_decide_eq_true in Hu.
      unfold try_except. rewrite Hrw, Hu. cbn [report].
      by unfold bind, count_error, print_stderr, modify.
    + destruct (rewrite_line_jump _ _ Hp Hk) as (ref & Hr & Hrw).
      rewrite Hr in *. apply bool_decide_eq_true in Hu.
      unfold try_except. rewrite Hrw, Hu. cbn [report].
      by unfold bind, count_error, print_stderr, modify.
  - intros _. pose proof (parse_line_Raise _ _ Hp) as ->.
    unfold try_except.
    rewrite (rewrite_line_syntax _ _ _ _ Hp). cbn [report].
    by unfold bind, count_error, print_stderr, modify.
Qed.

(** A failing line: one more error, one diagnostic, and the end of the run
    when it is the sixth. *)
Lemma step_fail labels lnum raw s :
  fails parse_line labels raw = true →
  transform_line labels lnum raw s =
  if (5 <? S (error_count s))%nat
  then (Raise (SystemExit 1),
        abandoned_err (failed_err s (diagnostic parse_line lnum raw)))
  else (Ok tt, failed_err s (diagnostic parse_line lnum raw)).
Proof.
  intros Hf. unfold transform_line, bind.
  by rewrite (try_fail _ _ _ _ Hf), check_limit_spec.
Qed.

Lemma rewrite_ok labels raw :
  fails parse_line labels raw = false →
  ∃ f, parse_line (rstrip raw) = Ok f ∧
    ∀ s, ∃ text,
      rewrite_line labels (rstrip raw) s = (Ok tt, emitted s text (occupies f)).
Proof.
  unfold fails.
  destruct (parse_line (rstrip raw)) as [f|e] eqn:Hp; [|done].
  unfold unbound, refers, occupies. intros Hu. exists f. split; [done|].
  intros s. destruct (kind f) eqn:Hk.
  - eexists. by apply (rewrite_line_comment _ _ _ _ Hp).
  - eexists. apply (rewrite_line_pass _ _ _ _ Hp); auto.
  - eexists. apply (rewrite_line_pass _ _ _ _ Hp); auto.
  - destruct (rewrite_line_memop _ _ Hp Hk) as (op & ref & _ & Hr & Hrw).
    rewrite Hr in *. apply bool_decide_eq_false in Hu.
    rewrite Hrw. destruct (labels !! ref); [|done]. eauto.
  - destruct (rewrite_line_jump _ _ Hp Hk) as (ref & Hr & Hrw).
    rewrite Hr in *. apply bool_decide_eq_false in Hu.
    rewrite Hrw. destruct (labels !! ref); [|done]. eauto.
Qed.

(** Any other line is emitted. *)
Lemma step_ok labels lnum raw s :
  fails parse_line labels raw = false → (error_count s ≤ 5)%nat →
  ∃ f text,
    parse_line (rstrip raw) = Ok f
    ∧ rewrite_line labels (rstrip raw) s = (Ok tt, emitted s text (occupies f))
    ∧ transform_line labels lnum raw s = (Ok tt, emitted s text (occupies f)).
Proof.
  intros (f & Hp & Hrw)%rewrite_ok Hle. destruct (Hrw s) as [text Ht].
  exists f, text. repeat split; [done..|].
  unfold transform_line, bind, try_except. rewrite Ht, check_limit_spec.
  cbn [emitted error_count].
  destruct (Nat.ltb_spec 5 (error_count s)); [lia|done].
Qed.

End P1Step.

(** ** One turn of the loop of [transform] in [fadfa.py] *)

Module FAStep.
Import Str Re Asm StrFacts ReFacts AsmFacts Fadfa FA.

Lemma parse_line_Raise_fa line e :
  parse_line line = Raise e →
  e = SyntaxError ("Assembler syntax error in " +:+ line).
Proof. by intros [? _]%parse_line_in_Raise. Qed.

Lemma check_limit_spec_fa s :
  check_limit s =
  if (5 <? error_count s)%nat
  then (Raise (SystemExit 1), abandoned_out s)
  else (Ok tt, s).
Proof.
  unfold check_limit, bind, get, ERROR_LIMIT.
  by destruct (5 <? error_count s)%nat.
Qed.

Lemma try_fail_fa lables lnum raw s :
  fails parse_line lables raw = true →
  try_except (rewrite_line lables (rstrip raw)) (report lnum (rstrip raw)) s
  = (Ok tt, failed_out s (diagnostic parse_line lnum raw)).
Proof.
  unfold fails, diagnostic.
  destruct (parse_line (rstrip raw)) as [f|e] eqn:Hp.
  - unfold unbound, refers. intros Hu.
    destruct (kind f) eqn:Hk; try done.
    + destruct (rewrite_line_memop_fa _ _ Hp Hk) as (op & ref & _ & Hr & Hrw).
      rewrite Hr in *. apply bool_decide_eq_true in Hu.
      unfold try_except. rewrite Hrw, Hu. cbn [report].
      by unfold bind, count_error, print_stdout, modify.
    + destruct (rewrite_line_jump_fa _ _ Hp Hk) as (ref & Hr & Hrw).
      rewrite Hr in *. apply bool_decide_eq_true in Hu.
      unfold try_except. rewrite Hrw, Hu. cbn [report].
      by unfold bind, count_error, print_stdout, modify.
  - intros _. pose proof (parse_line_Raise_fa _ _ Hp) as ->.
    unfold try_except.
    rewrite (rewrite_line_syntax_fa _ _ _ _ Hp). cbn [report].
    by unfold bind, count_error, print_stdout, modify.
Qed.

(** A failing line: one more error, one diagnostic, and the end of the run
    when it is the sixth. *)
Lemma step_fail_fa lables lnum raw s :
  fails parse_line lables raw = true →
  transform_line lables lnum raw s =
  if (5 <? S (error_count s))%nat
  then (Raise (SystemExit 1),
        abandoned_out (failed_out s (diagnostic parse_line lnum raw)))
  else (Ok tt, failed_out s (diagnostic parse_line lnum raw)).
Proof.
  intros Hf. unfold transform_line, bind.
  by rewrite (try_fail_fa _ _ _ _ Hf), check_limit_spec_fa.
Qed.

Lemma rewrite_ok_fa lables raw :
  fails parse_line lables raw = false →
  ∃ f, parse_line (rstrip raw) = Ok f ∧
    ∀ s, ∃ text,
      rewrite_line lables (rstrip raw) s = (Ok tt, emitted s text (occupies f)).
Proof.
  unfold fails.
  destruct (parse_line (rstrip raw)) as [f|e] eqn:Hp; [|done].
  unfold unbound, refers, occupies. intros Hu. exists f. split; [done|].
  intros s. destruct (kind f) eqn:Hk.
  - eexists. by apply (rewrite_line_comment_fa _ _ _ _ Hp).
  - destruct (rewrite_line_full _ _ Hp Hk) as (op & _ & Hrw). eauto.
  - destruct (rewrite_line_data _ _ Hp Hk) as (op & _ & Hrw). eauto.
  - destruct (rewrite_line_memop_fa _ _ Hp Hk) as (op & ref & _ & Hr & Hrw).
    rewrite Hr in *. apply bool_decide_eq_false in Hu.
    rewrite Hrw. destruct (lables !! ref); [|done]. eauto.
  - destruct (rewrite_line_jump_fa _ _ Hp Hk) as (ref & Hr & Hrw).
    rewrite Hr in *. apply bool_decide_eq_false in Hu.
    rewrite Hrw. destruct (lables !! ref); [|done]. eauto.
Qed.

(** Any other line is emitted. *)
Lemma step_ok_fa lables lnum raw s :
  fails parse_line lables raw = false → (error_count s ≤ 5)%nat →
  ∃ f text,
    parse_line (rstrip raw) = Ok f
    ∧ rewrite_line lables (rstrip raw) s = (Ok tt, emitted s text (occupies f))
    ∧ transform_line lables lnum raw s = (Ok tt, emitted s text (occupies f)).
Proof.
  intros (f & Hp & Hrw)%rewrite_ok_fa Hle. destruct (Hrw s) as [text Ht].
  exists f, text. repeat split; [done..|].
  unfold transform_line, bind, try_except. rewrite Ht, check_limit_spec_fa.
  cbn [emitted error_count].
  destruct (Nat.ltb_spec 5 (error_count s)); [lia|done].
Qed.

End FAStep.

(** ** The first pass, for any [parse_line] that returns the key [label] *)

Module ResolveFacts.
Import Str Re Asm StrFacts AsmFacts.

Section Builder.

Variable parse_line : string → result dict.
Hypothesis has_label :
  ∀ line f, parse_line line = Ok f → ∃ l, getitem f "label" = Ok l.
Hypothesis raises_Exception :
  ∀ line e, parse_line line = Raise e → is_Exception e = true.

(** One line of the first pass never raises. *)
Lemma resolve_line_spec lnum raw r :
  resolve_line parse_line lnum raw r = (Ok tt, bound parse_line r raw).
Proof.
  unfold resolve_line, bound, defines, takes_address, try_except, bind, lift.
  destruct (parse_line (rstrip raw)) as [f|e] eqn:Hp.
  - destruct (has_label _ _ Hp) as [l Hl]. rewrite Hl.
    rewrite (getitem_field _ _ _ Hl).
    destruct r as [labels a].
    destruct l as [name|]; unfold modify, ret; cbn [r_labels r_address];
      destruct (decide (kind f = COMMENT)) as [E|E].
    + by rewrite bool_decide_eq_false_2 by auto.
    + by rewrite bool_decide_eq_true_2.
    + by rewrite bool_decide_eq_false_2 by auto.
    + by rewrite bool_decide_eq_true_2.
  - rewrite (raises_Exception _ _ Hp). by destruct r.
Qed.

(** The first pass from any state: the counter gains the number of lines
    that take an address, and the table the labels of the lines. *)
Lemma for_lines_resolve n lines r :
  ∃ labels,
    for_lines (resolve_line parse_line) n lines r
    = (Ok tt, RState labels (r_address r + addresses parse_line lines)%Z)
    ∧ ∀ name a,
        labels !! name = Some a ↔
        (∃ i raw,
           lines !! i = Some raw ∧ defines parse_line raw = Some name
           ∧ a = (r_address r + address_of parse_line lines i)%Z
           ∧ ∀ j raw', (i < j)%nat → lines !! j = Some raw' →
                       defines parse_line raw' ≠ Some name)
        ∨ (r_labels r !! name = Some a
           ∧ ∀ j raw', lines !! j = Some raw' →
                       defines parse_line raw' ≠ Some name).
Proof.
  revert n r. induction lines as [|raw lines IH]; intros n r.
  - exists (r_labels r). split.
    + simpl. unfold ret. destruct r; simpl. by rewrite Z.add_0_r.
    + intros name a. split.
      * intros H. right. split; [done|]. intros j raw'. by rewrite lookup_nil.
      * intros [(i & raw & H & _)|[H _]]; [by rewrite lookup_nil in H|done].
  - destruct (IH (S n) (bound parse_line r raw)) as (labels & Hrun & Hl).
    exists labels. split.
    + cbn [for_lines]. unfold bind. rewrite resolve_line_spec, Hrun.
      cbn [addresses bound r_address]. do 2 f_equal.
      destruct (takes_address parse_line raw); lia.
    + intros name a. rewrite Hl. clear Hl Hrun IH.
      unfold address_of. cbn [bound r_labels r_address]. split.
      * intros [(i & raw' & Hi & Hd & -> & Hlater)|[Hb Hnone]].
        -- left. exists (S i), raw'. repeat split; [done..| |].
           ++ cbn [take firstn addresses]. destruct (takes_address _ raw); lia.
           ++ intros [|j] raw'' ? Hj; [lia|]. apply (Hlater j); [lia|done].
        -- destruct (defines parse_line raw) as [name'|] eqn:Hd.
           ++ destruct (decide (name' = name)) as [->|Hne].
              ** rewrite lookup_insert_eq in Hb. injection Hb as <-.
                 left. exists 0%nat, raw. repeat split; [done..| |].
                 --- cbn. lia.
                 --- intros [|j] raw'' ? Hj; [lia|]. by apply (Hnone j).
              ** rewrite lookup_insert_ne in Hb by done.
                 right. split; [done|].
                 intros [|j] raw'' Hj; [|by apply (Hnone j)].
                 injection Hj as <-. rewrite Hd. congruence.
           ++ right. split; [done|].
              intros [|j] raw'' Hj; [|by apply (Hnone j)].
              injection Hj as <-. by rewrite Hd.
      * intros [(i & raw' & Hi & Hd & -> & Hlater)|[Hb Hnone]].
        -- destruct i as [|i].
           ++ injection Hi as <-. right. rewrite Hd, lookup_insert_eq.
              split; [f_equal; cbn; lia|].
              intros j raw'' Hj. apply (Hlater (S j)); [lia|done].
           ++ left. exists i, raw'. repeat split; [done..| |].
              ** cbn [take firstn addresses]. destruct (takes_address _ raw); lia.
              ** intros j raw'' ? Hj. apply (Hlater (S j)); [lia|done].
        -- right. split.
           ++ pose proof (Hnone 0%nat raw eq_refl) as Hd.
              destruct (defines parse_line raw) as [name'|]; [|done].
              rewrite lookup_insert_ne; [done|congruence].
           ++ intros j raw'' Hj. by apply (Hnone (S j)).
Qed.

(** [resolve] from the empty table. *)
Lemma resolve_binds lines :
  ∃ labels,
    resolve parse_line lines = Ok labels
    ∧ for_lines (resolve_line parse_line) 0 lines (RState ∅ 0)
      = (Ok tt, RState labels (address_of parse_line lines (length lines)))
    ∧ binds parse_line lines labels.
Proof.
  destruct (for_lines_resolve 0 lines (RState ∅ 0)) as (labels & Hrun & Hl).
  exists labels. unfold resolve. rewrite Hrun. split; [done|]. split.
  - unfold address_of. by rewrite firstn_all, Z.add_0_l.
  - intros name a. rewrite Hl. cbn [r_labels r_address]. split.
    + intros [(i & raw & ? & ? & -> & ?)|[H _]]; [|by rewrite lookup_empty in H].
      exists i, raw. by rewrite Z.add_0_l.
    + intros (i & raw & ? & ? & -> & ?). left. exists i, raw.
      by rewrite Z.add_0_l.
Qed.

(** Lines that take no address do not move the address. *)
Lemma address_of_skip lines i j :
  (i ≤ j)%nat →
  (∀ k raw, (i ≤ k < j)%nat → lines !! k = Some raw →
            takes_address parse_line raw = false) →
  address_of parse_line lines j = address_of parse_line lines i.
Proof.
  unfold address_of. revert i j. induction lines as [|raw lines IH]; intros i j Hij Hno.
  - by rewrite !take_nil.
  - destruct j as [|j]; [by replace i with 0%nat by lia|].
    destruct i as [|i].
    + cbn [take firstn addresses]. rewrite (Hno 0%nat raw) by (done || lia).
      rewrite (IH 0%nat j); [done|lia|].
      intros k raw' ? Hk. apply (Hno (S k)); [lia|done].
    + cbn [take firstn addresses]. rewrite (IH i j); [done|lia|].
      intros k raw' ? Hk. apply (Hno (S k)); [lia|done].
Qed.

End Builder.
End ResolveFacts.

(** ** The second pass, for any loop body that steps like the two programs *)

Module LoopFacts.
Import Str Re Asm AsmFacts.

Section Rewriter.

Variable parse_line : string → result dict.
Variable rewrite_line : gmap string Z → string → M tstate unit.
Variable transform_line : gmap string Z → nat → string → M tstate unit.
Variables (failed : tstate → string → tstate) (abandoned : tstate → tstate).
Variables (stream other : tstate → list string).

Hypothesis step_fail :
  ∀ labels lnum raw s,
    fails parse_line labels raw = true →
    transform_line labels lnum raw s =
    if (5 <? S (error_count s))%nat
    then (Raise (SystemExit 1),
          abandoned (failed s (diagnostic parse_line lnum raw)))
    else (Ok tt, failed s (diagnostic parse_line lnum raw)).

Hypothesis step_ok :
  ∀ labels lnum raw s,
    fails parse_line labels raw = false → (error_count s ≤ 5)%nat →
    ∃ f text,
      parse_line (rstrip raw) = Ok f
      ∧ rewrite_line labels (rstrip raw) s
        = (Ok tt, emitted s text (occupies f))
      ∧ transform_line labels lnum raw s
        = (Ok tt, emitted s text (occupies f)).

Hypothesis failed_count : ∀ s d, error_count (failed s d) = S (error_count s).
Hypothesis failed_address : ∀ s d, address (failed s d) = address s.
Hypothesis failed_transformed : ∀ s d, transformed (failed s d) = transformed s.
Hypothesis failed_stream : ∀ s d, stream (failed s d) = (stream s ++ [d])%list.
Hypothesis emitted_stream : ∀ s t o, stream (emitted s t o) = stream s.
Hypothesis failed_other : ∀ s d, other (failed s d) = other s.
Hypothesis emitted_other : ∀ s t o, other (emitted s t o) = other s.

Lemma loop_cons labels n raw lines s :
  loop transform_line labels n (raw :: lines) s =
  match transform_line labels n raw s with
  | (Ok _, s') => loop transform_line labels (S n) lines s'
  | (Raise e, s') => (Raise e, s')
  end.
Proof. unfold loop; cbn [for_lines]. unfold bind. by destruct (transform_line _ _ _ _) as [[]]. Qed.

(** A run without failing lines. *)
Lemma loop_all_ok labels lines : ∀ n s,
  Forall (λ raw, fails parse_line labels raw = false) lines →
  (error_count s ≤ 5)%nat →
  ∃ out,
    loop transform_line labels n lines s =
    (Ok tt, TState (error_count s) (address s + addresses parse_line lines)
                   (transformed s ++ out) (stdout s) (stderr s))
    ∧ length out = length lines
    ∧ ∀ i raw, lines !! i = Some raw →
        ∃ f s0 text,
          out !! i = Some text
          ∧ address s0 = (address s + address_of parse_line lines i)%Z
          ∧ parse_line (rstrip raw) = Ok f
          ∧ rewrite_line labels (rstrip raw) s0
            = (Ok tt, emitted s0 text (occupies f)).
Proof.
  induction lines as [|raw lines IH]; intros n s Hall Hle.
  - exists []. split; [|split; [done|by intros i raw; rewrite lookup_nil]].
    unfold loop; simpl. unfold ret. destruct s; simpl.
    by rewrite Z.add_0_r, app_nil_r.
  - apply Forall_cons in Hall as [Hraw Hall].
    destruct (step_ok labels n raw s Hraw Hle) as (f & text & Hp & Hrw & Hstep).
    destruct (IH (S n) (emitted s text (occupies f)) Hall Hle)
      as (out & Hrun & Hlen & Hout).
    exists (text :: out). split; [|split].
    + rewrite loop_cons, Hstep, Hrun. cbn [emitted error_count address
        transformed stdout stderr addresses]. unfold takes_address.
      rewrite Hp. fold (occupies f). rewrite <- app_assoc.
      do 2 f_equal. destruct (occupies f); lia.
    + simpl; by rewrite Hlen.
    + intros [|i] raw' Hi.
      * injection Hi as <-. exists f, s, text. repeat split; [|done..].
        unfold address_of; simpl; lia.
      * destruct (Hout i raw' Hi) as (f' & s0 & text' & ? & Ha & ? & ?).
        exists f', s0, text'. repeat split; [done| |done..].
        rewrite Ha. unfold address_of. cbn [emitted address take firstn addresses].
        unfold takes_address. rewrite Hp. fold (occupies f).
        destruct (occupies f); lia.
Qed.

(** A run in general: it goes on while at most five lines have failed. *)
Lemma loop_spec labels lines : ∀ n s,
  (error_count s ≤ 5)%nat →
  ((error_count s + failures parse_line labels lines ≤ 5)%nat →
     ∃ s', loop transform_line labels n lines s = (Ok tt, s')
       ∧ error_count s' = (error_count s + failures parse_line labels lines)%nat
       ∧ (length (transformed s') + failures parse_line labels lines
          = length (transformed s) + length lines)%nat
       ∧ stream s' = (stream s ++ diagnostics parse_line labels n lines)%list
       ∧ other s' = other s)
  ∧ ((5 < error_count s + failures parse_line labels lines)%nat →
     ∃ pre raw post s1,
       lines = (pre ++ raw :: post)%list
       ∧ loop transform_line labels n pre s = (Ok tt, s1)
       ∧ error_count s1 = 5%nat
       ∧ fails parse_line labels raw = true
       ∧ loop transform_line labels n lines s =
         (Raise (SystemExit 1),
          abandoned
            (failed s1 (diagnostic parse_line (n + length pre) raw)))).
Proof.
  induction lines as [|raw lines IH]; intros n s Hle.
  - cbn [failures diagnostics]. split; [|lia].
    intros _. exists s. unfold loop; simpl. rewrite app_nil_r.
    repeat split; lia.
  - cbn [failures diagnostics]. rewrite loop_cons.
    destruct (fails parse_line labels raw) eqn:Hf.
    + rewrite (step_fail labels n raw s Hf).
      destruct (Nat.ltb_spec 5 (S (error_count s))) as [Hgt|Hsmall].
      * split; [lia|]. intros _.
        exists [], raw, lines, s. rewrite Nat.add_0_r.
        repeat split; [lia|done].
      * set (s1 := failed s (diagnostic parse_line n raw)).
        assert (Hle1 : (error_count s1 ≤ 5)%nat)
          by (unfold s1; rewrite failed_count; lia).
        destruct (IH (S n) s1 Hle1) as [IHok IHbad].
        unfold s1 in *. rewrite failed_count in *. split.
        -- intros Hk.
           destruct IHok as (s' & Hrun & He & Hlen & Hst & Hot); [lia|].
           exists s'. rewrite Hrun, He, Hst, Hot, failed_stream, failed_other.
           rewrite failed_transformed in Hlen.
           repeat split; [lia|simpl; lia|by rewrite <- app_assoc].
        -- intros Hk.
           destruct IHbad as (pre & raw' & post & s2 & -> & Hpre & ? & ? & Hrun);
             [lia|].
           exists (raw :: pre), raw', post, s2.
           rewrite loop_cons, (step_fail labels n raw s Hf).
           destruct (Nat.ltb_spec 5 (S (error_count s))); [lia|].
           rewrite Hrun. repeat split; [done..|].
           do 4 f_equal. simpl. lia.
    + destruct (step_ok labels n raw s Hf Hle) as (f & text & Hp & Hrw & Hstep).
      rewrite Hstep.
      destruct (IH (S n) (emitted s text (occupies f)) Hle) as [IHok IHbad].
      cbn [emitted error_count transformed] in *. split.
      * intros Hk.
        destruct IHok as (s' & Hrun & He & Hlen & Hst & Hot); [lia|].
        exists s'. rewrite Hrun, He, Hst, Hot, emitted_stream, emitted_other.
        rewrite length_app in Hlen. simpl in *.
        repeat split; lia.
      * intros Hk.
        destruct IHbad as (pre & raw' & post & s2 & -> & Hpre & ? & ? & Hrun);
          [lia|].
        exists (raw :: pre), raw', post, s2.
        rewrite loop_cons, Hstep, Hrun. repeat split; [done..|].
        do 4 f_equal. simpl. lia.
Qed.

Lemma failures_none labels lines :
  failures parse_line labels lines = 0%nat →
  Forall (λ raw, fails parse_line labels raw = false) lines.
Proof.
  induction lines as [|raw lines IH]; [constructor|]. cbn [failures].
  destruct (fails parse_line labels raw) eqn:E; [lia|].
  intros H. constructor; [done|]. apply IH. lia.
Qed.

Lemma failures_all_ok labels lines :
  Forall (λ raw, fails parse_line labels raw = false) lines →
  failures parse_line labels lines = 0%nat.
Proof.
  induction 1 as [|raw lines Hf _ IH]; [done|]. cbn [failures].
  by rewrite Hf, IH.
Qed.

(** The address counter of the second pass is behind the counter of the
    first pass by the number of lines that were left on an unbound label. *)
Lemma loop_counter labels lines : ∀ n s st,
  loop transform_line labels n lines s = (Ok tt, st) →
  (error_count s ≤ 5)%nat →
  address st = (address s + addresses parse_line lines
                - skipped parse_line labels lines)%Z.
Proof.
  induction lines as [|raw lines IH]; intros n s st Hrun Hle.
  - unfold loop in Hrun; simpl in Hrun. unfold ret in Hrun.
    injection Hrun as <-. simpl. lia.
  - rewrite loop_cons in Hrun. cbn [addresses skipped].
    destruct (fails parse_line labels raw) eqn:Hf.
    + rewrite (step_fail labels n raw s Hf) in Hrun.
      destruct (Nat.ltb_spec 5 (S (error_count s))) as [Hgt|Hsmall]; [done|].
      apply IH in Hrun; [|rewrite failed_count; lia].
      rewrite Hrun, failed_address. simpl.
      destruct (takes_address parse_line raw); lia.
    + destruct (step_ok labels n raw s Hf Hle) as (f & text & Hp & _ & Hstep).
      rewrite Hstep in Hrun. apply IH in Hrun; [|done].
      rewrite Hrun. cbn [emitted address andb]. unfold takes_address.
      rewrite Hp. fold (occupies f). destruct (occupies f); lia.
Qed.

(** While no error has been counted, the address counter is the one of
    the first pass. *)
Lemma loop_address labels n pre s st :
  loop transform_line labels n pre s = (Ok tt, st) → (error_count s ≤ 5)%nat →
  (error_count st ≤ 5)%nat
  ∧ (error_count st = error_count s →
     address st = (address s + addresses parse_line pre)%Z).
Proof.
  intros Hrun Hle.
  destruct (loop_spec labels pre n s Hle) as [Hok Hbad].
  destruct (decide (error_count s + failures parse_line labels pre ≤ 5)%nat)
    as [Hk|Hk].
  - destruct (Hok Hk) as (s' & Hrun' & He & _).
    rewrite Hrun in Hrun'. injection Hrun' as <-. split; [lia|].
    intros Heq. assert (H0 : failures parse_line labels pre = 0%nat) by lia.
    apply failures_none in H0.
    destruct (loop_all_ok labels pre n s H0 Hle) as (out & Hrun' & _).
    rewrite Hrun in Hrun'. by injection Hrun' as ->.
  - destruct Hbad as (? & ? & ? & ? & _ & _ & _ & _ & Hrun'); [lia|].
    rewrite Hrun in Hrun'. done.
Qed.

(** *** The whole program *)

Variable transform : list string → M tstate (list string).

Hypothesis has_label :
  ∀ line f, parse_line line = Ok f → ∃ l, getitem f "label" = Ok l.
Hypothesis raises_Exception :
  ∀ line e, parse_line line = Raise e → is_Exception e = true.
Hypothesis abandoned_stream :
  ∀ s, stream (abandoned s)
       = (stream s ++ ["Too many errors; abandoning"])%list.
Hypothesis abandoned_other : ∀ s, other (abandoned s) = other s.
Hypothesis initial_stream : stream initial = [].
Hypothesis initial_other : other initial = [].
Hypothesis transform_eq :
  ∀ lines,
    transform lines =
    (labels <- lift (resolve parse_line lines) ;;
     for_lines (transform_line labels) 0 lines ;;
     s <- get ;;
     ret (transformed s)).

(** The counter of the second pass before line [length pre] is the
    counter of the first pass there, while no error has been counted. *)
Lemma counters_agree labels pre st :
  for_lines (transform_line labels) 0 pre initial = (Ok tt, st) →
  (error_count st ≤ 5)%nat
  ∧ (error_count st = 0%nat →
     ∃ t, for_lines (resolve_line parse_line) 0 pre (RState ∅ 0)
          = (Ok tt, RState t (address st))).
Proof.
  intros Hrun.
  destruct (loop_address labels 0 pre initial st Hrun) as [Hle Ha];
    [simpl; lia|].
  split; [done|]. intros H0.
  destruct (ResolveFacts.for_lines_resolve parse_line has_label
              raises_Exception 0 pre (RState ∅ 0)) as (t & Ht & _).
  exists t. rewrite Ht, Ha by done. done.
Qed.

Lemma diagnostics_app labels pre post : ∀ n,
  diagnostics parse_line labels n (pre ++ post)
  = (diagnostics parse_line labels n pre
     ++ diagnostics parse_line labels (n + length pre) post)%list.
Proof.
  induction pre as [|raw pre IH]; intros n; simpl.
  - by rewrite Nat.add_0_r.
  - rewrite IH, <- app_assoc. do 3 f_equal. lia.
Qed.

(** [transform]: at most five failing lines and the run ends normally;
    more, and it stops at the sixth. *)
Lemma transform_spec lines :
  ∃ labels,
    resolve parse_line lines = Ok labels
    ∧ ((failures parse_line labels lines ≤ 5)%nat →
       ∃ s,
         transform lines initial = (Ok (transformed s), s)
         ∧ error_count s = failures parse_line labels lines
         ∧ (length (transformed s) + failures parse_line labels lines
            = length lines)%nat
         ∧ stream s = diagnostics parse_line labels 0 lines
         ∧ other s = [])
    ∧ ((5 < failures parse_line labels lines)%nat →
       ∃ pre raw post s,
         lines = (pre ++ raw :: post)%list
         ∧ failures parse_line labels pre = 5%nat
         ∧ fails parse_line labels raw = true
         ∧ transform lines initial = (Raise (SystemExit 1), s)
         ∧ stream s = (diagnostics parse_line labels 0 (pre ++ [raw])
                       ++ ["Too many errors; abandoning"])%list
         ∧ other s = []).
Proof.
  destruct (ResolveFacts.resolve_binds parse_line has_label raises_Exception
              lines) as (labels & Hres & _).
  exists labels. split; [done|].
  destruct (loop_spec labels lines 0 initial) as [Hok Hbad]; [simpl; lia|].
  cbn [initial error_count transformed] in *. rewrite Nat.add_0_l in *.
  split.
  - intros Hk. destruct (Hok Hk) as (s & Hrun & He & Hlen & Hst & Hot).
    exists s. rewrite transform_eq. unfold bind at 1, lift. rewrite Hres.
    unfold loop in Hrun. unfold bind, get, ret. rewrite Hrun.
    rewrite initial_stream in Hst. rewrite initial_other in Hot.
    simpl in *. repeat split; [lia..|done|done].
  - intros Hk.
    destruct (Hbad Hk) as (pre & raw & post & s1 & -> & Hpre & He & Hf & Hrun).
    exists pre, raw, post, (abandoned (failed s1 (diagnostic parse_line (0 + length pre) raw))).
    destruct (loop_spec labels pre 0 initial) as [Hok' Hbad']; [simpl; lia|].
    cbn [initial error_count transformed] in *. rewrite Nat.add_0_l in *.
    destruct (decide (failures parse_line labels pre ≤ 5)%nat) as [Hp|Hp].
    + destruct (Hok' Hp) as (s' & Hrun' & He' & _ & Hst & Hot).
      rewrite Hpre in Hrun'. injection Hrun' as <-.
      rewrite initial_stream in Hst. rewrite initial_other in Hot.
      repeat split; [lia|done| | |].
      * rewrite transform_eq. unfold bind at 1, lift. rewrite Hres.
        unfold loop in Hrun. unfold bind. by rewrite Hrun.
      * rewrite abandoned_stream, failed_stream, Hst, diagnostics_app.
        cbn [diagnostics]. rewrite Hf. simpl. done.
      * by rewrite abandoned_other, failed_other.
    + destruct Hbad' as (? & ? & ? & ? & _ & _ & _ & _ & Hrun'); [lia|].
      rewrite Hpre in Hrun'. done.
Qed.

(** [transform] when no line fails: one emitted line for each line. *)
Lemma transform_all_ok lines labels :
  resolve parse_line lines = Ok labels →
  Forall (λ raw, fails parse_line labels raw = false) lines →
  ∃ out,
    transform lines initial
    = (Ok out, TState 0 (addresses parse_line lines) out [] [])
    ∧ length out = length lines
    ∧ ∀ i raw, lines !! i = Some raw →
        ∃ f s text,
          out !! i = Some text
          ∧ address s = address_of parse_line lines i
          ∧ parse_line (rstrip raw) = Ok f
          ∧ rewrite_line labels (rstrip raw) s
            = (Ok tt, emitted s text (occupies f)).
Proof.
  intros Hres Hall.
  destruct (loop_all_ok labels lines 0 initial Hall) as (out & Hrun & Hlen & Hout);
    [simpl; lia|].
  exists out. split; [|split; [done|]].
  - rewrite transform_eq. unfold bind at 1, lift. rewrite Hres.
    unfold loop in Hrun. unfold bind, get, ret. rewrite Hrun. done.
  - intros i raw Hi. destruct (Hout i raw Hi) as (f & s & text & ? & Ha & ? & ?).
    exists f, s, text. rewrite Ha. done.
Qed.

End Rewriter.
End LoopFacts.

(** ** The two programs as instances of the loop *)

Module Runs.
Import Str Re Asm AsmFacts.

Lemma P1_raises line e :
  Phase1.parse_line line = Raise e → is_Exception e = true.
Proof. by intros ->%P1Step.parse_line_Raise. Qed.

Lemma FA_raises line e :
  Fadfa.parse_line line = Raise e → is_Exception e = true.
Proof. by intros ->%FAStep.parse_line_Raise_fa. Qed.

Ltac variant :=
  first [ exact P1Step.step_fail | exact P1Step.step_ok
        | exact FAStep.step_fail_fa | exact FAStep.step_ok_fa
        | exact P1.parsed_label | exact FA.parsed_label_fa
        | exact P1_raises | exact FA_raises
        | done ].

Lemma P1_counters_agree labels pre st :
  for_lines (Phase1.transform_line labels) 0 pre initial = (Ok tt, st) →
  (error_count st ≤ 5)%nat
  ∧ (error_count st = 0%nat →
     ∃ t, for_lines (resolve_line Phase1.parse_line) 0 pre (RState ∅ 0)
          = (Ok tt, RState t (address st))).
Proof.
  eapply (LoopFacts.counters_agree Phase1.parse_line Phase1.rewrite_line
            Phase1.transform_line failed_err abandoned_err stderr stdout);
    variant.
Qed.

Lemma FA_counters_agree labels pre st :
  for_lines (Fadfa.transform_line labels) 0 pre initial = (Ok tt, st) →
  (error_count st ≤ 5)%nat
  ∧ (error_count st = 0%nat →
     ∃ t, for_lines (resolve_line Fadfa.parse_line) 0 pre (RState ∅ 0)
          = (Ok tt, RState t (address st))).
Proof.
  eapply (LoopFacts.counters_agree Fadfa.parse_line Fadfa.rewrite_line
            Fadfa.transform_line failed_out abandoned_out stdout stderr);
    variant.
Qed.

Lemma P1_loop_counter labels pre st :
  for_lines (Phase1.transform_line labels) 0 pre initial = (Ok tt, st) →
  address st = (addresses Phase1.parse_line pre
                - skipped Phase1.parse_line labels pre)%Z.
Proof.
  intros Hrun.
  rewrite (LoopFacts.loop_counter Phase1.parse_line Phase1.rewrite_line
             Phase1.transform_line failed_err abandoned_err
             P1Step.step_fail P1Step.step_ok (λ _ _, eq_refl) (λ _ _, eq_refl)
             labels pre 0%nat initial st Hrun); simpl; lia.
Qed.

Lemma FA_loop_counter labels pre st :
  for_lines (Fadfa.transform_line labels) 0 pre initial = (Ok tt, st) →
  address st = (addresses Fadfa.parse_line pre
                - skipped Fadfa.parse_line labels pre)%Z.
Proof.
  intros Hrun.
  rewrite (LoopFacts.loop_counter Fadfa.parse_line Fadfa.rewrite_line
             Fadfa.transform_line failed_out abandoned_out
             FAStep.step_fail_fa FAStep.step_ok_fa (λ _ _, eq_refl) (λ _ _, eq_refl)
             labels pre 0%nat initial st Hrun); simpl; lia.
Qed.

Lemma emitted_inj s t1 o1 t2 o2 :
  emitted s t1 o1 = emitted s t2 o2 → t1 = t2.
Proof.
  unfold emitted. intros [= _ H]. by apply app_inv_head in H as [= ->].
Qed.

Lemma memop_refers f : kind f = MEMOP → refers f = field f "labelref".
Proof. unfold refers. by intros ->. Qed.

Lemma jump_refers f : kind f = JUMP → refers f = field f "labelref".
Proof. unfold refers. by intros ->. Qed.

Lemma refers_kind f ref :
  refers f = Some ref →
  (kind f = MEMOP ∨ kind f = JUMP) ∧ field f "labelref" = Some ref.
Proof. unfold refers. destruct (kind f); try done; auto. Qed.

Lemma bound_not_fails parse_line labels raw f :
  parse_line (rstrip raw) = Ok f →
  (∀ ref, refers f = Some ref → is_Some (labels !! ref)) →
  fails parse_line labels raw = false.
Proof.
  intros Hp Hb. unfold fails, unbound. rewrite Hp.
  destruct (refers f) as [ref|]; [|done].
  destruct (Hb ref eq_refl) as [a Ha]. apply bool_decide_eq_false. congruence.
Qed.

End Runs.

(** ** The letters of opcodes and predicates *)

Module Shapes.
Import Re Asm StrFacts ReFacts AsmFacts Runs.

Lemma upper_char_alpha c :
  Str.is_alpha c = true → Str.is_upper (Str.upper_char c) = true.
Proof.
  destruct c as [[] [] [] [] [] [] [] []]; vm_compute; congruence.
Qed.

Lemma upper_alpha s :
  Str.forallb Str.is_alpha s = true →
  Str.forallb Str.is_upper (Str.upper s) = true.
Proof.
  induction s as [|c s IH]; [done|]. simpl.
  intros [Hc Hs]%andb_prop. by rewrite upper_char_alpha, IH.
Qed.

(** The text of a group that took part in the match was matched by one of
    the patterns of the group. *)
Lemma field_shape (Q : string → Prop) pat kd m line k v :
  den pat None line "" ∅ m →
  (∀ r1 p w t c c', r1 ∈ group_patterns k pat → den r1 p w t c c' → Q w) →
  field (Dict kd (groupdict pat m)) k = Some v → Q v.
Proof.
  intros D HQ. unfold field; simpl. rewrite groupdict_lookup.
  destruct (decide (k ∈ group_names pat)); [|done]. intros Hv.
  destruct (den_group k _ _ _ _ _ _ D)
    as [E|(r1 & p1 & w1 & t1 & c1 & c2 & Hin & D1 & E)].
  - by rewrite Hv, lookup_empty in E.
  - rewrite Hv in E. injection E as ->. eauto.
Qed.

Lemma den_lit l p w t (c c' : captures) : den (Lit l) p w t c c' → w = l.
Proof. by intros [-> _]. Qed.

Lemma rep_guarded r f p w t (c c' : captures) :
  rep (den (Seq (NotAhead r) (Class f))) p w t c c' →
  Str.forallb f w = true.
Proof.
  induction 1 as [|p w1 w2 t c c1 c2 D _ IH]; [done|].
  destruct D as (u1 & u2 & d & -> & (-> & _) & (a & -> & Ha & _)).
  rewrite string_app_nil_l, string_app_cons, string_app_nil_l. simpl. by rewrite Ha, IH.
Qed.

Ltac group_is Hin l :=
  match type of Hin with
  | _ ∈ ?g => let E := fresh in assert (E : g = l) by reflexivity;
             rewrite E in Hin; clear E
  end.

Lemma capitals_plus p w t (c c' : captures) :
  den (Plus (Class Str.is_upper)) p w t c c' → Str.capitals w.
Proof. intros (? & ? & _)%den_plus_class. by split. Qed.

Lemma letters_plus p w t (c c' : captures) :
  den (Plus (Class Str.is_alpha)) p w t c c' → Str.letters w.
Proof. intros (? & ? & _)%den_plus_class. by split. Qed.

Lemma letters_guarded r p w t (c c' : captures) :
  den (Seq WordBoundary (Plus (Seq (NotAhead r) (Class Str.is_alpha))))
      p w t c c' → Str.letters w.
Proof.
  intros (u1 & u2 & d & -> & (-> & _) & (v1 & v2 & d' & -> & D1 & D2)).
  destruct D1 as (x1 & x2 & e & -> & (-> & _) & (a & -> & Ha & _)).
  apply rep_guarded in D2.
  rewrite !string_app_nil_l, string_app_cons, string_app_nil_l. split; [done|].
  simpl. by rewrite Ha, D2.
Qed.

Ltac one_pattern Hin := apply list_elem_of_singleton in Hin as ->.

(** Predicates are capital letters, opcodes are letters. *)
Lemma P1_predicate line f v :
  Phase1.parse_line line = Ok f → field f "predicate" = Some v → Str.capitals v.
Proof.
  intros (pat & kd & m & Hin & D & ->)%P1.parse_pattern.
  apply (field_shape Str.capitals _ _ _ _ _ _ D).
  intros r1 p w t c c' Hr1 D1. unfold Phase1.PATTERNS in Hin.
  pattern_cases Hin.
  - group_is Hr1 [Plus (Class Str.is_upper)]. one_pattern Hr1.
    by eapply capitals_plus.
  - group_is Hr1 (@nil regex). by apply elem_of_nil in Hr1.
  - group_is Hr1 (@nil regex). by apply elem_of_nil in Hr1.
  - group_is Hr1 [Plus (Class Str.is_upper)]. one_pattern Hr1.
    by eapply capitals_plus.
  - group_is Hr1 [Plus (Class Str.is_upper)]. one_pattern Hr1.
    by eapply capitals_plus.
Qed.

Lemma FA_predicate line f v :
  Fadfa.parse_line line = Ok f → field f "predicate" = Some v → Str.capitals v.
Proof.
  intros (pat & kd & m & Hin & D & ->)%FA.parse_pattern_fa.
  apply (field_shape Str.capitals _ _ _ _ _ _ D).
  intros r1 p w t c c' Hr1 D1. unfold Fadfa.PATTERNS in Hin.
  pattern_cases Hin.
  - group_is Hr1 [Plus (Class Str.is_upper)]. one_pattern Hr1.
    by eapply capitals_plus.
  - group_is Hr1 [Plus (Class Str.is_upper)]. one_pattern Hr1.
    by eapply capitals_plus.
  - group_is Hr1 (@nil regex). by apply elem_of_nil in Hr1.
  - group_is Hr1 [Plus (Class Str.is_upper)]. one_pattern Hr1.
    by eapply capitals_plus.
  - group_is Hr1 [Plus (Class Str.is_upper)]. one_pattern Hr1.
    by eapply capitals_plus.
Qed.

Lemma P1_opcode line f v :
  Phase1.parse_line line = Ok f → field f "opcode" = Some v → Str.letters v.
Proof.
  intros (pat & kd & m & Hin & D & ->)%P1.parse_pattern.
  apply (field_shape Str.letters _ _ _ _ _ _ D).
  intros r1 p w t c c' Hr1 D1. unfold Phase1.PATTERNS in Hin.
  pattern_cases Hin.
  - group_is Hr1 [Plus (Class Str.is_alpha)]. one_pattern Hr1.
    by eapply letters_plus.
  - group_is Hr1 [Lit "DATA"]. one_pattern Hr1.
    apply den_lit in D1 as ->. by split.
  - group_is Hr1 (@nil regex). by apply elem_of_nil in Hr1.
  - group_is Hr1 [Plus (Class Str.is_alpha)]. one_pattern Hr1.
    by eapply letters_plus.
  - group_is Hr1 [Lit "JUMP"]. one_pattern Hr1.
    apply den_lit in D1 as ->. by split.
Qed.

Lemma FA_opcode line f v :
  Fadfa.parse_line line = Ok f → field f "opcode" = Some v → Str.letters v.
Proof.
  intros (pat & kd & m & Hin & D & ->)%FA.parse_pattern_fa.
  apply (field_shape Str.letters _ _ _ _ _ _ D).
  intros r1 p w t c c' Hr1 D1. unfold Fadfa.PATTERNS in Hin.
  pattern_cases Hin.
  - group_is Hr1 [Plus (Class Str.is_alpha)]. one_pattern Hr1.
    by eapply letters_plus.
  - group_is Hr1 [Alt (Lit "DATA") (Lit "data")]. one_pattern Hr1.
    destruct D1 as [D1|D1]; apply den_lit in D1 as ->; by split.
  - group_is Hr1 (@nil regex). by apply elem_of_nil in Hr1.
  - group_is Hr1 [Seq WordBoundary
                    (Plus (Seq (NotAhead (Alt (Lit "LDA") (Lit "lda")))
                               (Class Str.is_alpha)))].
    one_pattern Hr1. by eapply letters_guarded.
  - group_is Hr1 [Alt (Lit "JUMP") (Lit "jump")]. one_pattern Hr1.
    destruct D1 as [D1|D1]; apply den_lit in D1 as ->; by split.
Qed.

End Shapes.

(** ** A FULL or DATA line, piece by piece, up to white space *)

Module Pieces.
Import Re Asm StrFacts ReFacts AsmFacts Runs.

Lemma rep_no_groups R p w t (c c' : captures) :
  (∀ p w t c c', R p w t c c' → c' = c) → rep R p w t c c' → c' = c.
Proof.
  intros HR H. induction H as [|p w1 w2 t c c1 c2 H1 _ IH]; [done|].
  rewrite IH. eauto.
Qed.

Lemma den_no_groups r :
  group_names r = [] → ∀ p w t c c', den r p w t c c' → c' = c.
Proof.
  induction r as [|f|l|r1 IH1 r2 IH2|r1 IH1 r2 IH2|r1 IH1|r1 IH1|r1 IH1
                  |name r1 IH1|r1 IH1| |]; cbn [group_names den];
    intros Hn p w t c c'.
  - by intros [_ ->].
  - by intros (? & _ & _ & ->).
  - by intros [_ ->].
  - apply app_eq_nil in Hn as [H1 H2].
    intros (w1 & w2 & c1 & _ & D1 & D2).
    rewrite (IH2 H2 _ _ _ _ _ D2). eauto.
  - apply app_eq_nil in Hn as [H1 H2]. intros [D|D]; eauto.
  - intros [D|[_ ->]]; eauto.
  - apply rep_no_groups; eauto.
  - intros (w1 & w2 & c1 & _ & D1 & D2).
    rewrite (rep_no_groups _ _ _ _ _ _ (IH1 Hn) D2). eauto.
  - done.
  - by intros (_ & -> & _).
  - by intros (_ & -> & _).
  - by intros (_ & -> & _).
Qed.

Lemma den_spaces p w t (c c' : captures) :
  den spaces p w t c c' → Str.forallb Str.is_space w = true ∧ c' = c.
Proof. apply rep_class. Qed.

Lemma den_spaces1 p w t (c c' : captures) :
  den spaces1 p w t c c' → Str.forallb Str.is_space w = true ∧ c' = c.
Proof. intros (_ & ? & ?)%den_plus_class. done. Qed.

Lemma den_named_plain k r p w t (c c' : captures) :
  group_names r = [] → den (Named k r) p w t c c' → c' = <[k := w]> c.
Proof. intros Hn (c1 & D & ->). by rewrite (den_no_groups r Hn _ _ _ _ _ D). Qed.

Lemma den_opt_label p w t (c c' : captures) :
  den opt_label p w t c c' →
  ∃ l, w = label_piece l ∧ c' = set_group "label" l c.
Proof.
  intros [(w1 & w2 & c1 & -> & D1 & (-> & ->))|[-> ->]].
  - apply den_named_plain in D1 as ->; [|done]. by exists (Some w1).
  - by exists None.
Qed.

Lemma den_opt_predicate p w t (c c' : captures) :
  den opt_predicate p w t c c' →
  ∃ o, w = predicate_text o ∧ c' = set_group "predicate" o c.
Proof.
  intros [(w1 & w2 & c1 & -> & (-> & ->) & D2)|[-> ->]].
  - apply den_named_plain in D2 as ->; [|done]. by exists (Some w2).
  - by exists None.
Qed.

Lemma den_opt_offset r p w t (c c' : captures) :
  group_names r = [] →
  den (Opt (seq [Lit "["; Named "offset" r; Lit "]"])) p w t c c' →
  ∃ o, w = offset_text o ∧ c' = set_group "offset" o c.
Proof.
  intros Hn [(w1 & w2 & c1 & -> & (-> & ->) & D)|[-> ->]].
  - destruct D as (w3 & w4 & c2 & -> & D3 & (-> & ->)).
    apply den_named_plain in D3 as ->; [|done]. by exists (Some w3).
  - by exists None.
Qed.

Lemma den_opt_comment p w t (c c' : captures) :
  den (Opt (Seq spaces comment_group)) p w t c c' →
  ∃ sp o, Str.forallb Str.is_space sp = true
          ∧ w = sp +:+ comment_text o ∧ c' = set_group "comment" o c.
Proof.
  intros [(w1 & w2 & c1 & -> & [Hs ->]%den_spaces & D2)|[-> ->]].
  - apply den_named_plain in D2 as ->; [|done]. by exists w1, (Some w2).
  - by exists "", None.
Qed.

Lemma den_opt_value r p w t (c c' : captures) :
  group_names r = [] →
  den (Opt (Named "value" r)) p w t c c' →
  ∃ o, w = comment_text o ∧ c' = set_group "value" o c.
Proof.
  intros Hn [D|[-> ->]].
  - apply den_named_plain in D as ->; [|done]. by exists (Some w).
  - by exists None.
Qed.

Lemma seq_cons r r' rs : seq (r :: r' :: rs) = Seq r (seq (r' :: rs)).
Proof. done. Qed.

Lemma den_seq r1 r2 p w t (c c' : captures) :
  den (Seq r1 r2) p w t c c' →
  ∃ w1 w2 c1, w = w1 +:+ w2 ∧ den r1 p w1 (w2 +:+ t) c c1
              ∧ den r2 (Str.last w1 p) w2 t c1 c'.
Proof. done. Qed.

Lemma den_end p w t (c c' : captures) :
  den (Seq spaces EndAnchor) p w t c c' →
  Str.forallb Str.is_space w = true ∧ c' = c.
Proof.
  intros (w1 & w2 & c1 & -> & [Hs ->]%den_spaces & (-> & -> & _)).
  by rewrite string_app_nil_r.
Qed.

(** White space leaves nothing behind. *)
Lemma without_spaces_app a b :
  Str.without_spaces (a +:+ b)
  = Str.without_spaces a +:+ Str.without_spaces b.
Proof. apply string_filter_app. Qed.

Lemma without_spaces_blank w :
  Str.forallb Str.is_space w = true → Str.without_spaces w = "".
Proof.
  induction w as [|a w IH]; [done|]. simpl.
  intros [Ha Hw]%andb_prop. unfold Str.without_spaces in *. simpl.
  rewrite Ha. simpl. auto.
Qed.

Lemma without_spaces_label l :
  Str.without_spaces (label_text l) = Str.without_spaces (label_piece l).
Proof. by destruct l. Qed.

Lemma den_lit_plain l p w t (c c' : captures) :
  den (Lit l) p w t c c' → w = l ∧ c' = c.
Proof. done. Qed.

Ltac piece D D1 :=
  rewrite seq_cons in D;
  apply den_seq in D as (?w & ?w & ?c & -> & D1 & D).

Ltac blanks :=
  repeat match goal with
  | H : Str.forallb Str.is_space ?w = true |- _ =>
      rewrite (without_spaces_blank w H); clear H
  end.

Lemma ws2 : Str.without_spaces "  " = "".
Proof. done. Qed.
Lemma ws3 : Str.without_spaces "   " = "".
Proof. done. Qed.
Lemma ws4 : Str.without_spaces "    " = "".
Proof. done. Qed.

Ltac same_text :=
  rewrite ?without_spaces_app; blanks;
  rewrite ?ws2, ?ws3, ?ws4, ?string_app_nil_r, ?string_app_assoc; reflexivity.

(** The FULL line that [fadfa.py] prints has the text of the line that it
    read, white space and the opcode apart. *)
Lemma full_shape line m kd :
  den Fadfa.ASM_FULL_PAT None line "" ∅ m →
  ∃ pre op post,
    line = pre +:+ op +:+ post ∧ m !! "opcode" = Some op
    ∧ ∀ OP,
        Str.without_spaces
          (full_text (Dict kd (groupdict Fadfa.ASM_FULL_PAT m)) OP)
        = Str.without_spaces (pre +:+ OP +:+ post).
Proof.
  intros D.
  assert (Hf : ∀ k, bool_decide (k ∈ group_names Fadfa.ASM_FULL_PAT) = true →
    field (Dict kd (groupdict Fadfa.ASM_FULL_PAT m)) k = m !! k)
    by (intros; by apply field_groupdict).
  unfold full_text. rewrite !Hf by reflexivity. clear Hf.
  unfold Fadfa.ASM_FULL_PAT in D.
  piece D D1. apply den_spaces in D1 as [Hs1 ->].
  piece D D2. apply den_opt_label in D2 as (l & -> & ->).
  piece D D3. apply den_spaces in D3 as [Hs2 ->].
  piece D D4. apply den_named_plain in D4 as ->; [|done].
  piece D D5. apply den_opt_predicate in D5 as (p & -> & ->).
  piece D D6. apply den_spaces1 in D6 as [Hs3 ->].
  piece D D7. apply den_named_plain in D7 as ->; [|done].
  piece D D8. apply den_lit_plain in D8 as [-> ->].
  piece D D9. apply den_named_plain in D9 as ->; [|done].
  piece D D10. apply den_lit_plain in D10 as [-> ->].
  piece D D11. apply den_named_plain in D11 as ->; [|done].
  piece D D12. apply den_opt_offset in D12 as (o & -> & ->); [|done].
  piece D D13. apply den_opt_comment in D13 as (sp & cm & Hs4 & -> & ->).
  apply den_end in D as [Hs5 ->].
  match goal with |- context [?a +:+ label_piece l +:+ ?b +:+ ?op +:+ ?post] =>
    exists (a +:+ label_piece l +:+ b), op, post end.
  split; [by rewrite !string_app_assoc|].
  destruct l, p, o, cm; cbn [set_group]; simplify_map_eq;
    cbn [label_text label_piece predicate_text offset_text comment_text show];
    (split; [done|]); intros OP; same_text.
Qed.

(** The same for a DATA line that has a value and no predicate. *)
Lemma data_shape line m kd :
  den Fadfa.ASM_DATA_PAT None line "" ∅ m →
  m !! "predicate" = None → is_Some (m !! "value") →
  ∃ pre op post,
    line = pre +:+ op +:+ post ∧ m !! "opcode" = Some op
    ∧ ∀ OP,
        Str.without_spaces
          (data_text (Dict kd (groupdict Fadfa.ASM_DATA_PAT m)) OP)
        = Str.without_spaces (pre +:+ OP +:+ post).
Proof.
  intros D.
  assert (Hf : ∀ k, bool_decide (k ∈ group_names Fadfa.ASM_DATA_PAT) = true →
    field (Dict kd (groupdict Fadfa.ASM_DATA_PAT m)) k = m !! k)
    by (intros; by apply field_groupdict).
  unfold data_text. rewrite !Hf by reflexivity. clear Hf.
  unfold Fadfa.ASM_DATA_PAT in D.
  piece D D1. apply den_spaces in D1 as [Hs1 ->].
  piece D D2. apply den_opt_label in D2 as (l & -> & ->).
  piece D D3. apply den_spaces in D3 as [Hs2 ->].
  piece D D4. apply den_named_plain in D4 as ->; [|done].
  piece D D5. apply den_opt_predicate in D5 as (p & -> & ->).
  piece D D6. apply den_spaces in D6 as [Hs3 ->].
  piece D D7. apply den_opt_value in D7 as (v & -> & ->); [|done].
  piece D D8. apply den_opt_comment in D8 as (sp & cm & Hs4 & -> & ->).
  apply den_end in D as [Hs5 ->].
  intros Hp [x Hv].
  match goal with |- context [?a +:+ label_piece l +:+ ?b +:+ ?op +:+ ?post] =>
    exists (a +:+ label_piece l +:+ b), op, post end.
  split; [by rewrite !string_app_assoc|].
  destruct l, p, v, cm; cbn [set_group] in *; simplify_map_eq;
    cbn [label_text label_piece predicate_text comment_text show];
    (split; [done|]); intros OP; same_text.
Qed.

End Pieces.

(** ** Integer literals: the value field, and [value_parse] *)

Module Literals.
Import Re Asm StrFacts ReFacts AsmFacts Runs Shapes.
Import Phase1.

Ltac each_char c := destruct c as [[] [] [] [] [] [] [] []].

Lemma hex_digit c :
  Str.is_hex c = true →
  Str.is_char "_" c = false ∧ Str.is_space c = false
  ∧ digit_value 16 c = Some (Str.digit_of c).
Proof. each_char c; vm_compute; intros; repeat split; congruence. Qed.

Lemma decimal_digit c :
  Str.is_digit c = true →
  Str.is_char "_" c = false ∧ Str.is_space c = false
  ∧ digit_value 10 c = Some (Str.digit_of c).
Proof. each_char c; vm_compute; intros; repeat split; congruence. Qed.

Section Digits.
Variables (base : Z) (P : ascii → bool).
Hypothesis digit :
  ∀ c, P c = true →
       Str.is_char "_" c = false ∧ Str.is_space c = false
       ∧ digit_value base c = Some (Str.digit_of c).

(** The loop over the digits computes the number in positional notation
    and counts the digits. *)
Lemma scan_number s : ∀ acc n b,
  Str.forallb P s = true → s ≠ "" ∨ b = true →
  scan base acc n b s
  = Some ((acc * base ^ Z.of_nat (String.length s) + Str.number base s)%Z,
          (n + String.length s)%nat, "").
Proof.
  induction s as [|c s IH]; intros acc n b Hs Hb.
  - destruct Hb as [Hn | ->]; [done|]. simpl. do 3 f_equal; lia.
  - simpl in Hs. apply andb_prop in Hs as [Hc Hs].
    destruct (digit c Hc) as (Hu & _ & Hd).
    cbn [scan Str.number String.length]. rewrite Hu, Hd, IH by auto.
    do 3 f_equal; [|lia].
    rewrite Nat2Z.inj_succ, Z.pow_succ_r by lia. ring.
Qed.

(** [int] does not skip anything before a digit. *)
Lemma skip_digits c s :
  P c = true → skip_spaces (String c s) = String c s.
Proof.
  intros (_ & Hc & _)%digit. cbn [skip_spaces]. unfold int_space.
  by rewrite Hc.
Qed.

End Digits.

Lemma not_underscore {A} (c : ascii) (x y : A) :
  Str.is_char "_" c = false →
  match c with "_"%char => x | _ => y end = y.
Proof. each_char c; intros H; try reflexivity; discriminate H. Qed.

(** [value_parse] on the two kinds of literals. *)
Lemma value_parse_hexadecimal h :
  h ≠ "" → Str.forallb Str.is_hex h = true →
  value_parse ("0x" +:+ h) = Ok (Str.number 16 h).
Proof.
  intros Hne Hh. unfold value_parse, int.
  change ("0x" +:+ h) with (String "0" (String "x" h)).
  assert (Hs : Str.startswith (String "0" (String "x" h)) "0x" = true)
    by reflexivity.
  rewrite Hs. cbn [skip_spaces]. change (int_space "0") with false.
  cbv iota. rewrite Hs. cbn [Z.eqb Pos.eqb andb orb].
  destruct h as [|c h]; [done|].
  assert (Hc : Str.is_char "_" c = false).
  { simpl in Hh. apply andb_prop in Hh as [Hc _]. by apply hex_digit. }
  rewrite (not_underscore c _ _ Hc).
  rewrite (scan_number 16 Str.is_hex hex_digit) by auto.
  change (negb (Z.land 16 (16 - 1) =? 0)%Z) with false. cbn [andb skip_spaces].
  f_equal. lia.
Qed.

Lemma decimal_sign c s :
  Str.is_digit c = true →
  match String c s with
  | String "-" s' => ((-1)%Z, s')
  | String "+" s' => (1%Z, s')
  | _ => (1%Z, String c s)
  end = (1%Z, String c s).
Proof. each_char c; intros H; try reflexivity; discriminate H. Qed.

Lemma decimal_prefix d :
  Str.forallb Str.is_digit d = true → Str.startswith d "0x" = false.
Proof.
  destruct d as [|c [|c' d]]; [done| |].
  - each_char c; intros H; try reflexivity; discriminate H.
  - simpl. intros [Hc [Hc' _]%andb_prop]%andb_prop. revert Hc'.
    each_char c'; intros H; try discriminate H; clear H;
      revert Hc; each_char c; intros H; try discriminate H; reflexivity.
Qed.

(** In base 10, [int] reads a text of digits when it has at most 4300 of
    them, and refuses a longer one. *)
Lemma int_decimal d :
  d ≠ "" → Str.forallb Str.is_digit d = true →
  int d 10
  = if (int_max_str_digits <? String.length d)%nat
    then Raise (exceeds_limit (String.length d))
    else Ok (Str.number 10 d).
Proof.
  intros Hne Hd. unfold int.
  destruct d as [|c d]; [done|]. clear Hne.
  assert (Hc : Str.is_digit c = true).
  { simpl in Hd. by apply andb_prop in Hd as [Hc _]. }
  rewrite (skip_digits 10 Str.is_digit decimal_digit) by done.
  rewrite (decimal_sign c d Hc). cbn [Z.eqb Pos.eqb andb].
  rewrite (scan_number 10 Str.is_digit decimal_digit) by auto.
  change (negb (Z.land 10 (10 - 1) =? 0)%Z) with true. cbn [andb].
  rewrite Nat.add_0_l.
  destruct (int_max_str_digits <? String.length (String c d))%nat; [done|].
  cbn [skip_spaces]. f_equal. lia.
Qed.

Lemma value_parse_decimal d :
  d ≠ "" → Str.forallb Str.is_digit d = true →
  (String.length d ≤ 4300)%nat →
  value_parse d = Ok (Str.number 10 d).
Proof.
  intros Hne Hd Hlen. unfold value_parse.
  rewrite (decimal_prefix d Hd), int_decimal by done.
  destruct (Nat.ltb_spec int_max_str_digits (String.length d)) as [H|H];
    [unfold int_max_str_digits in H; lia|done].
Qed.

Lemma value_parse_too_long d :
  Str.forallb Str.is_digit d = true → (4300 < String.length d)%nat →
  value_parse d = Raise (exceeds_limit (String.length d)).
Proof.
  intros Hd Hlen. unfold value_parse.
  rewrite (decimal_prefix d Hd), int_decimal;
    [|intros ->; simpl in Hlen; lia|done].
  destruct (Nat.ltb_spec int_max_str_digits (String.length d)) as [H|H];
    [done|unfold int_max_str_digits in H; lia].
Qed.

Ltac no_value D Hv :=
  exfalso; apply (field_shape (λ _, False) _ _ _ _ _ _ D) in Hv; [done|];
  let Hr := fresh in
  intros ? ? ? ? ? ? Hr _; group_is Hr (@nil regex); by apply elem_of_nil in Hr.

Lemma literal_shape p w t (c c' : captures) :
  den (Alt (Seq (Lit "0x") (Plus (Class Str.is_hex)))
           (Plus (Class Str.is_digit))) p w t c c' →
  Str.hexadecimal w ∨ Str.decimal w.
Proof.
  intros [D|D].
  - left. destruct D as (w1 & w2 & c1 & -> & ->%den_lit & D).
    apply den_plus_class in D as (? & ? & _). by exists w2.
  - right. apply den_plus_class in D as (? & ? & _). by split.
Qed.

(** Only a DATA line has a value, and the value is a literal. *)
Lemma P1_value line f v :
  Phase1.parse_line line = Ok f → field f "value" = Some v →
  kind f = DATA ∧ (Str.hexadecimal v ∨ Str.decimal v).
Proof.
  intros (pat & kd & m & Hin & D & ->)%P1.parse_pattern Hv.
  unfold Phase1.PATTERNS in Hin. pattern_cases Hin;
    [no_value D Hv| |no_value D Hv..].
  split; [done|].
  apply (field_shape (λ v, Str.hexadecimal v ∨ Str.decimal v) _ _ _ _ _ _ D) in Hv;
    [done|].
  intros r1 p w t c c' Hr1 D1.
  group_is Hr1 [Alt (Seq (Lit "0x") (Plus (Class Str.is_hex)))
                    (Plus (Class Str.is_digit))].
  one_pattern Hr1. by eapply literal_shape.
Qed.

Lemma FA_value line f v :
  Fadfa.parse_line line = Ok f → field f "value" = Some v →
  kind f = DATA ∧ (Str.hexadecimal v ∨ Str.decimal v).
Proof.
  intros (pat & kd & m & Hin & D & ->)%FA.parse_pattern_fa Hv.
  unfold Fadfa.PATTERNS in Hin. pattern_cases Hin;
    [no_value D Hv| |no_value D Hv..].
  split; [done|].
  apply (field_shape (λ v, Str.hexadecimal v ∨ Str.decimal v) _ _ _ _ _ _ D) in Hv;
    [done|].
  intros r1 p w t c c' Hr1 D1.
  group_is Hr1 [Alt (Seq (Lit "0x") (Plus (Class Str.is_hex)))
                    (Plus (Class Str.is_digit))].
  one_pattern Hr1. by eapply literal_shape.
Qed.

End Literals.

(** * The claims of the specification *)

Module Claims.
Import Re Asm AsmFacts Runs Shapes Pieces Literals.

(** The displacement in general.  In both programs, a MEMOP or JUMP line
    whose label reference is bound in the table is rewritten, and the
    displacement that is printed between the brackets is the address bound
    to the label minus the value that the address counter of the second
    pass has when the line is reached (the counter is advanced only after
    the line is emitted).  The sign is not examined.  The counter is the
    address which the first pass has given to the line, less the number of
    earlier lines that were left on an unbound label: it is the address of
    the line itself only when there is no such line before it. *)
Lemma displacement_from_counter :
  (∀ lines labels i raw st f ref a,
     lines !! i = Some raw →
     for_lines (Phase1.transform_line labels) 0 (take i lines) initial
     = (Ok tt, st) →
     Phase1.parse_line (Str.rstrip raw) = Ok f →
     refers f = Some ref → labels !! ref = Some a →
     ∃ text,
       Phase1.transform_line labels i raw st = (Ok tt, emitted st text true)
       ∧ (kind f = MEMOP →
          ∃ opcode, text = memop_text f opcode (a - address st))
       ∧ (kind f = JUMP → text = jump_text f (a - address st))
       ∧ address st
         = (address_of Phase1.parse_line lines i
            - skipped Phase1.parse_line labels (take i lines))%Z)
  ∧ (∀ lines lables i raw st f ref a,
     lines !! i = Some raw →
     for_lines (Fadfa.transform_line lables) 0 (take i lines) initial
     = (Ok tt, st) →
     Fadfa.parse_line (Str.rstrip raw) = Ok f →
     refers f = Some ref → lables !! ref = Some a →
     ∃ text,
       Fadfa.transform_line lables i raw st = (Ok tt, emitted st text true)
       ∧ (kind f = MEMOP →
          ∃ opcode, text = memop_text f opcode (a - address st))
       ∧ (kind f = JUMP → text = jump_text f (a - address st))
       ∧ address st
         = (address_of Fadfa.parse_line lines i
            - skipped Fadfa.parse_line lables (take i lines))%Z).
Proof.
  split.
  - intros lines labels i raw st f ref a Hi Hrun Hp Hr Ha.
    destruct (P1_counters_agree _ _ _ Hrun) as [Hle _].
    destruct (refers_kind _ _ Hr) as [Hk Hl].
    assert (Hf : fails Phase1.parse_line labels raw = false).
    { apply (bound_not_fails _ _ _ f); [done|]. intros ? ?; simplify_eq; eauto. }
    destruct (P1Step.step_ok labels i raw st Hf Hle)
      as (f' & text & Hp' & Hrw & Hstep).
    rewrite Hp in Hp'. injection Hp' as <-.
    assert (Hocc : occupies f = true).
    { unfold occupies. apply bool_decide_eq_true. by destruct Hk as [-> | ->]. }
    rewrite Hocc in Hrw, Hstep. exists text. split; [exact Hstep|].
    split; [|split; [|by apply P1_loop_counter]].
    + intros Hk'. destruct (P1.rewrite_line_memop _ _ Hp Hk')
        as (op & ref' & _ & Hl' & Hrw'). exists (op).
      rewrite Hl in Hl'. injection Hl' as <-.
      rewrite Hrw', Ha in Hrw.
      apply (f_equal snd), emitted_inj in Hrw. done.
    + intros Hk'. destruct (P1.rewrite_line_jump _ _ Hp Hk')
        as (ref' & Hl' & Hrw').
      rewrite Hl in Hl'. injection Hl' as <-.
      rewrite Hrw', Ha in Hrw.
      apply (f_equal snd), emitted_inj in Hrw. done.
  - intros lines labels i raw st f ref a Hi Hrun Hp Hr Ha.
    destruct (FA_counters_agree _ _ _ Hrun) as [Hle _].
    destruct (refers_kind _ _ Hr) as [Hk Hl].
    assert (Hf : fails Fadfa.parse_line labels raw = false).
    { apply (bound_not_fails _ _ _ f); [done|]. intros ? ?; simplify_eq; eauto. }
    destruct (FAStep.step_ok_fa labels i raw st Hf Hle)
      as (f' & text & Hp' & Hrw & Hstep).
    rewrite Hp in Hp'. injection Hp' as <-.
    assert (Hocc : occupies f = true).
    { unfold occupies. apply bool_decide_eq_true. by destruct Hk as [-> | ->]. }
    rewrite Hocc in Hrw, Hstep. exists text. split; [exact Hstep|].
    split; [|split; [|by apply FA_loop_counter]].
    + intros Hk'. destruct (FA.rewrite_line_memop_fa _ _ Hp Hk')
        as (op & ref' & _ & Hl' & Hrw'). exists (Str.upper op).
      rewrite Hl in Hl'. injection Hl' as <-.
      rewrite Hrw', Ha in Hrw.
      apply (f_equal snd), emitted_inj in Hrw. done.
    + intros Hk'. destruct (FA.rewrite_line_jump_fa _ _ Hp Hk')
        as (ref' & Hl' & Hrw').
      rewrite Hl in Hl'. injection Hl' as <-.
      rewrite Hrw', Ha in Hrw.
      apply (f_equal snd), emitted_inj in Hrw. done.
Qed.

(** Claim C1 does not hold of the code after a line that refers to an
    unbound label.  On the three lines of [Sample.unresolved] the table
    binds [x] to 1 and the third line, [LOAD r2,x], has the address 2, so
    that the displacement -1 is due; both programs emit the line with the
    displacement 0, which is the address of [x] minus the counter of the
    second pass, left at 1 by the first line. *)
Theorem displacement_not_from_own_address :
  let raw := "LOAD r2,x" in
  let f := Sample.parsed (Phase1.parse_line raw) in
  let g := Sample.parsed (Fadfa.parse_line raw) in
  Sample.unresolved !! 2%nat = Some raw
  ∧ Phase1.parse_line raw = Ok f ∧ Fadfa.parse_line raw = Ok g
  ∧ kind f = MEMOP ∧ refers f = Some "x"
  ∧ kind g = MEMOP ∧ refers g = Some "x"
  ∧ Phase1.resolve Sample.unresolved = Ok (<["x" := 1%Z]> ∅)
  ∧ Fadfa.resolve Sample.unresolved = Ok (<["x" := 1%Z]> ∅)
  ∧ address_of Phase1.parse_line Sample.unresolved 2 = 2%Z
  ∧ address_of Fadfa.parse_line Sample.unresolved 2 = 2%Z
  ∧ memop_text f "LOAD" (1 - 2) = "       LOAD  r2,r0,r15[-1] #x  "
  ∧ memop_text g "LOAD" (1 - 2) = "       LOAD  r2,r0,r15[-1] #x  "
  ∧ objfile (Phase1.main Sample.unresolved) !! 1%nat
    = Some "       LOAD  r2,r0,r15[0] #x  "
  ∧ objfile (Fadfa.main Sample.unresolved) !! 1%nat
    = Some "       LOAD  r2,r0,r15[0] #x  "
  ∧ exit_status (Phase1.main Sample.unresolved) = 0%Z
  ∧ exit_status (Fadfa.main Sample.unresolved) = 0%Z.
Proof. repeat split; vm_compute; reflexivity. Qed.




(** Claim C3.  In both programs the list of patterns has the kinds FULL,
    DATA, COMMENT, MEMOP, JUMP in this order, and [parse_line] returns the
    groups of the first pattern of that order that matches the whole line,
    with its kind; it raises a SyntaxError when none of the five matches.
    In particular a line that matches the FULL pattern is given the kind
    FULL. *)
Theorem first_grammar_wins :
  (map snd Phase1.PATTERNS = [FULL; DATA; COMMENT; MEMOP; JUMP]
   ∧ ∀ line,
       Phase1.parse_line line =
       match fullmatch Phase1.ASM_FULL_PAT line with
       | Some m => Ok (Dict FULL (groupdict Phase1.ASM_FULL_PAT m))
       | None =>
       match fullmatch Phase1.ASM_DATA_PAT line with
       | Some m => Ok (Dict DATA (groupdict Phase1.ASM_DATA_PAT m))
       | None =>
       match fullmatch Phase1.ASM_COMMENT_PAT line with
       | Some m => Ok (Dict COMMENT (groupdict Phase1.ASM_COMMENT_PAT m))
       | None =>
       match fullmatch Phase1.ASM_MEMOP_PAT line with
       | Some m => Ok (Dict MEMOP (groupdict Phase1.ASM_MEMOP_PAT m))
       | None =>
       match fullmatch Phase1.ASM_JUMP_PAT line with
       | Some m => Ok (Dict JUMP (groupdict Phase1.ASM_JUMP_PAT m))
       | None => Raise (SyntaxError ("Assembler syntax error in " +:+ line))
       end end end end end)
  ∧ (∀ line m,
       fullmatch Phase1.ASM_FULL_PAT line = Some m →
       Phase1.parse_line line = Ok (Dict FULL (groupdict Phase1.ASM_FULL_PAT m)))
  ∧ (map snd Fadfa.PATTERNS = [FULL; DATA; COMMENT; MEMOP; JUMP]
   ∧ ∀ line,
       Fadfa.parse_line line =
       match fullmatch Fadfa.ASM_FULL_PAT line with
       | Some m => Ok (Dict FULL (groupdict Fadfa.ASM_FULL_PAT m))
       | None =>
       match fullmatch Fadfa.ASM_DATA_PAT line with
       | Some m => Ok (Dict DATA (groupdict Fadfa.ASM_DATA_PAT m))
       | None =>
       match fullmatch Fadfa.ASM_COMMENT_PAT line with
       | Some m => Ok (Dict COMMENT (groupdict Fadfa.ASM_COMMENT_PAT m))
       | None =>
       match fullmatch Fadfa.ASM_MEMOP_PAT line with
       | Some m => Ok (Dict MEMOP (groupdict Fadfa.ASM_MEMOP_PAT m))
       | None =>
       match fullmatch Fadfa.ASM_JUMP_PAT line with
       | Some m => Ok (Dict JUMP (groupdict Fadfa.ASM_JUMP_PAT m))
       | None => Raise (SyntaxError ("Assembler syntax error in " +:+ line))
       end end end end end)
  ∧ (∀ line m,
       fullmatch Fadfa.ASM_FULL_PAT line = Some m →
       Fadfa.parse_line line = Ok (Dict FULL (groupdict Fadfa.ASM_FULL_PAT m))).
Proof.
  split; [|split; [|split]]; try (split; [reflexivity|]; intros line; reflexivity).
  - intros line m Hm. unfold Phase1.parse_line, Phase1.PATTERNS.
    cbn [parse_line_in]. by rewrite Hm.
  - intros line m Hm. unfold Fadfa.parse_line, Fadfa.PATTERNS.
    cbn [parse_line_in]. by rewrite Hm.
Qed.

(** Claim C4.  In both programs [resolve] returns a table for every list of
    lines.  The address counter starts at 0 and gains one for each line that
    matches a pattern of a kind other than COMMENT, so that it ends at the
    number of such lines; the table binds a name exactly when a line defines
    it, to the number of address-taking lines before the last line that
    defines it.  When no line from the defining line up to line [j] takes an
    address, the label is bound to the address of line [j]: a label on a
    line of its own names the next instruction. *)
Theorem resolve_binds_addresses :
  (∀ lines,
     ∃ labels,
       Phase1.resolve lines = Ok labels
       ∧ for_lines (resolve_line Phase1.parse_line) 0 lines (RState ∅ 0)
         = (Ok tt, RState labels
                     (address_of Phase1.parse_line lines (length lines)))
       ∧ binds Phase1.parse_line lines labels
       ∧ ∀ i j raw name,
           lines !! i = Some raw →
           defines Phase1.parse_line raw = Some name →
           (i ≤ j)%nat →
           (∀ k raw', (i ≤ k < j)%nat → lines !! k = Some raw' →
                      takes_address Phase1.parse_line raw' = false) →
           (∀ k raw', (i < k)%nat → lines !! k = Some raw' →
                      defines Phase1.parse_line raw' ≠ Some name) →
           labels !! name = Some (address_of Phase1.parse_line lines j))
  ∧ (∀ lines,
     ∃ labels,
       Fadfa.resolve lines = Ok labels
       ∧ for_lines (resolve_line Fadfa.parse_line) 0 lines (RState ∅ 0)
         = (Ok tt, RState labels
                     (address_of Fadfa.parse_line lines (length lines)))
       ∧ binds Fadfa.parse_line lines labels
       ∧ ∀ i j raw name,
           lines !! i = Some raw →
           defines Fadfa.parse_line raw = Some name →
           (i ≤ j)%nat →
           (∀ k raw', (i ≤ k < j)%nat → lines !! k = Some raw' →
                      takes_address Fadfa.parse_line raw' = false) →
           (∀ k raw', (i < k)%nat → lines !! k = Some raw' →
                      defines Fadfa.parse_line raw' ≠ Some name) →
           labels !! name = Some (address_of Fadfa.parse_line lines j)).
Proof.
  split; intros lines.
  - destruct (ResolveFacts.resolve_binds Phase1.parse_line P1.parsed_label
                P1_raises lines) as (labels & Hres & Hrun & Hb).
    exists labels. repeat split; [done..| |apply Hb|].
    + apply Hb.
    + intros i j raw name Hi Hd Hij Hskip Hlast. apply Hb.
      exists i, raw. repeat split; [done..| |done].
      by apply ResolveFacts.address_of_skip.
  - destruct (ResolveFacts.resolve_binds Fadfa.parse_line FA.parsed_label_fa
                FA_raises lines) as (labels & Hres & Hrun & Hb).
    exists labels. repeat split; [done..| |apply Hb|].
    + apply Hb.
    + intros i j raw name Hi Hd Hij Hskip Hlast. apply Hb.
      exists i, raw. repeat split; [done..| |done].
      by apply ResolveFacts.address_of_skip.
Qed.

Lemma resolve_binds_addresses_witness :
  Sample.label_alone !! 1%nat = Some "x:"
  ∧ defines Phase1.parse_line "x:" = Some "x"
  ∧ ∃ labels,
      Phase1.resolve Sample.label_alone = Ok labels
      ∧ labels !! "x"
        = Some (address_of Phase1.parse_line Sample.label_alone 3).
Proof.
  assert (H1 : Sample.label_alone !! 1%nat = Some "x:") by reflexivity.
  assert (H2 : defines Phase1.parse_line "x:" = Some "x")
    by (vm_compute; reflexivity).
  assert (H3 : (1 ≤ 3)%nat) by lia.
  assert (H4 : ∀ k raw', (1 ≤ k < 3)%nat →
                 Sample.label_alone !! k = Some raw' →
                 takes_address Phase1.parse_line raw' = false).
  { intros [|[|[|k]]] raw' Hk Hi; try lia;
      injection Hi as <-; vm_compute; reflexivity. }
  assert (H5 : ∀ k raw', (1 < k)%nat →
                 Sample.label_alone !! k = Some raw' →
                 defines Phase1.parse_line raw' ≠ Some "x").
  { intros [|[|[|[|k]]]] raw' Hk Hi; try lia; try discriminate;
      injection Hi as <-; vm_compute; discriminate. }
  split; [exact H1|]. split; [exact H2|].
  destruct (proj1 resolve_binds_addresses Sample.label_alone)
    as (labels & Hres & _ & _ & Hskip).
  exists labels. split; [exact Hres|].
  exact (Hskip 1%nat 3%nat "x:" "x" H1 H2 H3 H4 H5).
Defined.

Lemma P1_transform_spec lines :
  ∃ labels,
    Phase1.resolve lines = Ok labels
    ∧ ((failures Phase1.parse_line labels lines ≤ 5)%nat →
       ∃ s,
         Phase1.transform lines initial = (Ok (transformed s), s)
         ∧ error_count s = failures Phase1.parse_line labels lines
         ∧ (length (transformed s) + failures Phase1.parse_line labels lines
            = length lines)%nat
         ∧ stderr s = diagnostics Phase1.parse_line labels 0 lines
         ∧ stdout s = [])
    ∧ ((5 < failures Phase1.parse_line labels lines)%nat →
       ∃ pre raw post s,
         lines = (pre ++ raw :: post)%list
         ∧ failures Phase1.parse_line labels pre = 5%nat
         ∧ fails Phase1.parse_line labels raw = true
         ∧ Phase1.transform lines initial = (Raise (SystemExit 1), s)
         ∧ stderr s = (diagnostics Phase1.parse_line labels 0 (pre ++ [raw])
                       ++ ["Too many errors; abandoning"])%list
         ∧ stdout s = []).
Proof.
  eapply (LoopFacts.transform_spec Phase1.parse_line Phase1.rewrite_line
            Phase1.transform_line failed_err abandoned_err stderr stdout);
    variant.
Qed.

Lemma FA_transform_spec lines :
  ∃ labels,
    Fadfa.resolve lines = Ok labels
    ∧ ((failures Fadfa.parse_line labels lines ≤ 5)%nat →
       ∃ s,
         Fadfa.transform lines initial = (Ok (transformed s), s)
         ∧ error_count s = failures Fadfa.parse_line labels lines
         ∧ (length (transformed s) + failures Fadfa.parse_line labels lines
            = length lines)%nat
         ∧ stdout s = diagnostics Fadfa.parse_line labels 0 lines
         ∧ stderr s = [])
    ∧ ((5 < failures Fadfa.parse_line labels lines)%nat →
       ∃ pre raw post s,
         lines = (pre ++ raw :: post)%list
         ∧ failures Fadfa.parse_line labels pre = 5%nat
         ∧ fails Fadfa.parse_line labels raw = true
         ∧ Fadfa.transform lines initial = (Raise (SystemExit 1), s)
         ∧ stdout s = (diagnostics Fadfa.parse_line labels 0 (pre ++ [raw])
                       ++ ["Too many errors; abandoning"])%list
         ∧ stderr s = []).
Proof.
  eapply (LoopFacts.transform_spec Fadfa.parse_line Fadfa.rewrite_line
            Fadfa.transform_line failed_out abandoned_out stdout stderr);
    variant.
Qed.

Lemma P1_try_ok labels lnum raw s :
  fails Phase1.parse_line labels raw = false →
  ∃ text occ,
    try_except (Phase1.rewrite_line labels (Str.rstrip raw))
               (Phase1.report lnum (Str.rstrip raw)) s
    = (Ok tt, emitted s text occ).
Proof.
  intros (f & _ & Hrw)%P1Step.rewrite_ok. destruct (Hrw s) as [text Ht].
  exists text, (occupies f). unfold try_except. by rewrite Ht.
Qed.

Lemma FA_try_ok lables lnum raw s :
  fails Fadfa.parse_line lables raw = false →
  ∃ text occ,
    try_except (Fadfa.rewrite_line lables (Str.rstrip raw))
               (Fadfa.report lnum (Str.rstrip raw)) s
    = (Ok tt, emitted s text occ).
Proof.
  intros (f & _ & Hrw)%FAStep.rewrite_ok_fa. destruct (Hrw s) as [text Ht].
  exists text, (occupies f). unfold try_except. by rewrite Ht.
Qed.

(** Claim C5, amended.  In both programs, a line that does not match any
    pattern, or that refers to a label that the table does not bind, is
    caught at the line: the error count gains one, one diagnostic is printed
    and no line is emitted; every other line is emitted.  The diagnostic of
    a line that does not match carries the number and the text of the line,
    the one of an unbound label the number of the line and the label in
    quotes.  [assembler_phase1.py] prints the diagnostics on the error
    stream, [fadfa.py] on the output stream.  A run with at most five such
    lines ends with exit status 0 and one emitted line for each remaining
    line; a run with more stops at the sixth with exit status 1, prints that
    it abandons the run, emits nothing and does not look at the lines that
    follow. *)
Theorem failures_counted_and_reported :
  (∀ lines,
     ∃ labels,
       Phase1.resolve lines = Ok labels
       ∧ (∀ lnum raw s,
            fails Phase1.parse_line labels raw = true →
            try_except (Phase1.rewrite_line labels (Str.rstrip raw))
                       (Phase1.report lnum (Str.rstrip raw)) s
            = (Ok tt, failed_err s (diagnostic Phase1.parse_line lnum raw)))
       ∧ (∀ lnum raw s,
            fails Phase1.parse_line labels raw = false →
            ∃ text occ,
              try_except (Phase1.rewrite_line labels (Str.rstrip raw))
                         (Phase1.report lnum (Str.rstrip raw)) s
              = (Ok tt, emitted s text occ))
       ∧ ((failures Phase1.parse_line labels lines ≤ 5)%nat →
          ∃ out,
            Phase1.main lines
            = Run 0 out [] (diagnostics Phase1.parse_line labels 0 lines)
            ∧ (length out + failures Phase1.parse_line labels lines
               = length lines)%nat)
       ∧ ((5 < failures Phase1.parse_line labels lines)%nat →
          ∃ pre raw post,
            lines = (pre ++ raw :: post)%list
            ∧ failures Phase1.parse_line labels pre = 5%nat
            ∧ fails Phase1.parse_line labels raw = true
            ∧ Phase1.main lines
              = Run 1 [] []
                  (diagnostics Phase1.parse_line labels 0 (pre ++ [raw])
                   ++ ["Too many errors; abandoning"])))
  ∧ (∀ lines,
     ∃ lables,
       Fadfa.resolve lines = Ok lables
       ∧ (∀ lnum raw s,
            fails Fadfa.parse_line lables raw = true →
            try_except (Fadfa.rewrite_line lables (Str.rstrip raw))
                       (Fadfa.report lnum (Str.rstrip raw)) s
            = (Ok tt, failed_out s (diagnostic Fadfa.parse_line lnum raw)))
       ∧ (∀ lnum raw s,
            fails Fadfa.parse_line lables raw = false →
            ∃ text occ,
              try_except (Fadfa.rewrite_line lables (Str.rstrip raw))
                         (Fadfa.report lnum (Str.rstrip raw)) s
              = (Ok tt, emitted s text occ))
       ∧ ((failures Fadfa.parse_line lables lines ≤ 5)%nat →
          ∃ out,
            Fadfa.main lines
            = Run 0 out (diagnostics Fadfa.parse_line lables 0 lines) []
            ∧ (length out + failures Fadfa.parse_line lables lines
               = length lines)%nat)
       ∧ ((5 < failures Fadfa.parse_line lables lines)%nat →
          ∃ pre raw post,
            lines = (pre ++ raw :: post)%list
            ∧ failures Fadfa.parse_line lables pre = 5%nat
            ∧ fails Fadfa.parse_line lables raw = true
            ∧ Fadfa.main lines
              = Run 1 []
                  (diagnostics Fadfa.parse_line lables 0 (pre ++ [raw])
                   ++ ["Too many errors; abandoning"]) [])).
Proof.
  split; intros lines.
  - destruct (P1_transform_spec lines) as (labels & Hres & Hok & Hbad).
    exists labels. split; [done|].
    split; [intros; by apply P1Step.try_fail|].
    split; [intros; by apply P1_try_ok|]. split.
    + intros Hk. destruct (Hok Hk) as (s & Hrun & He & Hlen & Hst & Hot).
      exists (transformed s). unfold Phase1.main, main_of.
      rewrite Hrun, Hst, Hot. done.
    + intros Hk.
      destruct (Hbad Hk) as (pre & raw & post & s & -> & ? & ? & Hrun & Hst & Hot).
      exists pre, raw, post. unfold Phase1.main, main_of.
      rewrite Hrun, Hst, Hot. done.
  - destruct (FA_transform_spec lines) as (labels & Hres & Hok & Hbad).
    exists labels. split; [done|].
    split; [intros; by apply FAStep.try_fail_fa|].
    split; [intros; by apply FA_try_ok|]. split.
    + intros Hk. destruct (Hok Hk) as (s & Hrun & He & Hlen & Hst & Hot).
      exists (transformed s). unfold Fadfa.main, main_of.
      rewrite Hrun, Hst, Hot. done.
    + intros Hk.
      destruct (Hbad Hk) as (pre & raw & post & s & -> & ? & ? & Hrun & Hst & Hot).
      exists pre, raw, post. unfold Fadfa.main, main_of.
      rewrite Hrun, Hst, Hot. done.
Qed.

Lemma failures_counted_and_reported_witness :
  (5 < failures Phase1.parse_line ∅ Sample.garbage)%nat
  ∧ ∃ labels pre raw post,
      Phase1.resolve Sample.garbage = Ok labels
      ∧ Sample.garbage = (pre ++ raw :: post)%list
      ∧ failures Phase1.parse_line labels pre = 5%nat
      ∧ fails Phase1.parse_line labels raw = true
      ∧ Phase1.main Sample.garbage
        = Run 1 [] []
            (diagnostics Phase1.parse_line labels 0 (pre ++ [raw])
             ++ ["Too many errors; abandoning"]).
Proof.
  assert (H : (5 < failures Phase1.parse_line ∅ Sample.garbage)%nat)
    by (vm_compute; lia).
  split; [exact H|].
  destruct (proj1 failures_counted_and_reported Sample.garbage)
    as (labels & Hres & _ & _ & _ & Hgt).
  assert (Hl : Ok labels = Ok (∅ : gmap string Z))
    by (rewrite <- Hres; vm_compute; reflexivity).
  injection Hl as Hl. rewrite Hl in Hgt. destruct (Hgt H) as (pre & raw & post & Hrest).
  exists ∅, pre, raw, post. split; [vm_compute; reflexivity|exact Hrest].
Defined.

(** Claim C5 as stated fails for the text of the diagnostic: the diagnostic
    of an unbound label shows the label and not the text of the line. *)
Lemma unknown_word_without_text :
  Phase1.main ["LOAD r1,nolabel"]
  = Run 0 [] [] ["Unknown word in line 0: 'nolabel'"]
  ∧ Str.contains "Unknown word in line 0: 'nolabel'" "LOAD r1,nolabel" = false.
Proof. split; vm_compute; reflexivity. Qed.

(** Claim C6 does not hold of the code.  A line that refers to an unbound
    label takes an address in the first pass, but the second pass leaves the
    line before it advances its counter.  On the three lines of
    [Sample.unresolved] the first pass gives the third line the address 2
    and binds [x] to 1; the second pass reaches the third line with the
    counter at 1 and both programs print the displacement 0 where -1 is
    due. *)
Theorem counters_part_after_unresolved_label :
  ∃ labels,
    Phase1.resolve Sample.unresolved = Ok labels
    ∧ labels !! "x" = Some 1%Z
    ∧ address_of Phase1.parse_line Sample.unresolved 2 = 2%Z
    ∧ skipped Phase1.parse_line labels (take 2 Sample.unresolved) = 1%Z
    ∧ address (Sample.final
                 (for_lines (Phase1.transform_line labels) 0
                    (firstn 2 Sample.unresolved) initial)) = 1%Z
    ∧ Phase1.main Sample.unresolved
      = Run 0 ["x: DATA 0"; "       LOAD  r2,r0,r15[0] #x  "] []
          ["Unknown word in line 0: 'nolabel'"]
    ∧ Fadfa.main Sample.unresolved
      = Run 0 ["x:   DATA  0  "; "       LOAD  r2,r0,r15[0] #x  "]
          ["Unknown word in line 0: 'nolabel'"] [].
Proof.
  exists (<["x" := 1%Z]> ∅). repeat split; vm_compute; reflexivity.
Qed.

(** Claim C7 as stated fails: a predicate in lower case is a syntax error in
    both programs, and [assembler_phase1.py] prints an opcode in lower case
    as it was written. *)
Lemma lower_case_is_not_normalized :
  Phase1.parse_line "ADD/z r1,r2,r3"
  = Raise (SyntaxError "Assembler syntax error in ADD/z r1,r2,r3")
  ∧ Fadfa.parse_line "ADD/z r1,r2,r3"
    = Raise (SyntaxError "Assembler syntax error in ADD/z r1,r2,r3")
  ∧ Phase1.main ["load r1,x"; "x: DATA 1"]
    = Run 0 ["       load  r1,r0,r15[1] #x  "; "x: DATA 1"] [] [].
Proof. repeat split; vm_compute; reflexivity. Qed.

Lemma P1_transform_all_ok lines labels :
  Phase1.resolve lines = Ok labels →
  Forall (λ raw, fails Phase1.parse_line labels raw = false) lines →
  ∃ out,
    Phase1.transform lines initial
    = (Ok out, TState 0 (addresses Phase1.parse_line lines) out [] [])
    ∧ length out = length lines
    ∧ ∀ i raw, lines !! i = Some raw →
        ∃ f s text,
          out !! i = Some text
          ∧ address s = address_of Phase1.parse_line lines i
          ∧ Phase1.parse_line (Str.rstrip raw) = Ok f
          ∧ Phase1.rewrite_line labels (Str.rstrip raw) s
            = (Ok tt, emitted s text (occupies f)).
Proof.
  eapply (LoopFacts.transform_all_ok Phase1.parse_line Phase1.rewrite_line
            Phase1.transform_line); variant.
Qed.

Lemma FA_transform_all_ok lines labels :
  Fadfa.resolve lines = Ok labels →
  Forall (λ raw, fails Fadfa.parse_line labels raw = false) lines →
  ∃ out,
    Fadfa.transform lines initial
    = (Ok out, TState 0 (addresses Fadfa.parse_line lines) out [] [])
    ∧ length out = length lines
    ∧ ∀ i raw, lines !! i = Some raw →
        ∃ f s text,
          out !! i = Some text
          ∧ address s = address_of Fadfa.parse_line lines i
          ∧ Fadfa.parse_line (Str.rstrip raw) = Ok f
          ∧ Fadfa.rewrite_line labels (Str.rstrip raw) s
            = (Ok tt, emitted s text (occupies f)).
Proof.
  eapply (LoopFacts.transform_all_ok Fadfa.parse_line Fadfa.rewrite_line
            Fadfa.transform_line); variant.
Qed.

Lemma all_bound_no_failure parse_line labels lines :
  Forall (λ raw, ∃ f, parse_line (Str.rstrip raw) = Ok f
                      ∧ ∀ ref, refers f = Some ref → is_Some (labels !! ref))
         lines →
  Forall (λ raw, fails parse_line labels raw = false) lines.
Proof.
  intros H. eapply Forall_impl; [exact H|].
  intros raw (f & Hp & Hb). by apply (bound_not_fails _ _ _ f).
Qed.

Lemma full_or_data_not_fails parse_line labels raw :
  (∃ f, parse_line (Str.rstrip raw) = Ok f ∧ (kind f = FULL ∨ kind f = DATA)) →
  fails parse_line labels raw = false.
Proof.
  intros (f & Hp & Hk). unfold fails, unbound, refers. rewrite Hp.
  by destruct Hk as [-> | ->].
Qed.

(** Claim C8, amended.  When every line is a FULL or a DATA line,
    [assembler_phase1.py] emits every line as it is, without the white space
    at its end.  [fadfa.py] emits one line for each line; for a FULL line,
    and for a DATA line that has a value and no predicate, the emitted line
    differs from the given one only in white space and in the case of the
    opcode, which is printed in capital letters. *)
Theorem full_and_data_lines_pass_through :
  (∀ lines,
     Forall (λ raw, ∃ f, Phase1.parse_line (Str.rstrip raw) = Ok f
                         ∧ (kind f = FULL ∨ kind f = DATA)) lines →
     Phase1.main lines = Run 0 (map Str.rstrip lines) [] [])
  ∧ (∀ lines,
     Forall (λ raw, ∃ f, Fadfa.parse_line (Str.rstrip raw) = Ok f
                         ∧ (kind f = FULL ∨ kind f = DATA)) lines →
     ∃ out,
       Fadfa.main lines = Run 0 out [] []
       ∧ length out = length lines
       ∧ ∀ i raw f,
           lines !! i = Some raw →
           Fadfa.parse_line (Str.rstrip raw) = Ok f →
           kind f = FULL
           ∨ (kind f = DATA ∧ field f "predicate" = None
              ∧ is_Some (field f "value")) →
           ∃ text pre op post,
             out !! i = Some text
             ∧ Str.rstrip raw = pre +:+ op +:+ post
             ∧ field f "opcode" = Some op
             ∧ Str.without_spaces text
               = Str.without_spaces (pre +:+ Str.upper op +:+ post)).
Proof.
  split.
  - intros lines Hall.
    destruct (ResolveFacts.resolve_binds Phase1.parse_line P1.parsed_label
                P1_raises lines) as (labels & Hres & _).
    assert (Hok : Forall (λ raw, fails Phase1.parse_line labels raw = false)
                    lines).
    { eapply Forall_impl; [exact Hall|]. intros raw H.
      by apply full_or_data_not_fails. }
    destruct (P1_transform_all_ok lines labels Hres Hok)
      as (out & Hrun & Hlen & Hout).
    unfold Phase1.main, main_of. rewrite Hrun. f_equal.
    apply list_eq. intros i. rewrite list_lookup_fmap.
    destruct (lines !! i) as [raw|] eqn:Hi; simpl.
    + destruct (Hout i raw Hi) as (f & s & text & Ho & _ & Hp & Hrw).
      rewrite Ho. f_equal.
      rewrite Forall_forall in Hall.
      destruct (Hall raw) as (f' & Hp' & Hk).
      { by eapply list_elem_of_lookup_2. }
      rewrite Hp in Hp'. injection Hp' as <-.
      rewrite (P1.rewrite_line_pass _ _ _ _ Hp Hk) in Hrw.
      apply (f_equal snd), emitted_inj in Hrw. done.
    + apply lookup_ge_None in Hi. apply lookup_ge_None. lia.
  - intros lines Hall.
    destruct (ResolveFacts.resolve_binds Fadfa.parse_line FA.parsed_label_fa
                FA_raises lines) as (labels & Hres & _).
    assert (Hok : Forall (λ raw, fails Fadfa.parse_line labels raw = false)
                    lines).
    { eapply Forall_impl; [exact Hall|]. intros raw H.
      by apply full_or_data_not_fails. }
    destruct (FA_transform_all_ok lines labels Hres Hok)
      as (out & Hrun & Hlen & Hout).
    exists out. unfold Fadfa.main, main_of. rewrite Hrun.
    split; [done|]. split; [done|].
    intros i raw f Hi Hp Hk.
    destruct (Hout i raw Hi) as (f' & s & text & Ho & _ & Hp' & Hrw).
    rewrite Hp in Hp'. injection Hp' as <-.
    exists text.
    destruct (FA.parse_pattern_fa _ _ Hp) as (pat & kd & m & Hin & D & ->).
    unfold Fadfa.PATTERNS in Hin.
    pattern_cases Hin; cbn [kind] in Hk;
      (destruct Hk as [Hk|(Hk & Hpr & Hv)]; try discriminate).
    + destruct (full_shape _ _ FULL D) as (pre & op & post & Hl & Hop & Hws).
      exists pre, op, post.
      assert (Hfo : field (Dict FULL (groupdict Fadfa.ASM_FULL_PAT m))
                      "opcode" = Some op)
        by (by rewrite field_groupdict).
      repeat split; [done..|].
      destruct (FA.rewrite_line_full _ _ Hp eq_refl) as (op' & Ho' & Hrw').
      rewrite Hfo in Ho'. injection Ho' as <-.
      rewrite Hrw' in Hrw. apply (f_equal snd), emitted_inj in Hrw.
      rewrite <- Hrw. apply Hws.
    + rewrite field_groupdict in Hpr, Hv by reflexivity.
      destruct (data_shape _ _ DATA D Hpr Hv) as (pre & op & post & Hl & Hop & Hws).
      exists pre, op, post.
      assert (Hfo : field (Dict DATA (groupdict Fadfa.ASM_DATA_PAT m))
                      "opcode" = Some op)
        by (by rewrite field_groupdict).
      repeat split; [done..|].
      destruct (FA.rewrite_line_data _ _ Hp eq_refl) as (op' & Ho' & Hrw').
      rewrite Hfo in Ho'. injection Ho' as <-.
      rewrite Hrw' in Hrw. apply (f_equal snd), emitted_inj in Hrw.
      rewrite <- Hrw. apply Hws.
Qed.

Lemma full_and_data_lines_pass_through_witness :
  Forall (λ raw, ∃ f, Phase1.parse_line (Str.rstrip raw) = Ok f
                      ∧ (kind f = FULL ∨ kind f = DATA)) Sample.plain
  ∧ Phase1.main Sample.plain = Run 0 (map Str.rstrip Sample.plain) [] [].
Proof.
  assert (H : Forall (λ raw, ∃ f, Phase1.parse_line (Str.rstrip raw) = Ok f
                      ∧ (kind f = FULL ∨ kind f = DATA)) Sample.plain).
  { repeat constructor; eexists; (split; [vm_compute; reflexivity|]);
      [left|right]; reflexivity. }
  split; [exact H|].
  exact (proj1 full_and_data_lines_pass_through Sample.plain H).
Defined.

(** Claim C8 as stated fails: [fadfa.py] changes the case of the opcode of
    a FULL line. *)
Lemma opcode_changes_case :
  Fadfa.main ["add r1,r2,r3"] = Run 0 ["       ADD  r1,r2,r3  "] [] []
  ∧ Str.without_spaces "       ADD  r1,r2,r3  " = "ADDr1,r2,r3"
  ∧ Str.without_spaces "add r1,r2,r3" = "addr1,r2,r3".
Proof. repeat split; vm_compute; reflexivity. Qed.

(** Claim C9 does not hold of the code for a DATA line without a value.
    What holds: in both programs the value of a line, when it has one, is a
    text of decimal digits or [0x] and a text of hexadecimal digits, and
    only a DATA line has one; [value_parse] reads such a text in base 16,
    and in base 10 when it has at most 4300 digits; on a text of more
    decimal digits [int] raises ValueError, and so does [value_parse].  A
    DATA line without a value is not given the value 0: [fadfa.py] emits
    the word None in the place of the value, and the line that it emits is
    not a line of the assembly language any more; [assembler_phase1.py]
    emits the line as it is, without a value. *)
Theorem data_value_literal_absent_value_None :
  (∀ line f v,
     Phase1.parse_line line = Ok f → field f "value" = Some v →
     kind f = DATA ∧ (Str.hexadecimal v ∨ Str.decimal v))
  ∧ (∀ line f v,
     Fadfa.parse_line line = Ok f → field f "value" = Some v →
     kind f = DATA ∧ (Str.hexadecimal v ∨ Str.decimal v))
  ∧ (∀ h, h ≠ "" → Str.forallb Str.is_hex h = true →
          Phase1.value_parse ("0x" +:+ h) = Ok (Str.number 16 h))
  ∧ (∀ d, d ≠ "" → Str.forallb Str.is_digit d = true →
          (String.length d ≤ 4300)%nat →
          Phase1.value_parse d = Ok (Str.number 10 d))
  ∧ (∀ d, Str.forallb Str.is_digit d = true →
          (4300 < String.length d)%nat →
          Phase1.value_parse d
          = Raise (Phase1.exceeds_limit (String.length d)))
  ∧ field (Sample.parsed (Phase1.parse_line "x: DATA 0x2a # answer")) "value"
    = Some "0x2a"
  ∧ Phase1.value_parse "0x2a" = Ok 42%Z
  ∧ Phase1.parse_line "x: DATA -5"
    = Raise (SyntaxError "Assembler syntax error in x: DATA -5")
  ∧ Fadfa.main ["x: DATA"] = Run 0 ["x:   DATA  None  "] [] []
  ∧ Phase1.main ["x: DATA"] = Run 0 ["x: DATA"] [] []
  ∧ Phase1.parse_line "x:   DATA  None" =
    Raise (SyntaxError "Assembler syntax error in x:   DATA  None").
Proof.
  split; [exact P1_value|]. split; [exact FA_value|].
  split; [exact value_parse_hexadecimal|].
  split; [exact value_parse_decimal|].
  split; [exact value_parse_too_long|].
  repeat split; vm_compute; reflexivity.
Qed.

(** Claim C10.  In both programs, when every line matches a pattern and
    every label that a MEMOP or JUMP line refers to is bound in the table
    that [resolve] builds from the same lines, the run ends with exit status
    0 and prints no diagnostic; it emits as many lines as it was given, and
    the line emitted at position [i] is what [rewrite_line] makes of the
    line given at position [i], at the address of that line. *)
Theorem one_output_line_per_input_line :
  (∀ lines labels,
     Phase1.resolve lines = Ok labels →
     Forall (λ raw, ∃ f, Phase1.parse_line (Str.rstrip raw) = Ok f
                         ∧ ∀ ref, refers f = Some ref →
                                  is_Some (labels !! ref)) lines →
     ∃ out,
       Phase1.main lines = Run 0 out [] []
       ∧ length out = length lines
       ∧ ∀ i raw, lines !! i = Some raw →
           ∃ f s text,
             out !! i = Some text
             ∧ address s = address_of Phase1.parse_line lines i
             ∧ Phase1.parse_line (Str.rstrip raw) = Ok f
             ∧ Phase1.rewrite_line labels (Str.rstrip raw) s
               = (Ok tt, emitted s text (occupies f)))
  ∧ (∀ lines lables,
     Fadfa.resolve lines = Ok lables →
     Forall (λ raw, ∃ f, Fadfa.parse_line (Str.rstrip raw) = Ok f
                         ∧ ∀ ref, refers f = Some ref →
                                  is_Some (lables !! ref)) lines →
     ∃ out,
       Fadfa.main lines = Run 0 out [] []
       ∧ length out = length lines
       ∧ ∀ i raw, lines !! i = Some raw →
           ∃ f s text,
             out !! i = Some text
             ∧ address s = address_of Fadfa.parse_line lines i
             ∧ Fadfa.parse_line (Str.rstrip raw) = Ok f
             ∧ Fadfa.rewrite_line lables (Str.rstrip raw) s
               = (Ok tt, emitted s text (occupies f))).
Proof.
  split; intros lines labels Hres Hall%all_bound_no_failure.
  - destruct (P1_transform_all_ok lines labels Hres Hall)
      as (out & Hrun & Hlen & Hout).
    exists out. unfold Phase1.main, main_of. rewrite Hrun. done.
  - destruct (FA_transform_all_ok lines labels Hres Hall)
      as (out & Hrun & Hlen & Hout).
    exists out. unfold Fadfa.main, main_of. rewrite Hrun. done.
Qed.

Lemma one_output_line_per_input_line_witness :
  Phase1.resolve Sample.program = Ok Sample.table
  ∧ Forall (λ raw, ∃ f, Phase1.parse_line (Str.rstrip raw) = Ok f
                        ∧ ∀ ref, refers f = Some ref →
                                 is_Some (Sample.table !! ref)) Sample.program
  ∧ ∃ out, Phase1.main Sample.program = Run 0 out [] []
           ∧ length out = length Sample.program.
Proof.
  assert (H1 : Phase1.resolve Sample.program = Ok Sample.table)
    by (vm_compute; reflexivity).
  assert (H2 : Forall (λ raw, ∃ f, Phase1.parse_line (Str.rstrip raw) = Ok f
                        ∧ ∀ ref, refers f = Some ref →
                                 is_Some (Sample.table !! ref)) Sample.program).
  { repeat constructor;
      (eexists; split; [vm_compute; reflexivity|]; intros ref Hr;
       vm_compute in Hr; try discriminate; injection Hr as <-;
       eexists; vm_compute; reflexivity). }
  split; [exact H1|]. split; [exact H2|].
  destruct (proj1 one_output_line_per_input_line Sample.program Sample.table
              H1 H2) as (out & Hrun & Hlen & _).
  exists out. split; assumption.
Defined.

End Claims.

(** * Further properties of the two programs *)

From Stdlib Require Import DecimalPos.

(** ** The matcher finds every match *)

Module ReComplete.
Import Re StrFacts ReFacts.

Lemma bind_cursors (l1 l2 : list (cursor * captures))
    (g : cursor * captures → list (cursor * captures)) :
  l1.*1 = l2.*1 →
  (∀ cur c c', (g (cur, c)).*1 = (g (cur, c')).*1) →
  (l1 ≫= g).*1 = (l2 ≫= g).*1.
Proof.
  intros E Hg. revert l2 E.
  induction l1 as [|[cur c] l1 IH]; intros [|[cur' c'] l2]; try done.
  simpl. intros [= -> E]. rewrite !fmap_app, (Hg cur' c c'). f_equal. by apply IH.
Qed.

Lemma iterate_cursors step :
  (∀ cur c c', (step cur c).*1 = (step cur c').*1) →
  ∀ n cur c c', (iterate step n cur c).*1 = (iterate step n cur c').*1.
Proof.
  intros Hstep n. induction n as [|n IH]; intros cur c c'; [done|].
  cbn [iterate]. rewrite !fmap_app. f_equal.
  apply bind_cursors; [apply Hstep|].
  intros cur1 c1 c1'. simpl. destruct (_ <? _)%nat; [apply IH|done].
Qed.

(** Where the matcher can stop does not depend on the groups. *)
Lemma rmatch_cursors r :
  ∀ cur c c', (rmatch r cur c).*1 = (rmatch r cur c').*1.
Proof.
  induction r as [|f|l|r1 IH1 r2 IH2|r1 IH1 r2 IH2|r1 IH1|r1 IH1|r1 IH1
                  |name r1 IH1|r1 IH1| |];
    intros cur c c'; cbn [rmatch].
  - done.
  - destruct (rest cur) as [|a s]; [done|]. by destruct (f a).
  - by destruct (Str.strip_prefix l (rest cur)).
  - apply bind_cursors; [apply IH1|]. intros; apply IH2.
  - by rewrite !fmap_app, (IH1 cur c c'), (IH2 cur c c').
  - by rewrite !fmap_app, (IH1 cur c c').
  - by apply iterate_cursors.
  - apply bind_cursors; [apply IH1|]. intros; by apply iterate_cursors.
  - apply bind_cursors; [apply IH1|]. done.
  - specialize (IH1 cur c c').
    destruct (rmatch r1 cur c), (rmatch r1 cur c'); done.
  - by destruct (xorb _ _).
  - destruct (rest cur) as [|a [|b s]]; try done. by destruct (Str.is_char _ _).
Qed.

Lemma rmatch_nil r cur c c' : rmatch r cur c = [] → rmatch r cur c' = [].
Proof.
  intros E. apply (f_equal (fmap fst)) in E.
  rewrite (rmatch_cursors r cur c c') in E. by apply fmap_nil_inv in E.
Qed.

Lemma iterate_complete step R :
  (∀ p w t c c', R p w t c c' → finds step p w t) →
  ∀ p w t c c', rep R p w t c c' →
  ∀ n, (String.length (w +:+ t) ≤ n)%nat → finds (iterate step n) p w t.
Proof.
  intros Hstep p w t c c'. induction 1 as [p t c|p w1 w2 t c c1 c2 D _ IH];
    intros n Hn c0.
  - exists c0. destruct n; simpl; [left|]. apply elem_of_app; right; left.
  - destruct w1 as [|a w1].
    + rewrite string_app_nil_l in *. simpl in IH. by apply IH.
    + destruct n as [|n]; [rewrite !string_app_cons in Hn; simpl in Hn; lia|].
      destruct (Hstep _ _ _ _ _ D c0) as [c1' H1].
      rewrite string_app_assoc in *.
      destruct (IH n) with (c0 := c1') as [c2' H2].
      { rewrite string_app_cons in Hn; simpl in Hn.
        rewrite (string_length_app w1) in Hn. lia. }
      exists c2'. cbn [iterate]. apply elem_of_app; left.
      apply list_elem_of_bind. eexists; split; [|exact H1]. cbn [rest].
      rewrite string_last_app.
      destruct (Nat.ltb_spec (String.length (w2 +:+ t))
                  (String.length (String a w1 +:+ (w2 +:+ t)))) as [|Hge];
        [done|].
      rewrite string_app_cons in Hge; simpl in Hge.
      rewrite (string_length_app w1) in Hge. lia.
Qed.

Lemma rmatch_complete r :
  ∀ p w t c c', den r p w t c c' → finds (rmatch r) p w t.
Proof.
  induction r as [|f|l|r1 IH1 r2 IH2|r1 IH1 r2 IH2|r1 IH1|r1 IH1|r1 IH1
                  |name r1 IH1|r1 IH1| |];
    intros p w t c c'; cbn [den]; unfold finds; cbn [rmatch rest prev].
  - intros [-> _] c0. exists c0. left.
  - intros (a & -> & Ha & _) c0. exists c0.
    rewrite string_app_cons, string_app_nil_l, Ha. left.
  - intros [-> _] c0. exists c0. rewrite strip_prefix_app. left.
  - intros (w1 & w2 & c1 & -> & D1 & D2) c0.
    destruct (IH1 _ _ _ _ _ D1 c0) as [c1' H1].
    destruct (IH2 _ _ _ _ _ D2 c1') as [c2' H2].
    exists c2'. rewrite string_app_assoc, string_last_app.
    apply list_elem_of_bind. eexists; split; [|exact H1]. exact H2.
  - intros [D|D] c0.
    + destruct (IH1 _ _ _ _ _ D c0) as [c1 H1]. exists c1.
      apply elem_of_app; by left.
    + destruct (IH2 _ _ _ _ _ D c0) as [c1 H1]. exists c1.
      apply elem_of_app; by right.
  - intros [D|[-> _]] c0.
    + destruct (IH1 _ _ _ _ _ D c0) as [c1 H1]. exists c1.
      apply elem_of_app; by left.
    + exists c0. apply elem_of_app; right; left.
  - intros D c0. by apply (iterate_complete _ _ IH1 _ _ _ _ _ D).
  - intros (w1 & w2 & c1 & -> & D1 & D2) c0.
    destruct (IH1 _ _ _ _ _ D1 c0) as [c1' H1].
    destruct (iterate_complete _ _ IH1 _ _ _ _ _ D2
                (String.length (w2 +:+ t)) (le_n _) c1') as [c2' H2].
    exists c2'. rewrite string_app_assoc, string_last_app.
    apply list_elem_of_bind. eexists; split; [|exact H1]. exact H2.
  - intros (c1 & D & _) c0. destruct (IH1 _ _ _ _ _ D c0) as [c1' H1].
    eexists. apply list_elem_of_bind. eexists; split; [|exact H1]. left.
  - intros (-> & _ & E) c0. exists c0. rewrite string_app_nil_l.
    rewrite (rmatch_nil _ _ _ c0 E). left.
  - intros (-> & _ & E) c0. exists c0. rewrite string_app_nil_l, E. left.
  - intros (-> & _ & [->| ->]) c0; exists c0; left.
Qed.

Lemma first_full_is_Some l cur c :
  (cur, c) ∈ l → rest cur = "" → is_Some (first_full l).
Proof.
  induction l as [|[cur' c'] l IH]; [by intros ?%elem_of_nil|].
  intros [[= <- <-]|Hin]%elem_of_cons E; simpl.
  - rewrite E. eauto.
  - destruct (rest cur'); [eauto|by apply IH].
Qed.

(** A text of the language is matched in full. *)
Lemma fullmatch_complete r s c c' :
  den r None s "" c c' → ∃ m, fullmatch r s = Some m ∧ den r None s "" ∅ m.
Proof.
  intros D. destruct (rmatch_complete r _ _ _ _ _ D ∅) as [c1 Hin].
  rewrite string_app_nil_r in Hin.
  destruct (first_full_is_Some _ _ _ Hin eq_refl) as [m Hm].
  exists m. split; [done|by apply fullmatch_sound].
Qed.

End ReComplete.

(** ** Texts that the pieces of the grammars accept *)

Module Lang.
Import Re Asm StrFacts ReFacts AsmFacts Shapes Pieces ReComplete Text.

Lemma lang_lit l : lang (Lit l) l.
Proof. intros p t c. by exists c. Qed.

Lemma lang_seq r1 r2 w1 w2 :
  lang r1 w1 → lang r2 w2 → lang (Seq r1 r2) (w1 +:+ w2).
Proof.
  intros H1 H2 p t c. destruct (H1 p (w2 +:+ t) c) as [c1 D1].
  destruct (H2 (Str.last w1 p) t c1) as [c2 D2].
  exists c2, w1, w2, c1. done.
Qed.

Lemma lang_alt_l r1 r2 w : lang r1 w → lang (Alt r1 r2) w.
Proof. intros H p t c. destruct (H p t c) as [c' D]. exists c'. by left. Qed.

Lemma lang_alt_r r1 r2 w : lang r2 w → lang (Alt r1 r2) w.
Proof. intros H p t c. destruct (H p t c) as [c' D]. exists c'. by right. Qed.

Lemma lang_opt r w : lang r w → lang (Opt r) w.
Proof. intros H p t c. destruct (H p t c) as [c' D]. exists c'. by left. Qed.

Lemma lang_opt_none r : lang (Opt r) "".
Proof. intros p t c. exists c. by right. Qed.

Lemma lang_named k r w : lang r w → lang (Named k r) w.
Proof. intros H p t c. destruct (H p t c) as [c' D]. eexists _, c'. done. Qed.

Lemma rep_class_intro f w : ∀ p t (c : captures),
  Str.forallb f w = true → rep (den (Class f)) p w t c c.
Proof.
  induction w as [|a w IH]; intros p t c; [constructor|]. simpl.
  intros [Ha Hw]%andb_prop.
  apply (rep_more _ p (String a "") w t c c c); [by exists a|by apply IH].
Qed.

Lemma lang_star_class f w :
  Str.forallb f w = true → lang (Star (Class f)) w.
Proof. intros H p t c. exists c. by apply rep_class_intro. Qed.

Lemma lang_plus_class f w :
  w ≠ "" → Str.forallb f w = true → lang (Plus (Class f)) w.
Proof.
  destruct w as [|a w]; [done|]. simpl. intros _ [Ha Hw]%andb_prop p t c.
  exists c, (String a ""), w, c. repeat split; [by exists a|].
  by apply rep_class_intro.
Qed.

Lemma lang_class f a : f a = true → lang (Class f) (String a "").
Proof. intros H p t c. exists c, a. done. Qed.

Lemma lang_spaces w : blank w → lang spaces w.
Proof. apply lang_star_class. Qed.

Lemma lang_spaces1 w : w ≠ "" → blank w → lang spaces1 w.
Proof. apply lang_plus_class. Qed.

(** The pieces of a line, both ways. *)
Lemma ident_shape p w t (c c' : captures) : den ident p w t c c' → identifier w.
Proof.
  intros (w1 & w2 & c1 & -> & (a & -> & Ha & _) & [Hw _]%rep_class).
  by exists a, w2.
Qed.

Lemma lang_ident w : identifier w → lang ident w.
Proof.
  intros (a & w' & -> & Ha & Hw).
  apply (lang_seq _ _ (String a "") w'); [by apply lang_class|].
  by apply lang_star_class.
Qed.

Lemma register_shape p w t (c c' : captures) :
  den register p w t c c' → register_name w.
Proof.
  intros (w1 & w2 & c1 & -> & (-> & _) & (? & ? & _)%den_plus_class).
  by exists w2.
Qed.

Lemma lang_register w : register_name w → lang register w.
Proof.
  intros (d & -> & Hne & Hd).
  apply lang_seq; [apply lang_lit|by apply lang_plus_class].
Qed.

Lemma offset_shape p w t (c c' : captures) :
  den (Seq (Opt (Lit "-")) (Plus (Class Str.is_digit))) p w t c c' →
  signed_decimal w.
Proof.
  intros (w1 & w2 & c1 & -> & [(-> & _)|(-> & _)]
          & (? & ? & _)%den_plus_class).
  - right. by exists w2.
  - by left.
Qed.

Lemma lang_offset w :
  signed_decimal w →
  lang (Seq (Opt (Lit "-")) (Plus (Class Str.is_digit))) w.
Proof.
  intros [[Hne Hd]|(d & -> & Hne & Hd)].
  - apply (lang_seq _ _ "" w); [apply lang_opt_none|by apply lang_plus_class].
  - apply lang_seq; [apply lang_opt, lang_lit|by apply lang_plus_class].
Qed.

Lemma remark_shape p w t (c c' : captures) :
  den (Seq (Class (fun c => Str.is_char "#" c || Str.is_char ";" c))
           (Star (Class Str.is_dot))) p w t c c' →
  remark w.
Proof.
  intros (w1 & w2 & c1 & -> & (a & -> & Ha & _) & [Hw _]%rep_class).
  by exists a, w2.
Qed.

Lemma lang_comment_group w : remark w → lang comment_group w.
Proof.
  intros (a & w' & -> & Ha & Hw). apply lang_named.
  apply (lang_seq _ _ (String a "") w'); [by apply lang_class|].
  by apply lang_star_class.
Qed.

End Lang.

(** ** The form of the fields of a parsed line *)

Module FieldShapes.
Import Re Asm StrFacts ReFacts AsmFacts Shapes Pieces ReComplete Text Lang.

Ltac membership H :=
  repeat (apply elem_of_cons in H as [->|H]); try (by apply elem_of_nil in H).

Ltac shape Q D :=
  let v := fresh "v" in let Hv := fresh "Hv" in
  intros v Hv; apply (field_shape Q _ _ _ _ _ _ D) in Hv; [exact Hv|];
  let Hr := fresh "Hr" in let D1 := fresh "D1" in
  intros ? ? ? ? ? ? Hr D1; cbn in Hr; membership Hr;
  first [ by eapply ident_shape | by eapply register_shape
        | by eapply offset_shape | by eapply remark_shape ].

Lemma P1_fields line f :
  Phase1.parse_line line = Ok f →
  (∀ v, field f "label" = Some v → identifier v)
  ∧ (∀ v, field f "labelref" = Some v → identifier v)
  ∧ (∀ v, field f "target" = Some v → register_name v)
  ∧ (∀ v, field f "src1" = Some v → register_name v)
  ∧ (∀ v, field f "src2" = Some v → register_name v)
  ∧ (∀ v, field f "offset" = Some v → signed_decimal v)
  ∧ (∀ v, field f "comment" = Some v → remark v).
Proof.
  intros (pat & kd & m & Hin & D & ->)%P1.parse_pattern.
  unfold Phase1.PATTERNS in Hin. pattern_cases Hin.
  all: split; [shape identifier D|].
  all: split; [shape identifier D|].
  all: split; [shape register_name D|].
  all: split; [shape register_name D|].
  all: split; [shape register_name D|].
  all: split; [shape signed_decimal D|].
  all: shape remark D.
Qed.

Lemma FA_fields line f :
  Fadfa.parse_line line = Ok f →
  (∀ v, field f "label" = Some v → identifier v)
  ∧ (∀ v, field f "labelref" = Some v → identifier v)
  ∧ (∀ v, field f "target" = Some v → register_name v)
  ∧ (∀ v, field f "src1" = Some v → register_name v)
  ∧ (∀ v, field f "src2" = Some v → register_name v)
  ∧ (∀ v, field f "offset" = Some v → signed_decimal v)
  ∧ (∀ v, field f "comment" = Some v → remark v).
Proof.
  intros (pat & kd & m & Hin & D & ->)%FA.parse_pattern_fa.
  unfold Fadfa.PATTERNS in Hin. pattern_cases Hin.
  all: split; [shape identifier D|].
  all: split; [shape identifier D|].
  all: split; [shape register_name D|].
  all: split; [shape register_name D|].
  all: split; [shape register_name D|].
  all: split; [shape signed_decimal D|].
  all: shape remark D.
Qed.

End FieldShapes.

(** ** Fully specified instructions are accepted *)

Module Accepts.
Import Re Asm StrFacts ReFacts AsmFacts Shapes Pieces ReComplete Text Lang FieldShapes.

Lemma closes_seq r1 r2 w1 w2 :
  lang r1 w1 → closes r2 w2 → closes (Seq r1 r2) (w1 +:+ w2).
Proof.
  intros H1 H2 p c. destruct (H1 p (w2 +:+ "") c) as [c1 D1].
  destruct (H2 (Str.last w1 p) c1) as [c2 D2].
  exists c2, w1, w2, c1. done.
Qed.

Lemma closes_end w : blank w → closes (Seq spaces EndAnchor) w.
Proof.
  intros Hw p c. destruct (lang_spaces w Hw p "" c) as [c1 D1].
  exists c1, w, "", c1. rewrite string_app_nil_r. repeat split; auto.
Qed.

Lemma lang_opt_label l :
  (∀ v, l = Some v → identifier v) → lang opt_label (label_piece l).
Proof.
  destruct l as [v|]; intros H; [|apply lang_opt_none].
  apply lang_opt, lang_seq; [|apply lang_lit].
  apply lang_named, lang_ident. auto.
Qed.

Lemma lang_opt_predicate o :
  (∀ v, o = Some v → Str.capitals v) → lang opt_predicate (predicate_text o).
Proof.
  destruct o as [v|]; intros H; [|apply lang_opt_none].
  apply lang_opt, lang_seq; [apply lang_lit|].
  apply lang_named. destruct (H v eq_refl). by apply lang_plus_class.
Qed.

Lemma lang_opt_offset o :
  (∀ v, o = Some v → signed_decimal v) →
  lang (Opt (seq [Lit "["; Named "offset" (Seq (Opt (Lit "-"))
                                              (Plus (Class Str.is_digit)));
                  Lit "]"]))
       (offset_text o).
Proof.
  destruct o as [v|]; intros H; [|apply lang_opt_none].
  apply lang_opt. cbn [seq]. apply lang_seq; [apply lang_lit|].
  apply lang_seq; [|apply lang_lit]. apply lang_named, lang_offset. auto.
Qed.

Lemma lang_opt_comment sp o :
  blank sp → (∀ v, o = Some v → remark v) → (o = None → sp = "") →
  lang (Opt (Seq spaces comment_group)) (sp +:+ comment_text o).
Proof.
  destruct o as [v|]; intros Hs H Hn.
  - apply lang_opt, lang_seq; [by apply lang_spaces|].
    apply lang_comment_group. auto.
  - rewrite Hn by done. apply lang_opt_none.
Qed.

(** The lines that the FULL pattern accepts: every line that is made of
    the pieces of a fully specified instruction. *)
Lemma full_accepts sp1 l sp2 op o sp3 tgt s1 s2 off sp4 cm sp5 :
  blank sp1 → (∀ v, l = Some v → identifier v) → blank sp2 →
  Str.letters op → (∀ v, o = Some v → Str.capitals v) →
  sp3 ≠ "" → blank sp3 →
  register_name tgt → register_name s1 → register_name s2 →
  (∀ v, off = Some v → signed_decimal v) →
  blank sp4 → (∀ v, cm = Some v → remark v) → (cm = None → sp4 = "") →
  blank sp5 →
  closes Phase1.ASM_FULL_PAT
    (sp1 +:+ label_piece l +:+ sp2 +:+ op +:+ predicate_text o +:+ sp3
     +:+ tgt +:+ "," +:+ s1 +:+ "," +:+ s2 +:+ offset_text off
     +:+ (sp4 +:+ comment_text cm) +:+ sp5).
Proof.
  intros H1 Hl H2 [Hop Hop'] Ho H3 H3' Ht Hs1 Hs2 Hoff H4 Hcm Hcm' H5.
  unfold Phase1.ASM_FULL_PAT. cbn [seq].
  apply closes_seq; [by apply lang_spaces|].
  apply closes_seq; [by apply lang_opt_label|].
  apply closes_seq; [by apply lang_spaces|].
  apply closes_seq; [by apply lang_named, lang_plus_class|].
  apply closes_seq; [by apply lang_opt_predicate|].
  apply closes_seq; [by apply lang_spaces1|].
  apply closes_seq; [by apply lang_named, lang_register|].
  apply closes_seq; [apply lang_lit|].
  apply closes_seq; [by apply lang_named, lang_register|].
  apply closes_seq; [apply lang_lit|].
  apply closes_seq; [by apply lang_named, lang_register|].
  apply closes_seq; [by apply lang_opt_offset|].
  apply closes_seq; [by apply lang_opt_comment|].
  by apply closes_end.
Qed.

Lemma fadfa_full : Fadfa.ASM_FULL_PAT = Phase1.ASM_FULL_PAT.
Proof. reflexivity. Qed.

(** [str(n)] is a decimal literal with or without a sign. *)
Lemma string_of_uint_digits d :
  Str.forallb Str.is_digit (NilEmpty.string_of_uint d) = true.
Proof. induction d; simpl; auto. Qed.

Lemma of_Z_signed z : signed_decimal (Str.of_Z z).
Proof.
  assert (H : ∀ d, Str.decimal (NilZero.string_of_uint d)).
  { intros d. split.
    - by destruct d.
    - destruct d; try apply string_of_uint_digits. done. }
  unfold Str.of_Z. destruct z as [|q|q]; simpl.
  - by left.
  - left. apply H.
  - right. eexists. split; [reflexivity|apply H].
Qed.

End Accepts.

(** ** [rstrip] *)

Module Rstrip.
Import Str StrFacts Text.

Lemma rstrip_cons c s :
  rstrip (String c s)
  = if forallb is_space (String c s) then "" else String c (rstrip s).
Proof.
  revert c. induction s as [|b s IH]; intros c; cbn [rstrip forallb].
  - by destruct (is_space c).
  - specialize (IH b). cbn [rstrip forallb] in IH.
    destruct (rstrip s) as [|e r] eqn:E.
    + destruct (is_space b) eqn:Hb; simpl in *.
      * destruct (forallb is_space s); [|done].
        by destruct (is_space c).
      * by rewrite andb_false_r.
    + destruct (is_space b); simpl in *.
      * destruct (forallb is_space s); [done|]. by rewrite andb_false_r.
      * by rewrite andb_false_r.
Qed.

Lemma rstrip_blank s : forallb is_space s = true → rstrip s = "".
Proof. destruct s as [|c s]; [done|]. rewrite rstrip_cons. by intros ->. Qed.

Lemma rstrip_nil s : rstrip s = "" → forallb is_space s = true.
Proof.
  destruct s as [|c s]; [done|]. rewrite rstrip_cons.
  by destruct (forallb is_space (String c s)).
Qed.

Lemma rstrip_app_r x y : rstrip y ≠ "" → rstrip (x +:+ y) = x +:+ rstrip y.
Proof.
  intros Hy. induction x as [|a x IH]; [done|].
  rewrite !string_app_cons, rstrip_cons, IH.
  destruct (forallb is_space (String a (x +:+ y))) eqn:E; [|done].
  simpl in E. apply andb_prop in E as [_ E].
  rewrite string_forallb_app in E. apply andb_prop in E as [_ E].
  by apply rstrip_blank in E.
Qed.

Lemma rstrip_app_blank x y : forallb is_space y = true → rstrip (x +:+ y) = rstrip x.
Proof.
  intros Hy. induction x as [|a x IH].
  - rewrite string_app_nil_l. by apply rstrip_blank.
  - rewrite string_app_cons, !rstrip_cons, IH. cbn [forallb].
    by rewrite string_forallb_app, Hy, andb_true_r.
Qed.

Lemma forallb_rstrip f s : forallb f s = true → forallb f (rstrip s) = true.
Proof.
  induction s as [|c s IH]; [done|]. rewrite rstrip_cons. simpl.
  intros [Hc Hs]%andb_prop.
  destruct (is_space c && forallb is_space s); [done|]. simpl.
  by rewrite Hc, IH.
Qed.

Lemma rstrip_idem s : rstrip (rstrip s) = rstrip s.
Proof.
  induction s as [|c s IH]; [done|]. rewrite rstrip_cons.
  destruct (forallb is_space (String c s)) eqn:E; [done|].
  rewrite rstrip_cons, IH.
  destruct (forallb is_space (String c (rstrip s))) eqn:E'; [|done].
  simpl in *. apply andb_prop in E' as [Hc Hs]. rewrite Hc in E. simpl in E.
  apply rstrip_blank in Hs. rewrite IH in Hs. apply rstrip_nil in Hs. congruence.
Qed.

Lemma rstrip_solid s :
  forallb (λ c, negb (is_space c)) s = true → rstrip s = s.
Proof.
  induction s as [|c s IH]; [done|]. rewrite rstrip_cons. simpl.
  intros [Hc Hs]%andb_prop. rewrite IH by done.
  apply negb_true_iff in Hc. by rewrite Hc.
Qed.

Ltac each_char c := destruct c as [[] [] [] [] [] [] [] []].

Lemma mark_solid c :
  is_char "#" c || is_char ";" c = true → is_space c = false.
Proof. each_char c; vm_compute; congruence. Qed.

Lemma rstrip_remark w : remark w → remark (rstrip w) ∧ rstrip w ≠ "".
Proof.
  intros (a & w' & -> & Ha & Hw). rewrite rstrip_cons. simpl.
  rewrite (mark_solid a Ha). simpl. split; [|done].
  exists a, (rstrip w'). split; [done|]. split; [done|].
  by apply forallb_rstrip.
Qed.

End Rstrip.

(** ** What MEMOP and JUMP lines are rewritten to *)

Module Resolved.
Import Re Asm StrFacts ReFacts AsmFacts Runs Shapes Pieces ReComplete Text Lang FieldShapes Accepts Rstrip.

Ltac each_char c := destruct c as [[] [] [] [] [] [] [] []].

Lemma word_dot c : Str.is_word c = true → Str.is_dot c = true.
Proof. each_char c; vm_compute; congruence. Qed.

Lemma alpha_dot c : Str.is_alpha c = true → Str.is_dot c = true.
Proof. each_char c; vm_compute; congruence. Qed.

Lemma mark_dot c :
  Str.is_char "#" c || Str.is_char ";" c = true → Str.is_dot c = true.
Proof. each_char c; vm_compute; congruence. Qed.

Lemma forallb_impl (f g : ascii → bool) w :
  (∀ c, f c = true → g c = true) →
  Str.forallb f w = true → Str.forallb g w = true.
Proof.
  intros H. induction w as [|a w IH]; [done|]. simpl.
  intros [Ha Hw]%andb_prop. by rewrite (H a Ha), IH.
Qed.

(** The comment that the rewriting leaves behind: the label that was
    referred to, and the comment of the line. *)
Lemma trailer_remark ref cm :
  identifier ref → (∀ v, cm = Some v → remark v) →
  remark ("#" +:+ ref +:+ "  " +:+ comment_text cm).
Proof.
  intros (a & w & -> & Ha & Hw) Hcm. eexists _, _. split; [reflexivity|].
  split; [done|]. rewrite string_app_cons. cbn [Str.forallb].
  rewrite (alpha_dot a Ha). rewrite !string_forallb_app.
  rewrite (forallb_impl _ _ w word_dot Hw). simpl.
  destruct cm as [v|]; [|done].
  destruct (Hcm v eq_refl) as (b & w' & -> & Hb & Hw'). simpl.
  by rewrite (mark_dot b Hb), Hw'.
Qed.

Lemma resolved_text l op o tgt d T :
  (∀ v, l = Some v → identifier v) → Str.letters op →
  (∀ v, o = Some v → Str.capitals v) →
  register_name tgt → remark T →
  closes Phase1.ASM_FULL_PAT (resolved_line l op o tgt d T).
Proof.
  intros Hl Hop Ho Ht Htr. unfold resolved_line.
  assert (R0 : register_name "r0") by (by exists "0").
  assert (R15 : register_name "r15") by (by exists "15").
  destruct l as [v|].
  - pose proof (full_accepts "" (Some v) "   " op o "  " tgt "r0" "r15"
                  (Some (Str.of_Z d)) " " (Some T) "") as H.
    cbn [label_piece offset_text comment_text label_text] in *.
    rewrite !string_app_assoc, ?string_app_nil_r in *.
    apply H; try done.
    + intros ? [= <-]. apply of_Z_signed.
    + by intros ? [= <-].
  - pose proof (full_accepts "       " None "" op o "  " tgt "r0" "r15"
                  (Some (Str.of_Z d)) " " (Some T) "") as H.
    cbn [label_piece offset_text comment_text label_text] in *.
    rewrite !string_app_assoc, ?string_app_nil_r in *.
    apply H; try done.
    + intros ? [= <-]. apply of_Z_signed.
    + by intros ? [= <-].
Qed.

Lemma rstrip_resolved l op o tgt d T :
  remark T →
  Str.rstrip (resolved_line l op o tgt d T)
  = resolved_line l op o tgt d (Str.rstrip T).
Proof.
  intros [_ Hne]%rstrip_remark. unfold resolved_line.
  assert (H : ∀ x y, Str.rstrip y ≠ "" → Str.rstrip (x +:+ y) ≠ "").
  { intros x y Hy. rewrite rstrip_app_r by done. by destruct x, (Str.rstrip y). }
  rewrite !rstrip_app_r; auto 20.
Qed.

Lemma P1_full_parse text :
  closes Phase1.ASM_FULL_PAT text →
  ∃ g, Phase1.parse_line text = Ok g ∧ kind g = FULL.
Proof.
  intros H. destruct (H None ∅) as [c' D].
  apply fullmatch_complete in D as (m & Hm & _).
  eexists. unfold Phase1.parse_line, Phase1.PATTERNS. cbn [parse_line_in].
  rewrite Hm. done.
Qed.

Lemma FA_full_parse text :
  closes Phase1.ASM_FULL_PAT text →
  ∃ g, Fadfa.parse_line text = Ok g ∧ kind g = FULL.
Proof.
  intros H. destruct (H None ∅) as [c' D].
  apply fullmatch_complete in D as (m & Hm & _).
  eexists. unfold Fadfa.parse_line, Fadfa.PATTERNS. cbn [parse_line_in].
  rewrite fadfa_full, Hm. done.
Qed.

Lemma memop_resolved f op d tgt ref :
  field f "target" = Some tgt → field f "labelref" = Some ref →
  memop_text f op d
  = resolved_line (field f "label") op (field f "predicate") tgt d
      ("#" +:+ ref +:+ "  " +:+ comment_text (field f "comment")).
Proof. intros Ht Hr. unfold memop_text. by rewrite Ht, Hr. Qed.

Lemma jump_resolved f d ref :
  field f "labelref" = Some ref →
  jump_text f d
  = resolved_line (field f "label") "ADD" (field f "predicate") "r15" d
      ("#" +:+ ref +:+ "  " +:+ comment_text (field f "comment")).
Proof. intros Hr. unfold jump_text. by rewrite Hr. Qed.

Lemma resolved_closes l op o tgt d ref cm :
  (∀ v, l = Some v → identifier v) → Str.letters op →
  (∀ v, o = Some v → Str.capitals v) →
  register_name tgt → identifier ref → (∀ v, cm = Some v → remark v) →
  let text := resolved_line l op o tgt d
                ("#" +:+ ref +:+ "  " +:+ comment_text cm) in
  closes Phase1.ASM_FULL_PAT text
  ∧ closes Phase1.ASM_FULL_PAT (Str.rstrip text).
Proof.
  intros Hl Hop Ho Ht Hr Hcm text.
  pose proof (trailer_remark ref cm Hr Hcm) as Htr. split.
  - by apply resolved_text.
  - unfold text. rewrite rstrip_resolved by done.
    apply resolved_text; try done. by apply rstrip_remark.
Qed.

Lemma P1_resolved line f ref d :
  Phase1.parse_line line = Ok f → refers f = Some ref →
  (kind f = MEMOP →
   ∀ op, field f "opcode" = Some op →
         closes Phase1.ASM_FULL_PAT (memop_text f op d)
         ∧ closes Phase1.ASM_FULL_PAT (Str.rstrip (memop_text f op d)))
  ∧ (kind f = JUMP →
     closes Phase1.ASM_FULL_PAT (jump_text f d)
     ∧ closes Phase1.ASM_FULL_PAT (Str.rstrip (jump_text f d))).
Proof.
  intros Hp Hr. destruct (refers_kind _ _ Hr) as [_ Href].
  destruct (P1_fields _ _ Hp) as (Hl & Hlr & Ht & _ & _ & _ & Hc).
  split.
  - intros Hk op Hop.
    destruct (P1.parsed_target _ _ Hp Hk) as [tgt Htg%getitem_field].
    rewrite (memop_resolved _ _ _ _ _ Htg Href).
    apply resolved_closes; eauto using P1_opcode, P1_predicate.
  - intros Hk. rewrite (jump_resolved _ _ _ Href).
    apply resolved_closes; eauto using P1_predicate.
    + by split.
    + by exists "15".
Qed.

Lemma upper_letters op : Str.letters op → Str.letters (Str.upper op).
Proof.
  intros [Hne Hal]. split; [by destruct op|].
  apply (forallb_impl Str.is_upper); [|by apply upper_alpha].
  intros c Hc. unfold Str.is_alpha. by rewrite Hc, orb_true_r.
Qed.

Lemma FA_resolved line f ref d :
  Fadfa.parse_line line = Ok f → refers f = Some ref →
  (kind f = MEMOP →
   ∀ op, field f "opcode" = Some op →
         closes Phase1.ASM_FULL_PAT (memop_text f (Str.upper op) d)
         ∧ closes Phase1.ASM_FULL_PAT
             (Str.rstrip (memop_text f (Str.upper op) d)))
  ∧ (kind f = JUMP →
     closes Phase1.ASM_FULL_PAT (jump_text f d)
     ∧ closes Phase1.ASM_FULL_PAT (Str.rstrip (jump_text f d))).
Proof.
  intros Hp Hr. destruct (refers_kind _ _ Hr) as [_ Href].
  destruct (FA_fields _ _ Hp) as (Hl & Hlr & Ht & _ & _ & _ & Hc).
  split.
  - intros Hk op Hop.
    destruct (FA.parsed_target_fa _ _ Hp (or_introl Hk))
      as [tgt Htg%getitem_field].
    rewrite (memop_resolved _ _ _ _ _ Htg Href).
    apply resolved_closes; eauto using FA_predicate.
    apply upper_letters. by eapply FA_opcode.
  - intros Hk. rewrite (jump_resolved _ _ _ Href).
    apply resolved_closes; eauto using FA_predicate.
    + by split.
    + by exists "15".
Qed.

End Resolved.

(** ** The output of [assembler_phase1.py] as its input *)

Module FixedPoint.
Import Re Asm AsmFacts Runs Shapes Pieces ReComplete Text Lang FieldShapes Accepts Rstrip Resolved.

Lemma P1_plain_kind line f :
  Phase1.parse_line line = Ok f → refers f = None →
  kind f = FULL ∨ kind f = DATA ∨ kind f = COMMENT.
Proof.
  intros Hp Hr. destruct (kind f) eqn:Hk; auto.
  - destruct (P1.parsed_labelref _ _ Hp (or_introl Hk)) as [ref Href%getitem_field].
    unfold refers in Hr. rewrite Hk in Hr. congruence.
  - destruct (P1.parsed_labelref _ _ Hp (or_intror Hk)) as [ref Href%getitem_field].
    unfold refers in Hr. rewrite Hk in Hr. congruence.
Qed.

Lemma P1_plain_rewrite labels line f s :
  Phase1.parse_line line = Ok f → refers f = None →
  Phase1.rewrite_line labels line s = (Ok tt, emitted s line (occupies f)).
Proof.
  intros Hp Hr.
  destruct (P1_plain_kind _ _ Hp Hr) as [Hk|[Hk|Hk]].
  - rewrite (P1.rewrite_line_pass _ _ _ _ Hp (or_introl Hk)).
    unfold occupies. by rewrite Hk.
  - rewrite (P1.rewrite_line_pass _ _ _ _ Hp (or_intror Hk)).
    unfold occupies. by rewrite Hk.
  - rewrite (P1.rewrite_line_comment _ _ _ _ Hp Hk).
    unfold occupies. by rewrite Hk.
Qed.

(** Lines without a reference go through as they are. *)
Lemma P1_pass_through lines :
  Forall (λ raw, ∃ f, Phase1.parse_line (Str.rstrip raw) = Ok f
                      ∧ refers f = None) lines →
  Phase1.main lines = Run 0 (map Str.rstrip lines) [] [].
Proof.
  intros Hall.
  destruct (ResolveFacts.resolve_binds Phase1.parse_line P1.parsed_label
              P1_raises lines) as (labels & Hres & _).
  assert (Hok : Forall (λ raw, fails Phase1.parse_line labels raw = false)
                  lines).
  { eapply Forall_impl; [exact Hall|]. intros raw (f & Hp & Hr).
    unfold fails, unbound. by rewrite Hp, Hr. }
  destruct (Claims.P1_transform_all_ok lines labels Hres Hok)
    as (out & Hrun & Hlen & Hout).
  unfold Phase1.main, main_of. rewrite Hrun. f_equal.
  apply list_eq. intros i. rewrite list_lookup_fmap.
  destruct (lines !! i) as [raw|] eqn:Hi; simpl.
  - destruct (Hout i raw Hi) as (f & s & text & Ho & _ & Hp & Hrw).
    rewrite Ho. f_equal. rewrite Forall_forall in Hall.
    destruct (Hall raw) as (f' & Hp' & Hr).
    { by eapply list_elem_of_lookup_2. }
    rewrite Hp in Hp'. injection Hp' as <-.
    rewrite (P1_plain_rewrite _ _ _ _ Hp Hr) in Hrw.
    apply (f_equal snd), emitted_inj in Hrw. done.
  - apply lookup_ge_None in Hi. apply lookup_ge_None. lia.
Qed.

(** What the second pass emits has no reference left. *)
Lemma P1_emitted_plain labels line f s text occ :
  Phase1.parse_line line = Ok f → Str.rstrip line = line →
  (∀ ref, refers f = Some ref → is_Some (labels !! ref)) →
  Phase1.rewrite_line labels line s = (Ok tt, emitted s text occ) →
  ∃ g, Phase1.parse_line (Str.rstrip text) = Ok g ∧ refers g = None.
Proof.
  intros Hp Hfix Hb Hrw. destruct (refers f) as [ref|] eqn:Hr.
  - destruct (Hb ref eq_refl) as [a Ha].
    destruct (refers_kind _ _ Hr) as [[Hk|Hk] Href].
    + destruct (P1.rewrite_line_memop _ _ Hp Hk)
        as (op & ref' & Hop & Href' & Hrw').
      rewrite Href in Href'. injection Href' as <-.
      rewrite Hrw', Ha in Hrw. apply (f_equal snd), emitted_inj in Hrw.
      subst text.
      destruct (P1_resolved _ _ _ (a - address s) Hp Hr) as [Hm _].
      destruct (Hm Hk op Hop) as [_ Hc].
      apply P1_full_parse in Hc as (g & Hg & Hkg). exists g.
      split; [done|]. unfold refers. by rewrite Hkg.
    + destruct (P1.rewrite_line_jump _ _ Hp Hk) as (ref' & Href' & Hrw').
      rewrite Href in Href'. injection Href' as <-.
      rewrite Hrw', Ha in Hrw. apply (f_equal snd), emitted_inj in Hrw.
      subst text.
      destruct (P1_resolved _ _ _ (a - address s) Hp Hr) as [_ Hj].
      destruct (Hj Hk) as [_ Hc].
      apply P1_full_parse in Hc as (g & Hg & Hkg). exists g.
      split; [done|]. unfold refers. by rewrite Hkg.
  - rewrite (P1_plain_rewrite _ _ _ _ Hp Hr) in Hrw.
    apply (f_equal snd), emitted_inj in Hrw. subst text.
    exists f. by rewrite Hfix.
Qed.

End FixedPoint.

(** ** The first character of a line *)

Module Heads.
Import Re Asm StrFacts ReFacts AsmFacts Runs Shapes Pieces ReComplete Text Lang FieldShapes Accepts Rstrip Resolved.

Ltac each_char c := destruct c as [[] [] [] [] [] [] [] []].

Lemma first_solid_blank w x : blank w → first_solid (w +:+ x) = first_solid x.
Proof.
  induction w as [|a w IH]; [done|]. unfold blank. cbn [Str.forallb].
  intros [Ha Hw]%andb_prop. rewrite string_app_cons. cbn [first_solid].
  rewrite Ha. by apply IH.
Qed.

Lemma alpha_solid c : Str.is_alpha c = true → Str.is_space c = false.
Proof. each_char c; vm_compute; congruence. Qed.

Lemma first_solid_letters w x :
  Str.letters w →
  ∃ b, first_solid (w +:+ x) = Some b ∧ Str.is_alpha b = true.
Proof.
  intros [Hne Hw]. destruct w as [|b w]; [done|]. simpl in Hw.
  apply andb_prop in Hw as [Hb _]. exists b. rewrite string_app_cons. simpl.
  by rewrite (alpha_solid b Hb).
Qed.

Lemma first_solid_identifier w x :
  identifier w →
  ∃ b, first_solid (w +:+ x) = Some b ∧ Str.is_alpha b = true.
Proof.
  intros (b & w' & -> & Hb & _). exists b. rewrite string_app_cons. simpl.
  by rewrite (alpha_solid b Hb).
Qed.

Lemma first_solid_remark w x :
  remark w →
  ∃ a, first_solid (w +:+ x) = Some a
       ∧ Str.is_char "#" a || Str.is_char ";" a = true.
Proof.
  intros (a & w' & -> & Ha & _). exists a. rewrite string_app_cons. simpl.
  by rewrite (mark_solid a Ha).
Qed.

Lemma mark_not_alpha a :
  Str.is_char "#" a || Str.is_char ";" a = true → Str.is_alpha a = false.
Proof. each_char a; vm_compute; congruence. Qed.

(** The label of a line, with what it looks like. *)
Lemma den_opt_label_shape p w t (c c' : captures) :
  den opt_label p w t c c' →
  ∃ l, w = label_piece l ∧ c' = set_group "label" l c
       ∧ ∀ v, l = Some v → identifier v.
Proof.
  intros [(w1 & w2 & c1 & -> & D1 & (-> & ->))|[-> ->]].
  - destruct D1 as (c2 & D1 & ->).
    pose proof (ident_shape _ _ _ _ _ D1) as Hi.
    apply (den_no_groups ident) in D1 as ->; [|done].
    exists (Some w1). repeat split; [done..|]. by intros ? [= <-].
  - exists None. done.
Qed.

(** A line with an instruction begins with a letter, white space apart. *)
Lemma head_of_instruction opc tail p w t (c c' : captures) :
  (∀ p w t c c', den opc p w t c c' → Str.letters w) →
  den (Seq spaces (Seq opt_label (Seq spaces (Seq opc tail)))) p w t c c' →
  ∃ b, first_solid w = Some b ∧ Str.is_alpha b = true.
Proof.
  intros Hopc (w1 & x1 & c1 & -> & [H1 _]%den_spaces & D).
  destruct D as (w2 & x2 & c2 & -> & (l & -> & _ & Hl)%den_opt_label_shape & D).
  destruct D as (w3 & x3 & c3 & -> & [H3 _]%den_spaces & D).
  destruct D as (w4 & x4 & c4 & -> & H4%Hopc & _).
  rewrite first_solid_blank by done. destruct l as [v|].
  - cbn [label_piece]. rewrite string_app_assoc.
    apply first_solid_identifier. auto.
  - cbn [label_piece]. rewrite string_app_nil_l, first_solid_blank by done.
    by apply first_solid_letters.
Qed.

Lemma named_letters k r :
  (∀ p w t c c', den r p w t c c' → Str.letters w) →
  ∀ p w t c c', den (Named k r) p w t c c' → Str.letters w.
Proof. intros H p w t c c' (c1 & D & _). eauto. Qed.

Lemma lit_letters l : Str.letters l → ∀ p w t (c c' : captures),
  den (Lit l) p w t c c' → Str.letters w.
Proof. by intros H p w t c c' [-> _]. Qed.

Lemma alt_letters r1 r2 :
  (∀ p w t c c', den r1 p w t c c' → Str.letters w) →
  (∀ p w t c c', den r2 p w t c c' → Str.letters w) →
  ∀ p w t c c', den (Alt r1 r2) p w t c c' → Str.letters w.
Proof. intros H1 H2 p w t c c' [D|D]; eauto. Qed.

Ltac opcode_letters :=
  first [ apply named_letters; opcode_letters
        | apply alt_letters; opcode_letters
        | apply lit_letters; by split
        | intros ? ? ? ? ?; by apply letters_plus
        | intros ? ? ? ? ?; by apply letters_guarded ].

Lemma P1_head line f :
  Phase1.parse_line line = Ok f → kind f ≠ COMMENT →
  ∃ b, first_solid line = Some b ∧ Str.is_alpha b = true.
Proof.
  intros (pat & kd & m & Hin & D & ->)%P1.parse_pattern Hk. cbn [kind] in Hk.
  unfold Phase1.PATTERNS in Hin. pattern_cases Hin; try done;
    (eapply head_of_instruction; [|exact D]; opcode_letters).
Qed.

Lemma FA_head line f :
  Fadfa.parse_line line = Ok f → kind f ≠ COMMENT →
  ∃ b, first_solid line = Some b ∧ Str.is_alpha b = true.
Proof.
  intros (pat & kd & m & Hin & D & ->)%FA.parse_pattern_fa Hk. cbn [kind] in Hk.
  unfold Fadfa.PATTERNS in Hin. pattern_cases Hin; try done;
    (eapply head_of_instruction; [|exact D]; opcode_letters).
Qed.

End Heads.

(** ** Lines without an instruction *)

Module CommentLines.
Import Re Asm StrFacts ReFacts AsmFacts Runs Shapes Pieces ReComplete Text Lang FieldShapes Accepts Rstrip Resolved Heads.

Lemma fadfa_comment : Fadfa.ASM_COMMENT_PAT = Phase1.ASM_COMMENT_PAT.
Proof. reflexivity. Qed.

(** The lines that the COMMENT pattern accepts. *)
Lemma comment_accepts sp1 l sp2 cm sp3 :
  blank sp1 → (∀ v, l = Some v → identifier v) → blank sp2 →
  (∀ v, cm = Some v → remark v) → blank sp3 →
  closes Phase1.ASM_COMMENT_PAT
    (sp1 +:+ label_piece l +:+ sp2 +:+ comment_text cm +:+ sp3).
Proof.
  intros H1 Hl H2 Hcm H3. unfold Phase1.ASM_COMMENT_PAT. cbn [seq].
  apply closes_seq; [by apply lang_spaces|].
  apply closes_seq; [by apply lang_opt_label|].
  apply closes_seq; [by apply lang_spaces|].
  apply closes_seq; [|by apply closes_end].
  destruct cm as [v|]; [|apply lang_opt_none].
  apply lang_opt, lang_comment_group. auto.
Qed.

Lemma parse_line_in_matches pats pat kd line (c c' : captures) :
  (pat, kd) ∈ pats → den pat None line "" c c' →
  ∃ f, parse_line_in pats line = Ok f.
Proof.
  intros Hin D. apply fullmatch_complete in D as (m & Hm & _).
  induction pats as [|[pat' kd'] pats IH]; [by apply elem_of_nil in Hin|].
  cbn [parse_line_in]. destruct (fullmatch pat' line) eqn:E; [eauto|].
  apply elem_of_cons in Hin as [[= -> ->]|Hin]; [congruence|by apply IH].
Qed.

Lemma den_opt_remark p w t (c c' : captures) :
  den (Opt comment_group) p w t c c' →
  ∃ cm, c' = set_group "comment" cm c.
Proof.
  intros [D|[_ ->]]; [|by exists None].
  apply den_named_plain in D as ->; [|done]. by eexists (Some _).
Qed.

(** The label of a COMMENT line. *)
Lemma comment_label line m :
  den Phase1.ASM_COMMENT_PAT None line "" ∅ m →
  ∀ v, m !! "label" = Some v →
       ∃ b, first_solid line = Some b ∧ Str.is_alpha b = true.
Proof.
  unfold Phase1.ASM_COMMENT_PAT. intros D v.
  piece D D1. apply den_spaces in D1 as [Hs1 ->].
  piece D D2. apply den_opt_label_shape in D2 as (l & -> & -> & Hl).
  piece D D3. apply den_spaces in D3 as [Hs2 ->].
  piece D D4. apply den_opt_remark in D4 as (cm & ->).
  apply den_end in D as [_ ->].
  destruct l as [u|]; destruct cm; cbn [set_group]; simplify_map_eq; try done.
  all: intros _; rewrite first_solid_blank by done; cbn [label_piece];
    rewrite string_app_assoc; apply first_solid_identifier; auto.
Qed.

(** A COMMENT line is blank, or it begins with a label or with the mark of
    a comment. *)
Lemma comment_head line m :
  den Phase1.ASM_COMMENT_PAT None line "" ∅ m →
  first_solid line = None
  ∨ ∃ b, first_solid line = Some b
         ∧ (Str.is_alpha b = true
            ∨ Str.is_char "#" b || Str.is_char ";" b = true).
Proof.
  unfold Phase1.ASM_COMMENT_PAT. intros D.
  piece D D1. apply den_spaces in D1 as [Hs1 ->].
  piece D D2. apply den_opt_label_shape in D2 as (l & -> & -> & Hl).
  piece D D3. apply den_spaces in D3 as [Hs2 ->].
  piece D D4. apply den_end in D as [Hs3 ->].
  rewrite first_solid_blank by done. destruct l as [u|].
  - right. cbn [label_piece]. rewrite string_app_assoc.
    edestruct (first_solid_identifier u) as (b & Hb & Hal); [eauto|].
    exists b. split; [exact Hb|auto].
  - cbn [label_piece]. rewrite string_app_nil_l, first_solid_blank by done.
    destruct D4 as [D4|[-> _]].
    + right. destruct D4 as (c1 & D4%remark_shape & _).
      eapply first_solid_remark in D4 as (a & Ha & Hm).
      exists a. split; [exact Ha|auto].
    + left. rewrite string_app_nil_l.
      match goal with |- first_solid ?w = _ =>
        rewrite <- (string_app_nil_r w), first_solid_blank; done end.
Qed.

Section Variant.
Variable parse_line : string → result dict.
Variable PATTERNS : list (regex * AsmSrcKind).
Hypothesis parse_line_eq : ∀ line, parse_line line = parse_line_in PATTERNS line.
Hypothesis has_comment : (Phase1.ASM_COMMENT_PAT, COMMENT) ∈ PATTERNS.
Hypothesis only_comment :
  ∀ pat, (pat, COMMENT) ∈ PATTERNS → pat = Phase1.ASM_COMMENT_PAT.
Hypothesis head :
  ∀ line f, parse_line line = Ok f → kind f ≠ COMMENT →
            ∃ b, first_solid line = Some b ∧ Str.is_alpha b = true.

Lemma comment_only line :
  first_solid line = None
  ∨ (∃ a, first_solid line = Some a ∧ Str.is_alpha a = false) →
  closes Phase1.ASM_COMMENT_PAT line →
  ∃ f, parse_line line = Ok f ∧ kind f = COMMENT ∧ field f "label" = None
       ∧ is_Some (items f !! "label").
Proof.
  intros Hfirst Hc. destruct (Hc None ∅) as [c' D].
  destruct (parse_line_in_matches _ _ _ _ _ _ has_comment D) as [f Hf].
  rewrite <- parse_line_eq in Hf. exists f. split; [done|].
  assert (Hk : kind f = COMMENT).
  { destruct (decide (kind f = COMMENT)) as [|Hk]; [done|].
    destruct (head _ _ Hf Hk) as (b & Hb & Hal).
    destruct Hfirst as [E|(a & E & Ha)]; congruence. }
  split; [done|]. rewrite parse_line_eq in Hf.
  apply parse_line_in_Ok in Hf as (pat & kd & m & Hin & Hm & ->).
  cbn [kind] in Hk. subst kd. apply only_comment in Hin as ->.
  apply fullmatch_sound in Hm.
  rewrite field_groupdict by reflexivity. split.
  - destruct (m !! "label") as [v|] eqn:E; [|done].
    destruct (comment_label _ _ Hm v E) as (b & Hb & Hal).
    destruct Hfirst as [E'|(a & E' & Ha)]; congruence.
  - cbn [items]. rewrite groupdict_lookup. by rewrite decide_True by in_list.
Qed.

Lemma odd_head line a :
  first_solid line = Some a → Str.is_alpha a = false →
  Str.is_char "#" a || Str.is_char ";" a = false →
  parse_line line = Raise (SyntaxError ("Assembler syntax error in " +:+ line)).
Proof.
  intros Ha Hal Hm. destruct (parse_line line) as [f|e] eqn:Hp.
  - exfalso. destruct (decide (kind f = COMMENT)) as [Hk|Hk].
    + rewrite parse_line_eq in Hp.
      apply parse_line_in_Ok in Hp as (pat & kd & m & Hin & D & ->).
      cbn [kind] in Hk. subst kd. apply only_comment in Hin as ->.
      apply fullmatch_sound, comment_head in D as [E|(b & E & [Hb|Hb])];
        congruence.
    + destruct (head _ _ Hp Hk) as (b & Hb & Hb'). congruence.
  - rewrite parse_line_eq in Hp. by apply parse_line_in_Raise in Hp as [-> _].
Qed.

End Variant.

Lemma remark_line_first w :
  remark_line w →
  (∃ a, first_solid w = Some a ∧ Str.is_alpha a = false)
  ∧ closes Phase1.ASM_COMMENT_PAT w.
Proof.
  intros (sp & c & -> & Hsp & Hc). split.
  - rewrite first_solid_blank by done.
    destruct (first_solid_remark c "" Hc) as (a & Ha & Hm).
    rewrite string_app_nil_r in Ha. exists a. split; [done|].
    by apply mark_not_alpha.
  - pose proof (comment_accepts sp None "" (Some c) "") as H.
    cbn [label_piece comment_text] in H.
    rewrite !string_app_nil_l, string_app_nil_r in H.
    apply H; try done. by intros ? [= <-].
Qed.

Lemma blank_line_first :
  first_solid "" = None ∧ closes Phase1.ASM_COMMENT_PAT "".
Proof.
  split; [done|]. by apply (comment_accepts "" None "" None "").
Qed.

Lemma P1_comment_only line :
  first_solid line = None
  ∨ (∃ a, first_solid line = Some a ∧ Str.is_alpha a = false) →
  closes Phase1.ASM_COMMENT_PAT line →
  ∃ f, Phase1.parse_line line = Ok f ∧ kind f = COMMENT
       ∧ field f "label" = None ∧ is_Some (items f !! "label").
Proof.
  apply (comment_only Phase1.parse_line Phase1.PATTERNS).
  - done.
  - unfold Phase1.PATTERNS. set_solver.
  - intros pat Hin. unfold Phase1.PATTERNS in Hin.
    repeat (apply elem_of_cons in Hin as [Hin|Hin]; [by inversion Hin|]).
    by apply elem_of_nil in Hin.
  - exact P1_head.
Qed.

Lemma FA_comment_only line :
  first_solid line = None
  ∨ (∃ a, first_solid line = Some a ∧ Str.is_alpha a = false) →
  closes Phase1.ASM_COMMENT_PAT line →
  ∃ f, Fadfa.parse_line line = Ok f ∧ kind f = COMMENT
       ∧ field f "label" = None ∧ is_Some (items f !! "label").
Proof.
  apply (comment_only Fadfa.parse_line Fadfa.PATTERNS).
  - done.
  - unfold Fadfa.PATTERNS. rewrite fadfa_comment. set_solver.
  - intros pat Hin. unfold Fadfa.PATTERNS in Hin.
    repeat (apply elem_of_cons in Hin as [Hin|Hin]; [by inversion Hin|]).
    by apply elem_of_nil in Hin.
  - exact FA_head.
Qed.

Lemma P1_odd_head line a :
  first_solid line = Some a → Str.is_alpha a = false →
  Str.is_char "#" a || Str.is_char ";" a = false →
  Phase1.parse_line line
  = Raise (SyntaxError ("Assembler syntax error in " +:+ line)).
Proof.
  apply (odd_head Phase1.parse_line Phase1.PATTERNS).
  - done.
  - intros pat Hin. unfold Phase1.PATTERNS in Hin.
    repeat (apply elem_of_cons in Hin as [Hin|Hin]; [by inversion Hin|]).
    by apply elem_of_nil in Hin.
  - exact P1_head.
Qed.

Lemma FA_odd_head line a :
  first_solid line = Some a → Str.is_alpha a = false →
  Str.is_char "#" a || Str.is_char ";" a = false →
  Fadfa.parse_line line
  = Raise (SyntaxError ("Assembler syntax error in " +:+ line)).
Proof.
  apply (odd_head Fadfa.parse_line Fadfa.PATTERNS).
  - done.
  - intros pat Hin. unfold Fadfa.PATTERNS in Hin.
    repeat (apply elem_of_cons in Hin as [Hin|Hin]; [by inversion Hin|]).
    by apply elem_of_nil in Hin.
  - exact FA_head.
Qed.

Lemma plain_line_first w :
  w = "" ∨ remark_line w →
  (first_solid w = None
   ∨ (∃ a, first_solid w = Some a ∧ Str.is_alpha a = false))
  ∧ closes Phase1.ASM_COMMENT_PAT w.
Proof.
  intros [->|H].
  - destruct blank_line_first. auto.
  - destruct (remark_line_first w H). auto.
Qed.

Lemma unbound_comment parse_line labels raw f :
  parse_line (Str.rstrip raw) = Ok f → kind f = COMMENT →
  field f "label" = None →
  fails parse_line labels raw = false
  ∧ ∀ r, bound parse_line r raw = r.
Proof.
  intros Hp Hk Hl. split.
  - unfold fails, unbound, refers. by rewrite Hp, Hk.
  - intros [t a]. unfold bound, defines, takes_address. rewrite Hp, Hl, Hk.
    by rewrite bool_decide_eq_false_2 by auto.
Qed.

End CommentLines.

(** ** The first pass as a fold, and white space at the end of the lines *)

Module Linking.
Import Re Asm AsmFacts Runs Rstrip.

Section Builder.

Variable parse_line : string → result dict.
Hypothesis has_label :
  ∀ line f, parse_line line = Ok f → ∃ l, getitem f "label" = Ok l.
Hypothesis raises_Exception :
  ∀ line e, parse_line line = Raise e → is_Exception e = true.

(** The first pass is a fold of [bound] over the lines. *)
Lemma for_lines_fold lines : ∀ n r,
  for_lines (resolve_line parse_line) n lines r
  = (Ok tt, foldl (bound parse_line) r lines).
Proof.
  induction lines as [|raw lines IH]; intros n r; [done|].
  cbn [for_lines foldl]. unfold bind.
  rewrite (ResolveFacts.resolve_line_spec parse_line has_label
             raises_Exception). apply IH.
Qed.

Lemma resolve_fold lines :
  resolve parse_line lines
  = Ok (r_labels (foldl (bound parse_line) (RState ∅ 0) lines)).
Proof. unfold resolve. by rewrite for_lines_fold. Qed.

Lemma fold_address lines : ∀ r,
  r_address (foldl (bound parse_line) r lines)
  = (r_address r + addresses parse_line lines)%Z.
Proof.
  induction lines as [|raw lines IH]; intros r; simpl; [lia|].
  rewrite IH. unfold bound; simpl.
  destruct (takes_address parse_line raw); lia.
Qed.

Lemma addresses_bounds lines :
  (0 ≤ addresses parse_line lines ≤ Z.of_nat (length lines))%Z.
Proof.
  induction lines as [|raw lines IH]; simpl; [lia|].
  destruct (takes_address parse_line raw); lia.
Qed.

(** Every address of the table is the address of a line or the one after
    the last line. *)
Lemma fold_range lines : ∀ r,
  (0 ≤ r_address r)%Z →
  (∀ name a, r_labels r !! name = Some a → (0 ≤ a ≤ r_address r)%Z) →
  ∀ name a,
    r_labels (foldl (bound parse_line) r lines) !! name = Some a →
    (0 ≤ a ≤ r_address r + addresses parse_line lines)%Z.
Proof.
  induction lines as [|raw lines IH]; intros r H0 Hr name a; simpl.
  - intros H%Hr. lia.
  - intros H. apply IH in H.
    + unfold bound in H; simpl in H.
      destruct (takes_address parse_line raw); lia.
    + unfold bound; simpl. destruct (takes_address parse_line raw); lia.
    + intros name' a'. unfold bound; simpl.
      destruct (defines parse_line raw) as [n|].
      * destruct (decide (n = name')) as [->|Hne].
        -- rewrite lookup_insert_eq. intros [= <-].
           destruct (takes_address parse_line raw); lia.
        -- rewrite lookup_insert_ne by done. intros H'%Hr.
           destruct (takes_address parse_line raw); lia.
      * intros H'%Hr. destruct (takes_address parse_line raw); lia.
Qed.

(** Two runs of the first pass over the same lines, one of them from the
    empty table and the address 0. *)
Lemma fold_shift (base : gmap string Z) shift more : ∀ r r0,
  r_address r = (shift + r_address r0)%Z →
  (∀ name, r_labels r !! name
           = match r_labels r0 !! name with
             | Some a => Some (shift + a)%Z
             | None => base !! name
             end) →
  ∀ name,
    r_labels (foldl (bound parse_line) r more) !! name
    = match r_labels (foldl (bound parse_line) r0 more) !! name with
      | Some a => Some (shift + a)%Z
      | None => base !! name
      end.
Proof.
  induction more as [|raw more IH]; intros r r0 Ha Hl name; [apply Hl|].
  cbn [foldl]. apply IH.
  - unfold bound; simpl. destruct (takes_address parse_line raw); lia.
  - intros name'. unfold bound; simpl.
    destruct (defines parse_line raw) as [n|]; [|apply Hl].
    destruct (decide (n = name')) as [->|Hne].
    + rewrite !lookup_insert_eq. by rewrite Ha.
    + rewrite !lookup_insert_ne by done. apply Hl.
Qed.

Lemma resolve_app lines more t1 tm t2 name :
  resolve parse_line lines = Ok t1 →
  resolve parse_line more = Ok tm →
  resolve parse_line (lines ++ more) = Ok t2 →
  t2 !! name
  = match tm !! name with
    | Some a => Some (addresses parse_line lines + a)%Z
    | None => t1 !! name
    end.
Proof.
  rewrite !resolve_fold, foldl_app. intros [= <-] [= <-] [= <-].
  apply fold_shift; simpl.
  - rewrite fold_address. simpl. lia.
  - intros name'. by rewrite lookup_empty.
Qed.

Lemma resolve_range lines t name a :
  resolve parse_line lines = Ok t → t !! name = Some a →
  (0 ≤ a ≤ addresses parse_line lines)%Z
  ∧ (addresses parse_line lines ≤ Z.of_nat (length lines))%Z.
Proof.
  rewrite resolve_fold. intros [= <-] H. split; [|apply addresses_bounds].
  apply fold_range in H; simpl in *; [lia|lia|].
  intros ??. by rewrite lookup_empty.
Qed.

End Builder.

(** White space at the end of the lines. *)
Section Stripped.

Context {St : Type}.
Variable body : nat → string → M St unit.
Hypothesis body_rstrip : ∀ n raw, body n (Str.rstrip raw) = body n raw.

Lemma for_lines_rstrip lines : ∀ n s,
  for_lines body n (map Str.rstrip lines) s = for_lines body n lines s.
Proof.
  induction lines as [|raw lines IH]; intros n s; [done|].
  cbn [map for_lines]. unfold bind. rewrite body_rstrip.
  destruct (body n raw s) as [[] s']; [apply IH|done].
Qed.

End Stripped.

Lemma resolve_rstrip parse_line lines :
  resolve parse_line (map Str.rstrip lines) = resolve parse_line lines.
Proof.
  unfold resolve. rewrite for_lines_rstrip; [done|].
  intros n raw. unfold resolve_line. by rewrite rstrip_idem.
Qed.

Lemma P1_main_rstrip lines :
  Phase1.main (map Str.rstrip lines) = Phase1.main lines.
Proof.
  unfold Phase1.main, main_of, Phase1.transform, bind, lift, Phase1.resolve.
  rewrite resolve_rstrip.
  destruct (resolve Phase1.parse_line lines) as [labels|e]; [|done].
  rewrite for_lines_rstrip; [done|].
  intros n raw. unfold Phase1.transform_line. by rewrite rstrip_idem.
Qed.

Lemma FA_main_rstrip lines :
  Fadfa.main (map Str.rstrip lines) = Fadfa.main lines.
Proof.
  unfold Fadfa.main, main_of, Fadfa.transform, bind, lift, Fadfa.resolve.
  rewrite resolve_rstrip.
  destruct (resolve Fadfa.parse_line lines) as [labels|e]; [|done].
  rewrite for_lines_rstrip; [done|].
  intros n raw. unfold Fadfa.transform_line. by rewrite rstrip_idem.
Qed.

End Linking.

(** ** The emitted lines *)

Module Output.
Import Re Asm AsmFacts Runs Shapes Pieces ReComplete Text Lang FieldShapes Accepts Rstrip Resolved FixedPoint.

(** X1.  The output of [assembler_phase1.py] is fully resolved, and the
    program leaves it as it is.  When every line of the input matches a
    pattern and refers to bound labels only, the run ends with exit status 0
    and without a diagnostic; every emitted line matches a pattern and
    refers to no label; and the run on the emitted lines ends in the same
    way and emits them again, without their white space at the end. *)
Theorem phase1_output_is_resolved lines labels :
  Phase1.resolve lines = Ok labels →
  Forall (λ raw, ∃ f, Phase1.parse_line (Str.rstrip raw) = Ok f
                      ∧ ∀ ref, refers f = Some ref →
                               is_Some (labels !! ref)) lines →
  ∃ out,
    Phase1.main lines = Run 0 out [] []
    ∧ Forall (λ text, ∃ g, Phase1.parse_line (Str.rstrip text) = Ok g
                           ∧ refers g = None) out
    ∧ Phase1.main out = Run 0 (map Str.rstrip out) [] [].
Proof.
  intros Hres Hall.
  assert (Hok : Forall (λ raw, fails Phase1.parse_line labels raw = false)
                  lines) by (by apply Claims.all_bound_no_failure).
  destruct (Claims.P1_transform_all_ok lines labels Hres Hok)
    as (out & Hrun & Hlen & Hout).
  assert (Hplain : Forall (λ text, ∃ g,
                      Phase1.parse_line (Str.rstrip text) = Ok g
                      ∧ refers g = None) out).
  { apply Forall_lookup. intros i text Hi.
    destruct (lookup_lt_is_Some_2 lines i) as [raw Hraw].
    { rewrite <- Hlen. by eapply lookup_lt_Some. }
    destruct (Hout i raw Hraw) as (f & s & text' & Ho & _ & Hp & Hrw).
    rewrite Hi in Ho. injection Ho as <-.
    rewrite Forall_forall in Hall.
    destruct (Hall raw) as (f' & Hp' & Hb).
    { by eapply list_elem_of_lookup_2. }
    rewrite Hp in Hp'. injection Hp' as <-.
    eapply P1_emitted_plain; [exact Hp|apply rstrip_idem|exact Hb|exact Hrw]. }
  exists out. split; [|split; [done|by apply P1_pass_through]].
  unfold Phase1.main, main_of. by rewrite Hrun.
Qed.

Lemma phase1_output_is_resolved_witness :
  Phase1.resolve Sample.program = Ok Sample.table
  ∧ ∃ out,
      Phase1.main Sample.program = Run 0 out [] []
      ∧ Phase1.main out = Run 0 (map Str.rstrip out) [] [].
Proof.
  assert (H1 : Phase1.resolve Sample.program = Ok Sample.table)
    by (vm_compute; reflexivity).
  assert (H2 : Forall (λ raw, ∃ f, Phase1.parse_line (Str.rstrip raw) = Ok f
                        ∧ ∀ ref, refers f = Some ref →
                                 is_Some (Sample.table !! ref)) Sample.program).
  { repeat constructor;
      (eexists; split; [vm_compute; reflexivity|]; intros ref Hr;
       vm_compute in Hr; try discriminate; injection Hr as <-;
       eexists; vm_compute; reflexivity). }
  split; [exact H1|].
  destruct (phase1_output_is_resolved Sample.program Sample.table H1 H2)
    as (out & Hrun & _ & Hagain).
  exists out. split; assumption.
Defined.

(** X2.  In both programs, the text that a MEMOP or JUMP line with a bound
    label is rewritten to is accepted by the program's own grammar as a
    line of kind FULL, with and without its white space at the end. *)
Theorem rewritten_line_is_fully_specified :
  (∀ labels line f ref a s,
     Phase1.parse_line line = Ok f → refers f = Some ref →
     labels !! ref = Some a →
     ∃ text g g',
       Phase1.rewrite_line labels line s = (Ok tt, emitted s text true)
       ∧ Phase1.parse_line text = Ok g ∧ kind g = FULL
       ∧ Phase1.parse_line (Str.rstrip text) = Ok g' ∧ kind g' = FULL)
  ∧ (∀ lables line f ref a s,
     Fadfa.parse_line line = Ok f → refers f = Some ref →
     lables !! ref = Some a →
     ∃ text g g',
       Fadfa.rewrite_line lables line s = (Ok tt, emitted s text true)
       ∧ Fadfa.parse_line text = Ok g ∧ kind g = FULL
       ∧ Fadfa.parse_line (Str.rstrip text) = Ok g' ∧ kind g' = FULL).
Proof.
  split.
  - intros labels line f ref a s Hp Hr Ha.
    destruct (refers_kind _ _ Hr) as [[Hk|Hk] Href].
    + destruct (P1.rewrite_line_memop _ _ Hp Hk)
        as (op & ref' & Hop & Href' & Hrw).
      rewrite Href in Href'. injection Href' as <-.
      destruct (P1_resolved _ _ _ (a - address s) Hp Hr) as [Hm _].
      destruct (Hm Hk op Hop) as [[g [Hg Hkg]]%P1_full_parse
                                   [g' [Hg' Hkg']]%P1_full_parse].
      exists (memop_text f op (a - address s)), g, g'.
      by rewrite Hrw, Ha.
    + destruct (P1.rewrite_line_jump _ _ Hp Hk) as (ref' & Href' & Hrw).
      rewrite Href in Href'. injection Href' as <-.
      destruct (P1_resolved _ _ _ (a - address s) Hp Hr) as [_ Hj].
      destruct (Hj Hk) as [[g [Hg Hkg]]%P1_full_parse
                            [g' [Hg' Hkg']]%P1_full_parse].
      exists (jump_text f (a - address s)), g, g'.
      by rewrite Hrw, Ha.
  - intros labels line f ref a s Hp Hr Ha.
    destruct (refers_kind _ _ Hr) as [[Hk|Hk] Href].
    + destruct (FA.rewrite_line_memop_fa _ _ Hp Hk)
        as (op & ref' & Hop & Href' & Hrw).
      rewrite Href in Href'. injection Href' as <-.
      destruct (FA_resolved _ _ _ (a - address s) Hp Hr) as [Hm _].
      destruct (Hm Hk op Hop) as [[g [Hg Hkg]]%FA_full_parse
                                   [g' [Hg' Hkg']]%FA_full_parse].
      exists (memop_text f (Str.upper op) (a - address s)), g, g'.
      by rewrite Hrw, Ha.
    + destruct (FA.rewrite_line_jump_fa _ _ Hp Hk) as (ref' & Href' & Hrw).
      rewrite Href in Href'. injection Href' as <-.
      destruct (FA_resolved _ _ _ (a - address s) Hp Hr) as [_ Hj].
      destruct (Hj Hk) as [[g [Hg Hkg]]%FA_full_parse
                            [g' [Hg' Hkg']]%FA_full_parse].
      exists (jump_text f (a - address s)), g, g'.
      by rewrite Hrw, Ha.
Qed.

Lemma rewritten_line_is_fully_specified_witness :
  let line := "again:  STORE r1,x" in
  let f := Sample.parsed (Fadfa.parse_line line) in
  Fadfa.parse_line line = Ok f ∧ refers f = Some "x"
  ∧ Sample.table !! "x" = Some 4%Z
  ∧ ∃ text g g',
      Fadfa.rewrite_line Sample.table line initial
      = (Ok tt, emitted initial text true)
      ∧ Fadfa.parse_line text = Ok g ∧ kind g = FULL
      ∧ Fadfa.parse_line (Str.rstrip text) = Ok g' ∧ kind g' = FULL.
Proof.
  intros line f.
  assert (H1 : Fadfa.parse_line line = Ok f) by (vm_compute; reflexivity).
  assert (H2 : refers f = Some "x") by (vm_compute; reflexivity).
  assert (H3 : Sample.table !! "x" = Some 4%Z) by (vm_compute; reflexivity).
  split; [exact H1|]. split; [exact H2|]. split; [exact H3|].
  exact (proj2 rewritten_line_is_fully_specified Sample.table line f "x"
           4%Z initial H1 H2 H3).
Defined.

(** X3.  In both programs the fields of a line that matches a pattern have
    the form that the grammar gives them: [label] and [labelref] are a
    letter followed by word characters; [target], [src1] and [src2] are
    [r] followed by decimal digits; [offset] is a decimal numeral, with a
    minus sign or without; [comment] begins with [#] or [;] and holds no
    line feed. *)
Theorem fields_are_well_formed :
  (∀ line f,
     Phase1.parse_line line = Ok f →
     (∀ v, field f "label" = Some v → identifier v)
     ∧ (∀ v, field f "labelref" = Some v → identifier v)
     ∧ (∀ v, field f "target" = Some v → register_name v)
     ∧ (∀ v, field f "src1" = Some v → register_name v)
     ∧ (∀ v, field f "src2" = Some v → register_name v)
     ∧ (∀ v, field f "offset" = Some v → signed_decimal v)
     ∧ (∀ v, field f "comment" = Some v → remark v))
  ∧ (∀ line f,
     Fadfa.parse_line line = Ok f →
     (∀ v, field f "label" = Some v → identifier v)
     ∧ (∀ v, field f "labelref" = Some v → identifier v)
     ∧ (∀ v, field f "target" = Some v → register_name v)
     ∧ (∀ v, field f "src1" = Some v → register_name v)
     ∧ (∀ v, field f "src2" = Some v → register_name v)
     ∧ (∀ v, field f "offset" = Some v → signed_decimal v)
     ∧ (∀ v, field f "comment" = Some v → remark v)).
Proof. split; [exact P1_fields|exact FA_fields]. Qed.

Lemma fields_are_well_formed_witness :
  let line := "x: SUB/Z r1,r0,r2[-5] ; count" in
  let f := Sample.parsed (Phase1.parse_line line) in
  Phase1.parse_line line = Ok f
  ∧ field f "offset" = Some "-5"
  ∧ signed_decimal "-5".
Proof.
  intros line f.
  assert (H1 : Phase1.parse_line line = Ok f) by (vm_compute; reflexivity).
  assert (H2 : field f "offset" = Some "-5") by (vm_compute; reflexivity).
  split; [exact H1|]. split; [exact H2|].
  destruct (proj1 fields_are_well_formed line f H1)
    as (_ & _ & _ & _ & _ & Hoff & _).
  exact (Hoff "-5" H2).
Defined.

(** X4.  Both programs accept every fully specified instruction and give
    it the kind FULL: white space, a label with its colon or none, white
    space, an opcode of letters, a predicate of capitals after a slash or
    none, white space that is not empty, three registers between commas, a
    displacement in brackets or none, a comment or none, white space. *)
Theorem full_instruction_is_accepted
    sp1 l sp2 op o sp3 tgt s1 s2 off sp4 cm sp5 :
  blank sp1 → (∀ v, l = Some v → identifier v) → blank sp2 →
  Str.letters op → (∀ v, o = Some v → Str.capitals v) →
  sp3 ≠ "" → blank sp3 →
  register_name tgt → register_name s1 → register_name s2 →
  (∀ v, off = Some v → signed_decimal v) →
  blank sp4 → (∀ v, cm = Some v → remark v) → (cm = None → sp4 = "") →
  blank sp5 →
  let line :=
    sp1 +:+ label_piece l +:+ sp2 +:+ op +:+ predicate_text o +:+ sp3
    +:+ tgt +:+ "," +:+ s1 +:+ "," +:+ s2 +:+ offset_text off
    +:+ (sp4 +:+ comment_text cm) +:+ sp5 in
  (∃ g, Phase1.parse_line line = Ok g ∧ kind g = FULL)
  ∧ (∃ g, Fadfa.parse_line line = Ok g ∧ kind g = FULL).
Proof.
  intros. split; [apply P1_full_parse|apply FA_full_parse];
    by apply full_accepts.
Qed.

Lemma full_instruction_is_accepted_witness :
  ∃ g, Phase1.parse_line "  x:  sub/Z  r1,r0,r2[-5]  ; count " = Ok g
       ∧ kind g = FULL.
Proof.
  assert (B : ∀ w, Str.forallb Str.is_space w = true → blank w) by done.
  refine (proj1 (full_instruction_is_accepted "  " (Some "x") "  " "sub"
            (Some "Z") "  " "r1" "r0" "r2" (Some "-5") "  "
            (Some "; count") " " _ _ _ _ _ _ _ _ _ _ _ _ _ _ _)).
  - by apply B.
  - intros ? [= <-]. by exists "x"%char, "".
  - by apply B.
  - by split.
  - intros ? [= <-]. by split.
  - done.
  - by apply B.
  - by exists "1".
  - by exists "0".
  - by exists "2".
  - intros ? [= <-]. right. by exists "5".
  - by apply B.
  - intros ? [= <-]. by exists ";"%char, " count".
  - done.
  - by apply B.
Defined.

End Output.

(** ** Comment lines, and how a line begins *)

Module Lines.
Import Re Asm AsmFacts Runs Shapes Pieces ReComplete Text Lang FieldShapes Accepts Rstrip Resolved Heads CommentLines.

(** X5.  In both programs a line that is empty, white space only, or a
    comment after white space is emitted as it is, without its white space
    at the end, and takes no address in either pass: [transform] does not
    advance its address counter and [resolve] leaves its table and its
    counter as they are. *)
Theorem comment_line_takes_no_address :
  (∀ raw labels lnum s r,
     Str.rstrip raw = "" ∨ remark_line (Str.rstrip raw) →
     (error_count s ≤ 5)%nat →
     Phase1.transform_line labels lnum raw s
     = (Ok tt, emitted s (Str.rstrip raw) false)
     ∧ resolve_line Phase1.parse_line lnum raw r = (Ok tt, r))
  ∧ (∀ raw lables lnum s r,
     Str.rstrip raw = "" ∨ remark_line (Str.rstrip raw) →
     (error_count s ≤ 5)%nat →
     Fadfa.transform_line lables lnum raw s
     = (Ok tt, emitted s (Str.rstrip raw) false)
     ∧ resolve_line Fadfa.parse_line lnum raw r = (Ok tt, r)).
Proof.
  split.
  - intros raw labels lnum s r [Hf Hc]%plain_line_first Hle.
    destruct (P1_comment_only _ Hf Hc) as (f & Hp & Hk & Hl & _).
    destruct (unbound_comment _ labels raw f Hp Hk Hl) as [Hok Hb].
    split.
    + destruct (P1Step.step_ok labels lnum raw s Hok Hle)
        as (f' & text & Hp' & Hrw & ->).
      rewrite Hp in Hp'. injection Hp' as <-.
      rewrite (P1.rewrite_line_comment _ _ _ _ Hp Hk) in Hrw.
      apply (f_equal snd), emitted_inj in Hrw. subst text.
      unfold occupies. by rewrite Hk.
    + rewrite (ResolveFacts.resolve_line_spec Phase1.parse_line
                 P1.parsed_label P1_raises). by rewrite Hb.
  - intros raw labels lnum s r [Hf Hc]%plain_line_first Hle.
    destruct (FA_comment_only _ Hf Hc) as (f & Hp & Hk & Hl & _).
    destruct (unbound_comment _ labels raw f Hp Hk Hl) as [Hok Hb].
    split.
    + destruct (FAStep.step_ok_fa labels lnum raw s Hok Hle)
        as (f' & text & Hp' & Hrw & ->).
      rewrite Hp in Hp'. injection Hp' as <-.
      rewrite (FA.rewrite_line_comment_fa _ _ _ _ Hp Hk) in Hrw.
      apply (f_equal snd), emitted_inj in Hrw. subst text.
      unfold occupies. by rewrite Hk.
    + rewrite (ResolveFacts.resolve_line_spec Fadfa.parse_line
                 FA.parsed_label_fa FA_raises). by rewrite Hb.
Qed.

Lemma comment_line_takes_no_address_witness :
  let raw := String "009" "# set up" +:+ String "010" "" in
  remark_line (Str.rstrip raw)
  ∧ (error_count initial ≤ 5)%nat
  ∧ Phase1.transform_line ∅ 3 raw initial
    = (Ok tt, emitted initial (Str.rstrip raw) false)
  ∧ resolve_line Phase1.parse_line 3 raw (RState ∅ 7) = (Ok tt, RState ∅ 7).
Proof.
  intros raw.
  assert (H1 : remark_line (Str.rstrip raw)).
  { exists (String "009" ""), "# set up". repeat split.
    exists "#"%char, " set up". done. }
  assert (H2 : (error_count initial ≤ 5)%nat) by (simpl; lia).
  split; [exact H1|]. split; [exact H2|].
  exact (proj1 comment_line_takes_no_address raw ∅ 3%nat initial
           (RState ∅ 7) (or_intror H1) H2).
Defined.

(** X6.  In both programs, the first character that is not white space of
    a line that matches a pattern is a letter, [#] or [;], if there is one;
    it is a letter when the kind of the line is not COMMENT.  So a line
    that begins with a digit or with any other sign is a syntax error. *)
Theorem line_begins_with_letter_or_mark :
  (∀ line f,
     Phase1.parse_line line = Ok f →
     (kind f ≠ COMMENT →
      ∃ b, first_solid line = Some b ∧ Str.is_alpha b = true)
     ∧ (first_solid line = None
        ∨ ∃ b, first_solid line = Some b
               ∧ (Str.is_alpha b = true
                  ∨ Str.is_char "#" b || Str.is_char ";" b = true)))
  ∧ (∀ line f,
     Fadfa.parse_line line = Ok f →
     (kind f ≠ COMMENT →
      ∃ b, first_solid line = Some b ∧ Str.is_alpha b = true)
     ∧ (first_solid line = None
        ∨ ∃ b, first_solid line = Some b
               ∧ (Str.is_alpha b = true
                  ∨ Str.is_char "#" b || Str.is_char ";" b = true))).
Proof.
  split.
  - intros line f Hp. split; [by apply P1_head|].
    destruct (first_solid line) as [b|] eqn:E; [|by left]. right.
    exists b. split; [done|].
    destruct (Str.is_alpha b) eqn:Hal; [by left|]. right.
    destruct (Str.is_char "#" b || Str.is_char ";" b) eqn:Hm; [done|].
    rewrite (P1_odd_head line b E Hal Hm) in Hp. done.
  - intros line f Hp. split; [by apply FA_head|].
    destruct (first_solid line) as [b|] eqn:E; [|by left]. right.
    exists b. split; [done|].
    destruct (Str.is_alpha b) eqn:Hal; [by left|]. right.
    destruct (Str.is_char "#" b || Str.is_char ";" b) eqn:Hm; [done|].
    rewrite (FA_odd_head line b E Hal Hm) in Hp. done.
Qed.

Lemma line_begins_with_letter_or_mark_witness :
  let line := "  loop: ADD r1,r2,r3" in
  let f := Sample.parsed (Phase1.parse_line line) in
  Phase1.parse_line line = Ok f ∧ kind f ≠ COMMENT
  ∧ ∃ b, first_solid line = Some b ∧ Str.is_alpha b = true.
Proof.
  intros line f.
  assert (H1 : Phase1.parse_line line = Ok f) by (vm_compute; reflexivity).
  assert (H2 : kind f ≠ COMMENT) by (vm_compute; discriminate).
  split; [exact H1|]. split; [exact H2|].
  exact (proj1 (proj1 line_begins_with_letter_or_mark line f H1) H2).
Defined.

End Lines.

(** ** The table of labels *)

Module Tables.
Import Re Asm AsmFacts Runs Rstrip Linking.

(** X7.  [resolve] on two lists of lines one after the other, in both
    programs: a label that the second list defines is bound to its address
    in the second list plus the number of addresses that the first list
    takes; any other label is bound as in the first list. *)
Theorem labels_of_appended_lines :
  (∀ lines more,
     ∃ t1 tm t2,
       Phase1.resolve lines = Ok t1 ∧ Phase1.resolve more = Ok tm
       ∧ Phase1.resolve (lines ++ more) = Ok t2
       ∧ ∀ name,
           t2 !! name
           = match tm !! name with
             | Some a => Some (addresses Phase1.parse_line lines + a)%Z
             | None => t1 !! name
             end)
  ∧ (∀ lines more,
     ∃ t1 tm t2,
       Fadfa.resolve lines = Ok t1 ∧ Fadfa.resolve more = Ok tm
       ∧ Fadfa.resolve (lines ++ more) = Ok t2
       ∧ ∀ name,
           t2 !! name
           = match tm !! name with
             | Some a => Some (addresses Fadfa.parse_line lines + a)%Z
             | None => t1 !! name
             end).
Proof.
  split; intros lines more.
  - pose proof (resolve_fold Phase1.parse_line P1.parsed_label P1_raises)
      as H.
    eexists _, _, _. split; [apply H|]. split; [apply H|].
    split; [apply H|]. intros name.
    by apply (resolve_app Phase1.parse_line P1.parsed_label P1_raises
                lines more).
  - pose proof (resolve_fold Fadfa.parse_line FA.parsed_label_fa FA_raises)
      as H.
    eexists _, _, _. split; [apply H|]. split; [apply H|].
    split; [apply H|]. intros name.
    by apply (resolve_app Fadfa.parse_line FA.parsed_label_fa FA_raises
                lines more).
Qed.

(** X8.  Every address in the table that [resolve] builds lies between 0
    and the number of lines that take an address, which is at most the
    number of lines: a label is bound to the address of a line or to the
    one after the last line.  Both programs. *)
Theorem addresses_of_labels_are_in_range :
  (∀ lines t name a,
     Phase1.resolve lines = Ok t → t !! name = Some a →
     (0 ≤ a ≤ addresses Phase1.parse_line lines)%Z
     ∧ (addresses Phase1.parse_line lines ≤ Z.of_nat (length lines))%Z)
  ∧ (∀ lines t name a,
     Fadfa.resolve lines = Ok t → t !! name = Some a →
     (0 ≤ a ≤ addresses Fadfa.parse_line lines)%Z
     ∧ (addresses Fadfa.parse_line lines ≤ Z.of_nat (length lines))%Z).
Proof.
  split; intros lines t name a.
  - apply (resolve_range Phase1.parse_line P1.parsed_label P1_raises).
  - apply (resolve_range Fadfa.parse_line FA.parsed_label_fa FA_raises).
Qed.

Lemma addresses_of_labels_are_in_range_witness :
  Phase1.resolve Sample.program = Ok Sample.table
  ∧ Sample.table !! "x" = Some 4%Z
  ∧ (0 ≤ 4 ≤ addresses Phase1.parse_line Sample.program)%Z
  ∧ (addresses Phase1.parse_line Sample.program
     ≤ Z.of_nat (length Sample.program))%Z.
Proof.
  assert (H1 : Phase1.resolve Sample.program = Ok Sample.table)
    by (vm_compute; reflexivity).
  assert (H2 : Sample.table !! "x" = Some 4%Z) by (vm_compute; reflexivity).
  split; [exact H1|]. split; [exact H2|].
  exact (proj1 addresses_of_labels_are_in_range Sample.program Sample.table
           "x" 4%Z H1 H2).
Defined.

(** X9.  White space at the end of the lines, the line feed that
    [readlines] leaves there too, changes nothing: two inputs whose lines
    are the same without it give the same table in [resolve] and the same
    run (exit status, emitted lines, diagnostics).  Both programs. *)
Theorem white_space_at_the_end_is_ignored :
  (∀ lines lines',
     map Str.rstrip lines = map Str.rstrip lines' →
     Phase1.resolve lines = Phase1.resolve lines'
     ∧ Phase1.main lines = Phase1.main lines')
  ∧ (∀ lines lines',
     map Str.rstrip lines = map Str.rstrip lines' →
     Fadfa.resolve lines = Fadfa.resolve lines'
     ∧ Fadfa.main lines = Fadfa.main lines').
Proof.
  split; intros lines lines' E.
  - split.
    + unfold Phase1.resolve.
      by rewrite <- (resolve_rstrip _ lines), E, resolve_rstrip.
    + by rewrite <- (P1_main_rstrip lines), E, P1_main_rstrip.
  - split.
    + unfold Fadfa.resolve.
      by rewrite <- (resolve_rstrip _ lines), E, resolve_rstrip.
    + by rewrite <- (FA_main_rstrip lines), E, FA_main_rstrip.
Qed.

Lemma white_space_at_the_end_is_ignored_witness :
  let lines := [ "x: DATA 5" +:+ String "010" ""; "  LOAD r1,x  " ] in
  let lines' := [ "x: DATA 5"; "  LOAD r1,x" ] in
  map Str.rstrip lines = map Str.rstrip lines'
  ∧ Phase1.main lines = Phase1.main lines'.
Proof.
  intros lines lines'.
  assert (H : map Str.rstrip lines = map Str.rstrip lines')
    by (vm_compute; reflexivity).
  split; [exact H|].
  exact (proj2 (proj1 white_space_at_the_end_is_ignored lines lines' H)).
Defined.

End Tables.

(** ** [fix_optional_fields] *)

Module Optional.
Import Re Asm ReFacts AsmFacts Runs.

(** A dictionary without the key [predicate]. *)
Lemma fix_optional_fields_KeyError {St} f (s : St) l :
  getitem f "label" = Ok l → items f !! "predicate" = None →
  fix_optional_fields f s = (Raise (KeyError (Some "predicate")), s).
Proof.
  intros Hl Hp. unfold fix_optional_fields, bind, lift. rewrite Hl.
  assert (H : ∀ v, getitem (setitem f "label" v) "predicate"
                   = Raise (KeyError (Some "predicate"))).
  { intros v. unfold getitem, setitem; simpl.
    by rewrite lookup_insert_ne, Hp by done. }
  destruct l; by rewrite H.
Qed.

Lemma no_key kd r (m : captures) k :
  bool_decide (k ∈ group_names r) = false →
  items (Dict kd (groupdict r m)) !! k = None.
Proof.
  intros H%bool_decide_eq_false. simpl.
  by rewrite groupdict_lookup, decide_False.
Qed.

Lemma P1_no_predicate line f :
  Phase1.parse_line line = Ok f → kind f = COMMENT ∨ kind f = DATA →
  items f !! "predicate" = None.
Proof.
  intros (pat & kd & m & Hin & D & ->)%P1.parse_pattern Hk. cbn [kind] in Hk.
  unfold Phase1.PATTERNS in Hin.
  pattern_cases Hin; try (by destruct Hk); by apply no_key.
Qed.

Lemma FA_no_predicate line f :
  Fadfa.parse_line line = Ok f → kind f = COMMENT →
  items f !! "predicate" = None.
Proof.
  intros (pat & kd & m & Hin & D & ->)%FA.parse_pattern_fa Hk. cbn [kind] in Hk.
  unfold Fadfa.PATTERNS in Hin.
  pattern_cases Hin; try done; by apply no_key.
Qed.

Lemma FA_predicate_key line f :
  Fadfa.parse_line line = Ok f → kind f ≠ COMMENT →
  ∃ p, getitem f "predicate" = Ok p.
Proof.
  intros (pat & kd & m & Hin & D & ->)%FA.parse_pattern_fa Hk. cbn [kind] in Hk.
  unfold Fadfa.PATTERNS in Hin. pattern_cases Hin; try done; has_key.
Qed.

(** X10.  [fix_optional_fields] on the fields of a line that matches a
    pattern.  Where the pattern has the three optional groups (kinds FULL,
    MEMOP and JUMP in [assembler_phase1.py], every kind but COMMENT in
    [fadfa.py]) it returns: the label is followed by a colon, and is four
    blanks when the line has none; the predicate follows a slash, and is
    the empty text when the line has none; the comment stays, and is the
    empty text when the line has none; every other field and the kind stay
    as they are.  On the fields of the other kinds it raises [KeyError] for
    the key [predicate], which their patterns do not have. *)
Theorem fix_optional_fields_on_parsed_lines :
  (∀ St line f (s : St),
     Phase1.parse_line line = Ok f →
     (kind f = FULL ∨ kind f = MEMOP ∨ kind f = JUMP →
      ∃ f', fix_optional_fields f s = (Ok f', s)
        ∧ kind f' = kind f
        ∧ field f' "label"
          = Some (match field f "label" with
                  | Some l => l +:+ ":"
                  | None => "    "
                  end)
        ∧ field f' "predicate"
          = Some (match field f "predicate" with
                  | Some p => "/" +:+ p
                  | None => ""
                  end)
        ∧ field f' "comment"
          = Some (match field f "comment" with
                  | Some c => c
                  | None => ""
                  end)
        ∧ ∀ k, k ≠ "label" → k ≠ "predicate" → k ≠ "comment" →
               getitem f' k = getitem f k)
     ∧ (kind f = COMMENT ∨ kind f = DATA →
        fix_optional_fields f s = (Raise (KeyError (Some "predicate")), s)))
  ∧ (∀ St line f (s : St),
     Fadfa.parse_line line = Ok f →
     (kind f ≠ COMMENT →
      ∃ f', fix_optional_fields f s = (Ok f', s)
        ∧ kind f' = kind f
        ∧ field f' "label"
          = Some (match field f "label" with
                  | Some l => l +:+ ":"
                  | None => "    "
                  end)
        ∧ field f' "predicate"
          = Some (match field f "predicate" with
                  | Some p => "/" +:+ p
                  | None => ""
                  end)
        ∧ field f' "comment"
          = Some (match field f "comment" with
                  | Some c => c
                  | None => ""
                  end)
        ∧ ∀ k, k ≠ "label" → k ≠ "predicate" → k ≠ "comment" →
               getitem f' k = getitem f k)
     ∧ (kind f = COMMENT →
        fix_optional_fields f s = (Raise (KeyError (Some "predicate")), s))).
Proof.
  split; intros St line f s Hp.
  - destruct (P1.parsed_label _ _ Hp) as [l Hl].
    destruct (P1.parsed_comment _ _ Hp) as [c Hc]. split.
    + intros Hk.
      destruct (P1.parsed_predicate _ _ Hp) as [p Hpr];
        [by destruct Hk as [->|[->| ->]]..|].
      destruct (fix_optional_fields_ok f s l p c Hl Hpr Hc)
        as (f' & Hf & ? & Hl' & Hp' & Hc' & Hframe).
      exists f'. rewrite (getitem_field _ _ _ Hl), (getitem_field _ _ _ Hpr),
        (getitem_field _ _ _ Hc), (getitem_field _ _ _ Hl'),
        (getitem_field _ _ _ Hp'), (getitem_field _ _ _ Hc'). done.
    + intros Hk. apply (fix_optional_fields_KeyError f s l Hl).
      by apply (P1_no_predicate line).
  - destruct (FA.parsed_label_fa _ _ Hp) as [l Hl].
    destruct (FA.parsed_comment_fa _ _ Hp) as [c Hc]. split.
    + intros Hk. destruct (FA_predicate_key _ _ Hp Hk) as [p Hpr].
      destruct (fix_optional_fields_ok f s l p c Hl Hpr Hc)
        as (f' & Hf & ? & Hl' & Hp' & Hc' & Hframe).
      exists f'. rewrite (getitem_field _ _ _ Hl), (getitem_field _ _ _ Hpr),
        (getitem_field _ _ _ Hc), (getitem_field _ _ _ Hl'),
        (getitem_field _ _ _ Hp'), (getitem_field _ _ _ Hc'). done.
    + intros Hk. apply (fix_optional_fields_KeyError f s l Hl).
      by apply (FA_no_predicate line).
Qed.

Lemma fix_optional_fields_on_parsed_lines_witness :
  let line := "LOAD/Z r1,x" in
  let f := Sample.parsed (Phase1.parse_line line) in
  Phase1.parse_line line = Ok f
  ∧ (kind f = FULL ∨ kind f = MEMOP ∨ kind f = JUMP)
  ∧ ∃ f', fix_optional_fields f tt = (Ok f', tt)
      ∧ field f' "label" = Some "    "
      ∧ field f' "predicate" = Some "/Z"
      ∧ field f' "comment" = Some "".
Proof.
  intros line f.
  assert (H1 : Phase1.parse_line line = Ok f) by (vm_compute; reflexivity).
  assert (H2 : kind f = FULL ∨ kind f = MEMOP ∨ kind f = JUMP)
    by (right; left; reflexivity).
  split; [exact H1|]. split; [exact H2|].
  destruct (proj1 (proj1 fix_optional_fields_on_parsed_lines unit line f tt
                     H1) H2) as (f' & Hf & _ & Hl & Hp & Hc & _).
  exists f'. split; [exact Hf|]. split; [exact Hl|]. split; [exact Hp|].
  exact Hc.
Defined.

End Optional.

(** ** The guarded opcode of [fadfa.py] *)

Module Guard.
Import Re Asm StrFacts ReFacts AsmFacts Runs Shapes.

Lemma strip_prefix_longer l x y t :
  Str.strip_prefix l x = Some y → Str.strip_prefix l (x +:+ t) = Some (y +:+ t).
Proof.
  revert x. induction l as [|a l IH]; intros x; simpl.
  - by intros [= ->].
  - destruct x as [|b x]; [done|]. rewrite string_app_cons.
    destruct (Ascii.eqb a b); [apply IH|done].
Qed.

Lemma startswith_longer x l t :
  Str.startswith (x +:+ t) l = false → Str.startswith x l = false.
Proof.
  unfold Str.startswith. destruct (Str.strip_prefix l x) as [y|] eqn:E; [|done].
  by rewrite (strip_prefix_longer _ _ _ t E).
Qed.

(** No text that the guard refuses begins inside a guarded repetition. *)
Lemma rep_guard l1 l2 f p w t (c c' : captures) :
  rep (den (Seq (NotAhead (Alt (Lit l1) (Lit l2))) (Class f))) p w t c c' →
  (l1 ≠ "" → Str.contains w l1 = false)
  ∧ (l2 ≠ "" → Str.contains w l2 = false).
Proof.
  induction 1 as [p t c|p w1 w2 t c c1 c2 D _ IH].
  - split; intros Hne; [by destruct l1|by destruct l2].
  - destruct D as (u1 & u2 & d & -> & (-> & _ & E) & (a & -> & _ & _)).
    cbn [rmatch rest] in E. apply app_eq_nil in E as [E1 E2].
    rewrite string_app_nil_l, string_app_cons, string_app_nil_l in *.
    assert (S1 : Str.startswith (String a w2) l1 = false).
    { apply (startswith_longer _ _ t). unfold Str.startswith.
      rewrite string_app_cons. by destruct (Str.strip_prefix l1 _). }
    assert (S2 : Str.startswith (String a w2) l2 = false).
    { apply (startswith_longer _ _ t). unfold Str.startswith.
      rewrite string_app_cons. by destruct (Str.strip_prefix l2 _). }
    cbn [Str.contains]. rewrite S1, S2. simpl. exact IH.
Qed.

Lemma guarded_opcode l1 l2 p w t (c c' : captures) :
  den (Seq WordBoundary
         (Plus (Seq (NotAhead (Alt (Lit l1) (Lit l2))) (Class Str.is_alpha))))
      p w t c c' →
  l1 ≠ "" → l2 ≠ "" →
  Str.contains w l1 = false ∧ Str.contains w l2 = false.
Proof.
  intros (u1 & u2 & d & -> & (-> & _) & D) H1 H2.
  rewrite string_app_nil_l.
  assert (R : rep (den (Seq (NotAhead (Alt (Lit l1) (Lit l2)))
                            (Class Str.is_alpha))) (Str.last "" p) u2 t d c').
  { destruct D as (v1 & v2 & d' & -> & D1 & D2). by econstructor. }
  apply rep_guard in R as [R1 R2]. auto.
Qed.

Lemma FA_memop_opcode line f op :
  Fadfa.parse_line line = Ok f → kind f = MEMOP →
  field f "opcode" = Some op →
  Str.contains op "LDA" = false ∧ Str.contains op "lda" = false.
Proof.
  intros (pat & kd & m & Hin & D & ->)%FA.parse_pattern_fa Hk. cbn [kind] in Hk.
  unfold Fadfa.PATTERNS in Hin.
  pattern_cases Hin; try done.
  apply (field_shape (λ op, Str.contains op "LDA" = false
                            ∧ Str.contains op "lda" = false) _ _ _ _ _ _ D).
  intros r1 p w t c c' Hr1 D1.
  group_is Hr1 [Seq WordBoundary
                  (Plus (Seq (NotAhead (Alt (Lit "LDA") (Lit "lda")))
                             (Class Str.is_alpha)))].
  one_pattern Hr1. by eapply guarded_opcode.
Qed.

(** X11.  In [fadfa.py] the opcode of a line of kind MEMOP holds neither
    [LDA] nor [lda], at its beginning or further on: the pattern looks
    ahead at every letter of the opcode. *)
Theorem fadfa_memop_opcode_never_holds_LDA line f op :
  Fadfa.parse_line line = Ok f → kind f = MEMOP →
  field f "opcode" = Some op →
  Str.contains op "LDA" = false ∧ Str.contains op "lda" = false.
Proof. apply FA_memop_opcode. Qed.

Lemma fadfa_memop_opcode_never_holds_LDA_witness :
  let line := "LOAD r1,x" in
  let f := Sample.parsed (Fadfa.parse_line line) in
  Fadfa.parse_line line = Ok f ∧ kind f = MEMOP
  ∧ field f "opcode" = Some "LOAD"
  ∧ Str.contains "LOAD" "LDA" = false ∧ Str.contains "LOAD" "lda" = false.
Proof.
  intros line f.
  assert (H1 : Fadfa.parse_line line = Ok f) by (vm_compute; reflexivity).
  assert (H2 : kind f = MEMOP) by (vm_compute; reflexivity).
  assert (H3 : field f "opcode" = Some "LOAD") by (vm_compute; reflexivity).
  split; [exact H1|]. split; [exact H2|]. split; [exact H3|].
  exact (fadfa_memop_opcode_never_holds_LDA line f "LOAD" H1 H2 H3).
Defined.

End Guard.

(** ** [squish] *)

Module Squish.
Import Re Asm StrFacts Rstrip Text Phase1.

Lemma split_blank s acc :
  blank s → split s acc = split "" acc.
Proof.
  revert acc. induction s as [|c s IH]; intros acc; [done|].
  unfold blank. cbn [Str.forallb split].
  intros [-> Hs]%andb_prop. destruct acc; rewrite (IH "" Hs); done.
Qed.

Lemma split_rstrip s : ∀ acc, split (Str.rstrip s) acc = split s acc.
Proof.
  induction s as [|c s IH]; intros acc; [done|]. rewrite rstrip_cons.
  destruct (Str.forallb Str.is_space (String c s)) eqn:E.
  - by rewrite (split_blank (String c s)).
  - cbn [split]. destruct (Str.is_space c); [destruct acc|]; by rewrite ?IH.
Qed.

Lemma split_lstrip s : split (Phase1.lstrip s) "" = split s "".
Proof.
  induction s as [|c s IH]; [done|]. cbn [Phase1.lstrip split].
  destruct (Str.is_space c) eqn:Hc; [done|]. cbn [split]. by rewrite Hc.
Qed.

Lemma split_strip s : split (strip s) "" = split s "".
Proof. unfold strip. by rewrite split_lstrip, split_rstrip. Qed.

Lemma solid_app a b : solid a → solid b → solid (a +:+ b).
Proof.
  unfold solid. intros Ha Hb. by rewrite string_forallb_app, Ha, Hb.
Qed.

(** The words of a text are words. *)
Lemma split_words s : ∀ acc, solid acc → Forall word (split s acc).
Proof.
  induction s as [|c s IH]; intros acc Hacc; cbn [split].
  - destruct acc; [constructor|]. by repeat constructor.
  - destruct (Str.is_space c) eqn:Hc.
    + destruct acc; [by apply IH|].
      constructor; [by split|by apply IH].
    + apply IH, solid_app; [done|]. unfold solid; simpl. by rewrite Hc.
Qed.

Lemma split_solid w : ∀ s acc,
  solid w → split (w +:+ s) acc = split s (acc +:+ w).
Proof.
  induction w as [|c w IH]; intros s acc.
  - by rewrite string_app_nil_l, string_app_nil_r.
  - unfold solid; cbn [Str.forallb]. intros [Hc Hw]%andb_prop.
    apply negb_true_iff in Hc. rewrite string_app_cons. cbn [split].
    rewrite Hc, IH by done. by rewrite string_app_assoc.
Qed.

(** Joining words with single blanks and splitting the text again gives
    the words back. *)
Lemma split_join ws : Forall word ws → split (join " " ws) "" = ws.
Proof.
  induction 1 as [|w ws [Hne Hw] Hws IH]; [done|].
  destruct ws as [|w' ws].
  - cbn [join].
    replace (split w "") with (split (w +:+ "") "")
      by (by rewrite string_app_nil_r).
    rewrite split_solid, string_app_nil_l by done. cbn [split].
    by destruct w.
  - change (join " " (w :: w' :: ws))
      with (w +:+ " " +:+ join " " (w' :: ws)).
    rewrite split_solid, string_app_nil_l by done.
    change (" " +:+ join " " (w' :: ws))
      with (String " " (join " " (w' :: ws))).
    cbn [split]. change (Str.is_space " ") with true. cbv iota.
    rewrite IH. by destruct w.
Qed.

Lemma without_spaces_join ws :
  Str.without_spaces (join " " ws)
  = foldr (λ w r, Str.without_spaces w +:+ r) "" ws.
Proof.
  induction ws as [|w ws IH]; [done|]. destruct ws as [|w' ws].
  - simpl. by rewrite string_app_nil_r.
  - change (join " " (w :: w' :: ws))
      with (w +:+ " " +:+ join " " (w' :: ws)).
    unfold Str.without_spaces in *. rewrite !string_filter_app, IH. done.
Qed.

Lemma without_spaces_split s : ∀ acc,
  foldr (λ w r, Str.without_spaces w +:+ r) "" (split s acc)
  = Str.without_spaces (acc +:+ s).
Proof.
  induction s as [|c s IH]; intros acc; cbn [split].
  - destruct acc; [done|]. simpl. by rewrite !string_app_nil_r.
  - unfold Str.without_spaces in *.
    destruct (Str.is_space c) eqn:Hc.
    + rewrite string_filter_app. cbn [Str.filter]. rewrite Hc. simpl.
      destruct acc.
      * rewrite IH. done.
      * cbn [foldr]. rewrite IH. done.
    + rewrite IH. rewrite string_app_assoc. done.
Qed.

Lemma split_nil s : ∀ acc, split s acc = [] → acc = "" ∧ blank s.
Proof.
  induction s as [|c s IH]; intros acc; cbn [split].
  - by destruct acc.
  - unfold blank. cbn [Str.forallb]. destruct (Str.is_space c) eqn:Hc.
    + destruct acc; [|done]. by intros [_ ->]%IH.
    + intros [H _]%IH. by destruct acc.
Qed.

Lemma join_nil ws : Forall word ws → join " " ws = "" → ws = [].
Proof.
  destruct ws as [|w ws]; [done|]. intros [[Hne _] _]%Forall_cons.
  destruct ws as [|w' ws]; [done|].
  change (join " " (w :: w' :: ws)) with (w +:+ " " +:+ join " " (w' :: ws)).
  by destruct w.
Qed.

(** X12.  [squish] is idempotent: a text that it has returned is returned
    as it is. *)
Theorem squish_is_idempotent s : squish (squish s) = squish s.
Proof.
  unfold squish. rewrite !split_strip.
  rewrite split_join; [done|]. by apply split_words.
Qed.

(** X13.  [squish] keeps the words of the text and what is between them
    becomes one blank: the result is the words of the text, each not empty
    and without white space, joined by single blanks; it has the same
    words as the text and, white space apart, the same characters; it is
    empty exactly when the text is white space only. *)
Theorem squish_keeps_the_words s :
  squish s = join " " (split s "")
  ∧ Forall word (split s "")
  ∧ split (squish s) "" = split s ""
  ∧ Str.without_spaces (squish s) = Str.without_spaces s
  ∧ (squish s = "" ↔ blank s).
Proof.
  assert (Hw : Forall word (split s "")) by (by apply split_words).
  assert (Hs : squish s = join " " (split s ""))
    by (unfold squish; by rewrite split_strip).
  split; [done|]. split; [done|].
  split; [by rewrite Hs, split_join|].
  split; [by rewrite Hs, without_spaces_join, without_spaces_split|].
  rewrite Hs. split.
  - intros H%join_nil; [|done]. by apply split_nil in H as [_ H].
  - intros H. by rewrite (split_blank s "" H).
Qed.

End Squish.

(** ** [value_parse] and the decimal text of an integer *)

Module ReadBack.
Import Str StrFacts Asm Rstrip Literals Phase1.

Lemma scan_cons c acc n b s :
  is_digit c = true →
  scan 10 acc n b (String c s) = scan 10 (acc * 10 + digit_of c) (S n) true s.
Proof. intros (Hu & _ & Hd)%decimal_digit. cbn [scan]. by rewrite Hu, Hd. Qed.

Ltac next_digit IH acc n :=
  rewrite scan_cons by reflexivity;
  match goal with
  | |- context [Pos.of_uint_acc _ ?acc'] =>
      destruct (IH acc' (S n)) as [m Hm]; exists m; rewrite <- Hm
  end;
  do 2 f_equal;
  match goal with
  | |- context [digit_of ?c] =>
      let v := eval vm_compute in (digit_of c) in
      change (digit_of c) with v
  end; lia.

(** The loop over the digits of a numeral computes what Rocq reads in the
    numeral. *)
Lemma scan_acc u : ∀ (acc : positive) n,
  ∃ m, scan 10 (Z.pos acc) n true (NilEmpty.string_of_uint u)
       = Some (Z.pos (Pos.of_uint_acc u acc), m, "").
Proof.
  induction u as [|u IH|u IH|u IH|u IH|u IH|u IH|u IH|u IH|u IH|u IH];
    intros acc n; cbn [NilEmpty.string_of_uint Pos.of_uint_acc];
    [by exists n|..]; next_digit IH acc n.
Qed.

Ltac first_digit n :=
  rewrite scan_cons by reflexivity; cbn [Z.of_N];
  match goal with
  | |- context [Pos.of_uint_acc ?u ?acc] =>
      destruct (scan_acc u acc (S n)) as [m Hm]; exists m; rewrite <- Hm
  end;
  do 2 f_equal.

Lemma scan_uint u : ∀ n b,
  u ≠ Decimal.Nil ∨ b = true →
  ∃ m, scan 10 0 n b (NilEmpty.string_of_uint u)
       = Some (Z.of_N (Pos.of_uint u), m, "").
Proof.
  induction u as [|u IH|u IH|u IH|u IH|u IH|u IH|u IH|u IH|u IH|u IH];
    intros n b Hb; cbn [NilEmpty.string_of_uint Pos.of_uint];
    [destruct Hb as [Hn | ->]; [done|by exists n]| |first_digit n..].
  rewrite scan_cons by reflexivity. apply IH. by right.
Qed.

Lemma number_uint u :
  u ≠ Decimal.Nil →
  number 10 (NilEmpty.string_of_uint u) = Z.of_N (Pos.of_uint u).
Proof.
  intros Hu.
  destruct (scan_uint u 0 false (or_introl Hu)) as [m H].
  rewrite (scan_number 10 is_digit decimal_digit) in H.
  - injection H as <- _. lia.
  - apply Accepts.string_of_uint_digits.
  - left. by destruct u.
Qed.

Lemma numeral_of_positive p :
  let d := NilEmpty.string_of_uint (Pos.to_uint p) in
  d ≠ "" ∧ forallb is_digit d = true ∧ number 10 d = Z.pos p.
Proof.
  pose proof (Unsigned.to_uint_nonnil p) as Hn. cbv zeta.
  split; [by destruct (Pos.to_uint p)|].
  split; [apply Accepts.string_of_uint_digits|].
  by rewrite number_uint, Unsigned.of_to.
Qed.

Lemma of_Z_positive p :
  of_Z (Z.pos p) = NilEmpty.string_of_uint (Pos.to_uint p).
Proof.
  unfold of_Z. cbn [Z.to_int NilZero.string_of_int NilZero.string_of_uint].
  pose proof (Unsigned.to_uint_nonnil p). by destruct (Pos.to_uint p).
Qed.

Lemma of_Z_negative p :
  of_Z (Z.neg p) = String "-" (NilEmpty.string_of_uint (Pos.to_uint p)).
Proof.
  unfold of_Z. cbn [Z.to_int NilZero.string_of_int NilZero.string_of_uint].
  pose proof (Unsigned.to_uint_nonnil p). by destruct (Pos.to_uint p).
Qed.

(** X14.  [value_parse] reads the decimal text of an integer back, as far
    as [int] goes in base 10: for every integer [z] whose decimal text has
    at most 4300 digits, negative ones too, [value_parse(str(z))] returns
    [z].  The displacements that [transform] prints are such texts. *)
Theorem value_parse_reads_back_str z :
  (String.length (of_Z (Z.abs z)) ≤ 4300)%nat →
  value_parse (of_Z z) = Ok z.
Proof.
  destruct z as [|p|p]; intros Hlen.
  - vm_compute. reflexivity.
  - destruct (numeral_of_positive p) as (Hne & Hd & Hv).
    change (Z.abs (Z.pos p)) with (Z.pos p) in Hlen.
    rewrite of_Z_positive in *. rewrite value_parse_decimal by done.
    by rewrite Hv.
  - destruct (numeral_of_positive p) as (Hne & Hd & Hv).
    change (Z.abs (Z.neg p)) with (Z.pos p) in Hlen.
    rewrite of_Z_positive in Hlen. rewrite of_Z_negative.
    unfold value_parse.
    change (startswith (String "-" _) "0x") with false. cbv iota.
    unfold int. cbn [skip_spaces]. change (int_space "-") with false.
    cbv iota. cbn [Z.eqb Pos.eqb andb].
    rewrite (scan_number 10 is_digit decimal_digit) by auto.
    rewrite Nat.add_0_l.
    destruct (Nat.ltb_spec int_max_str_digits
                (String.length (NilEmpty.string_of_uint (Pos.to_uint p))))
      as [H|H]; [unfold int_max_str_digits in H; lia|].
    rewrite andb_false_r. cbn [skip_spaces]. rewrite Hv. done.
Qed.

Lemma value_parse_reads_back_str_witness :
  (String.length (of_Z (Z.abs (-42))) ≤ 4300)%nat
  ∧ value_parse (of_Z (-42)) = Ok (-42)%Z.
Proof.
  assert (H : (String.length (of_Z (Z.abs (-42))) ≤ 4300)%nat)
    by (vm_compute; lia).
  split; [exact H|]. exact (value_parse_reads_back_str (-42) H).
Defined.

Ltac stops_at c :=
  cbv beta iota; change (int_max_str_digits <? 1)%nat with false;
  rewrite andb_false_r; cbn [skip_spaces];
  change (int_space c) with false; reflexivity.

(** X15.  [value_parse] looks for the prefix [0x] in lower case and at the
    very beginning only: a text with the prefix [0X], and a hexadecimal
    literal with a sign in front, are read in base 10 and raise
    [ValueError], whatever follows the prefix. *)
Theorem value_parse_rejects_other_prefixes h :
  (∃ msg, value_parse ("0X" +:+ h) = Raise (ValueError msg))
  ∧ (∃ msg, value_parse ("-0x" +:+ h) = Raise (ValueError msg))
  ∧ (∃ msg, value_parse ("+0x" +:+ h) = Raise (ValueError msg)).
Proof.
  assert (H1 : value_parse ("0X" +:+ h) = Raise (invalid_literal ("0X" +:+ h) 10)).
  { change ("0X" +:+ h) with (String "0" (String "X" h)).
    unfold value_parse.
    change (startswith (String "0" (String "X" h)) "0x") with false.
    cbv iota. unfold int. cbn [skip_spaces]. change (int_space "0") with false.
    cbv iota. cbn [Z.eqb Pos.eqb andb].
    change (scan 10 0 0 false (String "0" (String "X" h)))
      with (Some (0%Z, 1%nat, String "X" h)).
    stops_at "X"%char. }
  assert (H2 : value_parse ("-0x" +:+ h) = Raise (invalid_literal ("-0x" +:+ h) 10)).
  { change ("-0x" +:+ h) with (String "-" (String "0" (String "x" h))).
    unfold value_parse.
    change (startswith (String "-" (String "0" (String "x" h))) "0x") with false.
    cbv iota. unfold int. cbn [skip_spaces]. change (int_space "-") with false.
    cbv iota. cbn [Z.eqb Pos.eqb andb].
    change (scan 10 0 0 false (String "0" (String "x" h)))
      with (Some (0%Z, 1%nat, String "x" h)).
    stops_at "x"%char. }
  assert (H3 : value_parse ("+0x" +:+ h) = Raise (invalid_literal ("+0x" +:+ h) 10)).
  { change ("+0x" +:+ h) with (String "+" (String "0" (String "x" h))).
    unfold value_parse.
    change (startswith (String "+" (String "0" (String "x" h))) "0x") with false.
    cbv iota. unfold int. cbn [skip_spaces]. change (int_space "+") with false.
    cbv iota. cbn [Z.eqb Pos.eqb andb].
    change (scan 10 0 0 false (String "0" (String "x" h)))
      with (Some (0%Z, 1%nat, String "x" h)).
    stops_at "x"%char. }
  rewrite H1, H2, H3. unfold invalid_literal.
  repeat split; eexists; reflexivity.
Qed.

End ReadBack.

(** ** Lines that no pattern matches *)

Module Dropped.
Import Str Re Asm AsmFacts Runs Linking.

Lemma failures_app parse_line labels pre post :
  failures parse_line labels (pre ++ post)
  = (failures parse_line labels pre + failures parse_line labels post)%nat.
Proof. induction pre as [|raw pre IH]; simpl; [done|]. rewrite IH. lia. Qed.

Lemma bound_syntax parse_line r raw e :
  parse_line (rstrip raw) = Raise e → bound parse_line r raw = r.
Proof.
  intros H. unfold bound, defines, takes_address. rewrite H. by destruct r.
Qed.

Section Rewriter.

Variable parse_line : string → result dict.
Variable transform_line : gmap string Z → nat → string → M tstate unit.
Variables (failed : tstate → string → tstate) (abandoned : tstate → tstate).

Hypothesis step_fail :
  ∀ labels lnum raw s,
    fails parse_line labels raw = true →
    transform_line labels lnum raw s =
    if (5 <? S (error_count s))%nat
    then (Raise (SystemExit 1),
          abandoned (failed s (diagnostic parse_line lnum raw)))
    else (Ok tt, failed s (diagnostic parse_line lnum raw)).

Hypothesis step_text :
  ∀ labels raw,
    fails parse_line labels raw = false →
    ∃ (text_of : Z → string) (occ : bool),
      ∀ lnum s, (error_count s ≤ 5)%nat →
        transform_line labels lnum raw s
        = (Ok tt, emitted s (text_of (address s)) occ).

Hypothesis failed_count : ∀ s d, error_count (failed s d) = S (error_count s).
Hypothesis failed_address : ∀ s d, address (failed s d) = address s.
Hypothesis failed_transformed : ∀ s d, transformed (failed s d) = transformed s.

Lemma loop_step labels n raw lines s :
  loop transform_line labels n (raw :: lines) s =
  match transform_line labels n raw s with
  | (Ok _, s') => loop transform_line labels (S n) lines s'
  | (Raise e, s') => (Raise e, s')
  end.
Proof.
  unfold loop. cbn [for_lines]. unfold bind.
  by destruct (transform_line labels n raw s) as [[[]|e] s'].
Qed.

(** The same lines from two states that are alike, under any numbering of
    the lines and with any number of errors counted so far. *)
Lemma loop_alike labels lines : ∀ n n' s s',
  alike s s' →
  (error_count s + failures parse_line labels lines ≤ 5)%nat →
  (error_count s' + failures parse_line labels lines ≤ 5)%nat →
  ∃ t t',
    loop transform_line labels n lines s = (Ok tt, t)
    ∧ loop transform_line labels n' lines s' = (Ok tt, t')
    ∧ alike t t'.
Proof.
  induction lines as [|raw lines IH]; intros n n' s s' [Ha Ht] Hs Hs'.
  - by exists s, s'.
  - rewrite !loop_step. cbn [failures] in Hs, Hs'.
    destruct (fails parse_line labels raw) eqn:Hf.
    + rewrite !step_fail by done.
      destruct (Nat.ltb_spec 5 (S (error_count s))); [lia|].
      destruct (Nat.ltb_spec 5 (S (error_count s'))); [lia|].
      apply IH; rewrite ?failed_count; [|lia..].
      split; by rewrite ?failed_address, ?failed_transformed.
    + destruct (step_text labels raw Hf) as (text_of & occ & Hstep).
      rewrite !Hstep by lia. apply IH; [|simpl in *; lia..].
      split; cbn [emitted address transformed]; by rewrite Ha, ?Ht.
Qed.

(** A failing line between [pre] and [post] leaves the address counter
    and the emitted lines as they are without it. *)
Lemma loop_dropped labels bad post pre : ∀ n s s',
  fails parse_line labels bad = true →
  alike s s' →
  (error_count s + failures parse_line labels (pre ++ bad :: post) ≤ 5)%nat →
  (error_count s' + failures parse_line labels (pre ++ post) ≤ 5)%nat →
  ∃ t t',
    loop transform_line labels n (pre ++ bad :: post) s = (Ok tt, t)
    ∧ loop transform_line labels n (pre ++ post) s' = (Ok tt, t')
    ∧ alike t t'.
Proof.
  intros n s s' Hbad. revert n s s'.
  induction pre as [|raw pre IH]; intros n s s' [Ha Ht] Hs Hs'.
  - cbn [app] in *. rewrite loop_step, step_fail by done.
    cbn [failures] in Hs. rewrite Hbad in Hs.
    destruct (Nat.ltb_spec 5 (S (error_count s))); [lia|].
    apply loop_alike; rewrite ?failed_count; [|lia..].
    split; by rewrite ?failed_address, ?failed_transformed.
  - cbn [app] in *. rewrite !loop_step. cbn [failures] in Hs, Hs'.
    destruct (fails parse_line labels raw) eqn:Hf.
    + rewrite !step_fail by done.
      destruct (Nat.ltb_spec 5 (S (error_count s))); [lia|].
      destruct (Nat.ltb_spec 5 (S (error_count s'))); [lia|].
      apply IH; rewrite ?failed_count; [|lia..].
      split; by rewrite ?failed_address, ?failed_transformed.
    + destruct (step_text labels raw Hf) as (text_of & occ & Hstep).
      rewrite !Hstep by lia. apply IH; [|simpl in *; lia..].
      split; cbn [emitted address transformed]; by rewrite Ha, ?Ht.
Qed.

Variable transform : list string → M tstate (list string).

Hypothesis has_label :
  ∀ line f, parse_line line = Ok f → ∃ l, getitem f "label" = Ok l.
Hypothesis raises_Exception :
  ∀ line e, parse_line line = Raise e → is_Exception e = true.
Hypothesis transform_eq :
  ∀ lines,
    transform lines =
    (labels <- lift (resolve parse_line lines) ;;
     for_lines (transform_line labels) 0 lines ;;
     s <- get ;;
     ret (transformed s)).

Lemma resolve_dropped pre bad post e :
  parse_line (rstrip bad) = Raise e →
  resolve parse_line (pre ++ bad :: post) = resolve parse_line (pre ++ post).
Proof.
  intros H.
  rewrite !(resolve_fold parse_line has_label raises_Exception), !foldl_app.
  cbn [foldl]. by rewrite (bound_syntax _ _ _ _ H).
Qed.

(** A run that ends normally emits the same lines without a line that no
    pattern matches. *)
Lemma transform_dropped pre bad post e labels :
  parse_line (rstrip bad) = Raise e →
  resolve parse_line (pre ++ bad :: post) = Ok labels →
  (failures parse_line labels (pre ++ bad :: post) ≤ 5)%nat →
  ∃ t t',
    transform (pre ++ bad :: post) initial = (Ok (transformed t), t)
    ∧ transform (pre ++ post) initial = (Ok (transformed t), t')
    ∧ resolve parse_line (pre ++ post) = Ok labels.
Proof.
  intros Hp Hres Hle.
  assert (Hbad : fails parse_line labels bad = true)
    by (unfold fails; by rewrite Hp).
  assert (Hres' : resolve parse_line (pre ++ post) = Ok labels)
    by (by rewrite <- (resolve_dropped pre bad post e Hp)).
  assert (Hle' : (failures parse_line labels (pre ++ post) ≤ 5)%nat).
  { rewrite failures_app in *. cbn [failures] in Hle. lia. }
  destruct (loop_dropped labels bad post pre 0 initial initial Hbad)
    as (t & t' & Hrun & Hrun' & Ha & Ht); [done|simpl; lia..|].
  exists t, t'. rewrite !transform_eq. unfold bind at 1 3, lift.
  rewrite Hres, Hres'. unfold loop in Hrun, Hrun'.
  unfold bind, get, ret. rewrite Hrun, Hrun', Ht. done.
Qed.

End Rewriter.

(** The text that a line is emitted with depends on the state through
    the address counter only. *)
Lemma P1_step_text labels raw :
  fails Phase1.parse_line labels raw = false →
  ∃ (text_of : Z → string) (occ : bool),
    ∀ lnum s, (error_count s ≤ 5)%nat →
      Phase1.transform_line labels lnum raw s
      = (Ok tt, emitted s (text_of (address s)) occ).
Proof.
  unfold fails.
  destruct (Phase1.parse_line (rstrip raw)) as [f|e] eqn:Hp; [|done].
  unfold unbound, refers. intros Hu.
  assert (Hend : ∀ text occ lnum s,
            (error_count s ≤ 5)%nat →
            Phase1.rewrite_line labels (rstrip raw) s
            = (Ok tt, emitted s text occ) →
            Phase1.transform_line labels lnum raw s
            = (Ok tt, emitted s text occ)).
  { intros text occ lnum s Hle Hrw.
    unfold Phase1.transform_line, bind, try_except.
    rewrite Hrw, P1Step.check_limit_spec. cbn [emitted error_count].
    destruct (Nat.ltb_spec 5 (error_count s)); [lia|done]. }
  destruct (kind f) eqn:Hk.
  - exists (λ _, rstrip raw), false. intros lnum s Hle. apply Hend; [done|].
    by apply (P1.rewrite_line_comment _ _ _ _ Hp).
  - exists (λ _, rstrip raw), true. intros lnum s Hle. apply Hend; [done|].
    apply (P1.rewrite_line_pass _ _ _ _ Hp); auto.
  - exists (λ _, rstrip raw), true. intros lnum s Hle. apply Hend; [done|].
    apply (P1.rewrite_line_pass _ _ _ _ Hp); auto.
  - destruct (P1.rewrite_line_memop _ _ Hp Hk) as (op & ref & _ & Hr & Hrw).
    rewrite Hr in Hu. apply bool_decide_eq_false in Hu.
    destruct (labels !! ref) as [a|] eqn:Ha; [|done].
    exists (λ here, memop_text f op (a - here)), true.
    intros lnum s Hle. apply Hend; [done|]. by rewrite Hrw, Ha.
  - destruct (P1.rewrite_line_jump _ _ Hp Hk) as (ref & Hr & Hrw).
    rewrite Hr in Hu. apply bool_decide_eq_false in Hu.
    destruct (labels !! ref) as [a|] eqn:Ha; [|done].
    exists (λ here, jump_text f (a - here)), true.
    intros lnum s Hle. apply Hend; [done|]. by rewrite Hrw, Ha.
Qed.

Lemma FA_step_text lables raw :
  fails Fadfa.parse_line lables raw = false →
  ∃ (text_of : Z → string) (occ : bool),
    ∀ lnum s, (error_count s ≤ 5)%nat →
      Fadfa.transform_line lables lnum raw s
      = (Ok tt, emitted s (text_of (address s)) occ).
Proof.
  unfold fails.
  destruct (Fadfa.parse_line (rstrip raw)) as [f|e] eqn:Hp; [|done].
  unfold unbound, refers. intros Hu.
  assert (Hend : ∀ text occ lnum s,
            (error_count s ≤ 5)%nat →
            Fadfa.rewrite_line lables (rstrip raw) s
            = (Ok tt, emitted s text occ) →
            Fadfa.transform_line lables lnum raw s
            = (Ok tt, emitted s text occ)).
  { intros text occ lnum s Hle Hrw.
    unfold Fadfa.transform_line, bind, try_except.
    rewrite Hrw, FAStep.check_limit_spec_fa. cbn [emitted error_count].
    destruct (Nat.ltb_spec 5 (error_count s)); [lia|done]. }
  destruct (kind f) eqn:Hk.
  - exists (λ _, rstrip raw), false. intros lnum s Hle. apply Hend; [done|].
    by apply (FA.rewrite_line_comment_fa _ _ _ _ Hp).
  - destruct (FA.rewrite_line_full _ _ Hp Hk) as (op & _ & Hrw).
    exists (λ _, full_text f (upper op)), true.
    intros lnum s Hle. apply Hend; [done|]. apply Hrw.
  - destruct (FA.rewrite_line_data _ _ Hp Hk) as (op & _ & Hrw).
    exists (λ _, data_text f (upper op)), true.
    intros lnum s Hle. apply Hend; [done|]. apply Hrw.
  - destruct (FA.rewrite_line_memop_fa _ _ Hp Hk) as (op & ref & _ & Hr & Hrw).
    rewrite Hr in Hu. apply bool_decide_eq_false in Hu.
    destruct (lables !! ref) as [a|] eqn:Ha; [|done].
    exists (λ here, memop_text f (upper op) (a - here)), true.
    intros lnum s Hle. apply Hend; [done|]. by rewrite Hrw, Ha.
  - destruct (FA.rewrite_line_jump_fa _ _ Hp Hk) as (ref & Hr & Hrw).
    rewrite Hr in Hu. apply bool_decide_eq_false in Hu.
    destruct (lables !! ref) as [a|] eqn:Ha; [|done].
    exists (λ here, jump_text f (a - here)), true.
    intros lnum s Hle. apply Hend; [done|]. by rewrite Hrw, Ha.
Qed.

(** X16.  A line that no pattern matches leaves no trace in the emitted
    program.  In both programs, when the run of the lines with such a line
    among them ends with exit status 0, the run of the lines without it
    ends with exit status 0 too, writes the same lines to the object file,
    and the first pass builds the same table: neither pass gives the line
    an address. *)
Theorem line_without_pattern_leaves_no_trace :
  (∀ pre bad post e,
     Phase1.parse_line (Str.rstrip bad) = Raise e →
     exit_status (Phase1.main (pre ++ bad :: post)) = 0%Z →
     exit_status (Phase1.main (pre ++ post)) = 0%Z
     ∧ objfile (Phase1.main (pre ++ post))
       = objfile (Phase1.main (pre ++ bad :: post))
     ∧ Phase1.resolve (pre ++ post) = Phase1.resolve (pre ++ bad :: post))
  ∧ (∀ pre bad post e,
     Fadfa.parse_line (Str.rstrip bad) = Raise e →
     exit_status (Fadfa.main (pre ++ bad :: post)) = 0%Z →
     exit_status (Fadfa.main (pre ++ post)) = 0%Z
     ∧ objfile (Fadfa.main (pre ++ post))
       = objfile (Fadfa.main (pre ++ bad :: post))
     ∧ Fadfa.resolve (pre ++ post) = Fadfa.resolve (pre ++ bad :: post)).
Proof.
  split; intros pre bad post e Hp Hexit.
  - destruct (Claims.P1_transform_spec (pre ++ bad :: post))
      as (labels & Hres & _ & Hmany).
    destruct (decide (failures Phase1.parse_line labels (pre ++ bad :: post)
                      ≤ 5)%nat) as [Hle|Hgt].
    + destruct (transform_dropped Phase1.parse_line Phase1.transform_line
                  failed_err abandoned_err P1Step.step_fail P1_step_text
                  (λ _ _, eq_refl) (λ _ _, eq_refl) (λ _ _, eq_refl)
                  Phase1.transform P1.parsed_label P1_raises
                  (λ _, eq_refl) pre bad post e labels Hp Hres Hle)
        as (t & t' & Hrun & Hrun' & Hres').
      unfold Phase1.main, main_of. rewrite Hrun, Hrun'.
      unfold Phase1.resolve in *. by rewrite Hres, Hres'.
    + destruct Hmany as (? & ? & ? & s & _ & _ & _ & Hrun & _); [lia|].
      unfold Phase1.main, main_of in Hexit. by rewrite Hrun in Hexit.
  - destruct (Claims.FA_transform_spec (pre ++ bad :: post))
      as (labels & Hres & _ & Hmany).
    destruct (decide (failures Fadfa.parse_line labels (pre ++ bad :: post)
                      ≤ 5)%nat) as [Hle|Hgt].
    + destruct (transform_dropped Fadfa.parse_line Fadfa.transform_line
                  failed_out abandoned_out FAStep.step_fail_fa FA_step_text
                  (λ _ _, eq_refl) (λ _ _, eq_refl) (λ _ _, eq_refl)
                  Fadfa.transform FA.parsed_label_fa FA_raises
                  (λ _, eq_refl) pre bad post e labels Hp Hres Hle)
        as (t & t' & Hrun & Hrun' & Hres').
      unfold Fadfa.main, main_of. rewrite Hrun, Hrun'.
      unfold Fadfa.resolve in *. by rewrite Hres, Hres'.
    + destruct Hmany as (? & ? & ? & s & _ & _ & _ & Hrun & _); [lia|].
      unfold Fadfa.main, main_of in Hexit. by rewrite Hrun in Hexit.
Qed.

Lemma line_without_pattern_leaves_no_trace_witness :
  let pre := [ "      LOAD r1,x" ] in
  let bad := "      12 bottles" in
  let post := [ "x:    DATA 12" ] in
  Phase1.parse_line (Str.rstrip bad)
  = Raise (SyntaxError "Assembler syntax error in       12 bottles")
  ∧ exit_status (Phase1.main (pre ++ bad :: post)) = 0%Z
  ∧ exit_status (Phase1.main (pre ++ post)) = 0%Z
  ∧ objfile (Phase1.main (pre ++ post))
    = objfile (Phase1.main (pre ++ bad :: post))
  ∧ Phase1.resolve (pre ++ post) = Phase1.resolve (pre ++ bad :: post).
Proof.
  intros pre bad post.
  assert (H1 : Phase1.parse_line (Str.rstrip bad)
               = Raise (SyntaxError
                          "Assembler syntax error in       12 bottles"))
    by (vm_compute; reflexivity).
  assert (H2 : exit_status (Phase1.main (pre ++ bad :: post)) = 0%Z)
    by (vm_compute; reflexivity).
  split; [exact H1|]. split; [exact H2|].
  exact (proj1 line_without_pattern_leaves_no_trace pre bad post _ H1 H2).
Defined.

End Dropped.

(** ** [to_flag] *)

Module Flags.
Import Re Asm StrFacts Phase1.

Section Mnemonics.

Variable Flag : Type.
Variable names : list string.
Variable member : string → option Flag.
Variable NEVER : Flag.
Variable union : Flag → Flag → Flag.

Local Abbreviation combine := (Phase1.combine Flag member union).

(** The first letter that is not the name of a flag ends the loop. *)
Lemma combine_KeyError known bitname rest : ∀ composite,
  Forall (λ c, is_Some (member (String c ""))) (list_ascii_of_string known) →
  member (String bitname "") = None →
  combine composite (known +:+ String bitname rest)
  = Raise (KeyError (Some (String bitname ""))).
Proof.
  induction known as [|c known IH]; intros composite Hk Hb.
  - rewrite string_app_nil_l. cbn [Phase1.combine]. unfold by_name.
    by rewrite Hb.
  - cbn [list_ascii_of_string] in Hk. apply Forall_cons in Hk as [[f Hf] Hk].
    rewrite string_app_cons. cbn [Phase1.combine]. unfold by_name.
    rewrite Hf. by apply IH.
Qed.

Hypothesis union_assoc : ∀ x y z, union x (union y z) = union (union x y) z.
Hypothesis union_comm : ∀ x y, union x y = union y x.
Hypothesis union_idem : ∀ x, union x x = x.

(** The result of the loop holds the flag it began with and the flag of
    every letter. *)
Lemma combine_holds m : ∀ composite X,
  combine composite m = Ok X →
  union X composite = X
  ∧ ∀ c, c ∈ list_ascii_of_string m →
         ∃ f, member (String c "") = Some f ∧ union X f = X.
Proof.
  induction m as [|c m IH]; intros composite X.
  - cbn [Phase1.combine]. intros [= <-]. split; [apply union_idem|].
    by intros c Hc%elem_of_nil.
  - cbn [Phase1.combine list_ascii_of_string]. unfold by_name.
    destruct (member (String c "")) as [f|] eqn:Hf; [|done].
    intros [HX Hm]%IH. rewrite union_assoc in HX.
    assert (Hf' : union X f = X).
    { rewrite <- HX at 1. by rewrite <- union_assoc, union_idem. }
    split.
    + rewrite <- HX at 1.
      rewrite <- (union_assoc X composite f), (union_comm composite f),
        (union_assoc X f composite), <- (union_assoc _ composite composite),
        union_idem, <- (union_assoc X f composite), (union_comm f composite),
        union_assoc.
      done.
    + intros c' [->|Hc']%elem_of_cons; [eauto|by apply Hm].
Qed.

(** The loop ends with a flag that adds nothing to a flag that holds the
    one it began with and the flags of the letters. *)
Lemma combine_within Y m : ∀ composite,
  union Y composite = Y →
  (∀ c, c ∈ list_ascii_of_string m →
        ∃ f, member (String c "") = Some f ∧ union Y f = Y) →
  ∃ X, combine composite m = Ok X ∧ union Y X = Y.
Proof.
  induction m as [|c m IH]; intros composite Hc Hm.
  - by exists composite.
  - cbn [Phase1.combine]. unfold by_name.
    destruct (Hm c) as (f & Hf & HY); [left|]. rewrite Hf.
    apply IH.
    + by rewrite union_assoc, Hc.
    + intros c' Hc'. apply Hm. by right.
Qed.

Lemma combine_letters m m' X :
  (∀ c, c ∈ list_ascii_of_string m ↔ c ∈ list_ascii_of_string m') →
  combine NEVER m = Ok X → combine NEVER m' = Ok X.
Proof.
  intros Hsame Hrun.
  destruct (combine_holds _ _ _ Hrun) as [HN Hm].
  destruct (combine_within X m' NEVER HN) as (X' & Hrun' & HX).
  { intros c Hc. apply Hm. by apply Hsame. }
  destruct (combine_holds _ _ _ Hrun') as [HN' Hm'].
  destruct (combine_within X' m NEVER HN') as (X'' & Hrun'' & HX').
  { intros c Hc. apply Hm'. by apply Hsame. }
  rewrite Hrun in Hrun''. injection Hrun'' as <-.
  rewrite Hrun'. f_equal. by rewrite <- HX', union_comm.
Qed.

(** X17.  [to_flag] on a mnemonic that is not itself the name of a flag.
    It raises [KeyError] with the first letter of the mnemonic that is not
    the name of a flag.  When [|] is associative, commutative and
    idempotent, as the union of flags is, the flag it returns depends on
    the set of the letters only: a mnemonic with the same letters in
    another order, or with letters repeated, gives the same flag. *)
Theorem to_flag_of_a_combination m :
  m ∉ names →
  (∀ known bitname rest,
     m = known +:+ String bitname rest →
     Forall (λ c, is_Some (member (String c "")))
       (list_ascii_of_string known) →
     member (String bitname "") = None →
     to_flag Flag names member NEVER union m
     = Raise (KeyError (Some (String bitname ""))))
  ∧ (∀ m' X,
     m' ∉ names →
     (∀ c, c ∈ list_ascii_of_string m ↔ c ∈ list_ascii_of_string m') →
     to_flag Flag names member NEVER union m = Ok X →
     to_flag Flag names member NEVER union m' = Ok X).
Proof.
  intros Hm. unfold to_flag. rewrite bool_decide_eq_false_2 by done. split.
  - intros known bitname rest -> Hk Hb. by apply combine_KeyError.
  - intros m' X Hm' Hsame. rewrite bool_decide_eq_false_2 by done.
    by apply combine_letters.
Qed.

End Mnemonics.

Lemma to_flag_of_a_combination_witness :
  let names := [ "M"; "Z"; "P"; "V" ] in
  let member := λ m : string,
    if String.eqb m "M" then Some 8%Z
    else if String.eqb m "Z" then Some 4%Z
    else if String.eqb m "P" then Some 2%Z
    else if String.eqb m "V" then Some 1%Z
    else None in
  to_flag Z names member 0%Z Z.lor "ZP" = Ok 6%Z
  ∧ to_flag Z names member 0%Z Z.lor "PZP" = Ok 6%Z
  ∧ to_flag Z names member 0%Z Z.lor "ZQ" = Raise (KeyError (Some "Q")).
Proof.
  intros names member.
  assert (H0 : ∀ m, bool_decide (m ∈ names) = false → m ∉ names)
    by (intros m H; by apply bool_decide_eq_false in H).
  assert (H1 : to_flag Z names member 0%Z Z.lor "ZP" = Ok 6%Z)
    by (vm_compute; reflexivity).
  split; [exact H1|]. split.
  - refine (proj2 (to_flag_of_a_combination Z names member 0%Z Z.lor
              Z.lor_assoc Z.lor_comm Z.lor_diag "ZP" (H0 "ZP" eq_refl))
              "PZP" 6%Z (H0 "PZP" eq_refl) _ H1).
    intros c. cbn [list_ascii_of_string].
    rewrite !elem_of_cons, !elem_of_nil. tauto.
  - refine (proj1 (to_flag_of_a_combination Z names member 0%Z Z.lor
              Z.lor_assoc Z.lor_comm Z.lor_diag "ZQ" (H0 "ZQ" eq_refl))
              "Z" "Q"%char "" eq_refl _ eq_refl).
    repeat constructor. by exists 4%Z.
Defined.

End Flags.

(** ** The case of labels, opcodes and predicates *)

Module Cases.
Import Re Asm StrFacts ReFacts AsmFacts Runs Shapes Pieces ReComplete Text Lang FieldShapes Accepts.

Ltac listed :=
  unfold Phase1.PATTERNS, Fadfa.PATTERNS;
  rewrite !elem_of_cons; tauto.

(** *** Lines that the patterns accept *)

Lemma fits_lang r p w t : lang r w → fits r p w t.
Proof. intros H c. apply H. Qed.

Lemma fits_closes r p w : closes r w → fits r p w "".
Proof. intros H c. apply H. Qed.

Lemma fits_seq r1 r2 p w1 w2 t :
  fits r1 p w1 (w2 +:+ t) → fits r2 (Str.last w1 p) w2 t →
  fits (Seq r1 r2) p (w1 +:+ w2) t.
Proof.
  intros H1 H2 c. destruct (H1 c) as [c1 D1]. destruct (H2 c1) as [c2 D2].
  exists c2, w1, w2, c1. done.
Qed.

Lemma fits_named k r p w t : fits r p w t → fits (Named k r) p w t.
Proof. intros H c. destruct (H c) as [c' D]. eexists _, c'. done. Qed.

Lemma P1_parses pat kd line :
  (pat, kd) ∈ Phase1.PATTERNS → fits pat None line "" →
  ∃ g, Phase1.parse_line line = Ok g.
Proof.
  intros Hin H. destruct (H ∅) as [c' D].
  by apply (CommentLines.parse_line_in_matches _ pat kd line ∅ c').
Qed.

Lemma FA_parses pat kd line :
  (pat, kd) ∈ Fadfa.PATTERNS → fits pat None line "" →
  ∃ g, Fadfa.parse_line line = Ok g.
Proof.
  intros Hin H. destruct (H ∅) as [c' D].
  by apply (CommentLines.parse_line_in_matches _ pat kd line ∅ c').
Qed.

Lemma closes_line_end sp4 cm sp5 :
  end_ok sp4 cm sp5 →
  closes (seq [Opt (Seq spaces comment_group); spaces; EndAnchor])
    (line_end sp4 cm sp5).
Proof.
  intros (H4 & Hcm & Hcm' & H5). unfold line_end. cbn [seq].
  apply closes_seq; [by apply lang_opt_comment|]. by apply closes_end.
Qed.

(** The head of a line, up to the opcode. *)
Lemma space_no_word a : Str.is_space a = true → Str.is_word a = false.
Proof. destruct a as [[] [] [] [] [] [] [] []]; vm_compute; congruence. Qed.

Lemma last_blank s : ∀ p,
  blank s → word_at p = false → word_at (Str.last s p) = false.
Proof.
  induction s as [|a s IH]; intros p Hs Hp; [done|].
  unfold blank in Hs. cbn [Str.forallb] in Hs.
  apply andb_prop in Hs as [Ha Hs]. cbn [Str.last]. apply IH; [done|].
  by apply space_no_word.
Qed.

Lemma last_app s1 : ∀ s2 p,
  Str.last (s1 +:+ s2) p = Str.last s2 (Str.last s1 p).
Proof.
  induction s1 as [|a s1 IH]; intros s2 p.
  - by rewrite string_app_nil_l.
  - rewrite string_app_cons. cbn [Str.last]. apply IH.
Qed.

Lemma last_label_piece l p :
  word_at p = false → word_at (Str.last (label_piece l) p) = false.
Proof.
  destruct l as [v|]; [|done]. intros _. unfold label_piece.
  by rewrite last_app.
Qed.

(** The guarded opcode of a MEMOP line of [fadfa.py]. *)
Lemma strip_prefix_short l : ∀ u tl,
  Str.forallb Str.is_alpha l = true →
  (∀ b, Str.head tl = Some b → Str.is_alpha b = false) →
  Str.strip_prefix l u = None → Str.strip_prefix l (u +:+ tl) = None.
Proof.
  induction l as [|a l IH]; intros u tl Hl Htl; [done|].
  cbn [Str.forallb] in Hl. apply andb_prop in Hl as [Ha Hl].
  destruct u as [|b u].
  - intros _. rewrite string_app_nil_l. destruct tl as [|b tl]; [done|].
    cbn [Str.strip_prefix]. destruct (Ascii.eqb_spec a b) as [->|]; [|done].
    rewrite (Htl b eq_refl) in Ha. done.
  - rewrite string_app_cons. cbn [Str.strip_prefix].
    destruct (Ascii.eqb a b); [by apply IH|done].
Qed.

Lemma not_startswith s p :
  Str.startswith s p = false → Str.strip_prefix p s = None.
Proof. unfold Str.startswith. by destruct (Str.strip_prefix p s). Qed.

Lemma guard_rep l1 l2 tl op : ∀ p (c : captures),
  Str.forallb Str.is_alpha l1 = true → Str.forallb Str.is_alpha l2 = true →
  (∀ b, Str.head tl = Some b → Str.is_alpha b = false) →
  Str.forallb Str.is_alpha op = true →
  Str.contains op l1 = false → Str.contains op l2 = false →
  rep (den (Seq (NotAhead (Alt (Lit l1) (Lit l2))) (Class Str.is_alpha)))
      p op tl c c.
Proof.
  induction op as [|a op IH]; intros p c H1 H2 Htl Hop C1 C2; [constructor|].
  cbn [Str.forallb] in Hop. apply andb_prop in Hop as [Ha Hop].
  cbn [Str.contains] in C1, C2.
  apply orb_false_elim in C1 as [S1 C1]. apply orb_false_elim in C2 as [S2 C2].
  apply (rep_more _ p (String a "") op tl c c c); [|by apply IH].
  exists "", (String a ""), c. split; [done|]. split.
  - split; [done|]. split; [done|]. cbn [rmatch rest].
    rewrite string_app_cons, string_app_nil_l, <- string_app_cons.
    rewrite (strip_prefix_short l1 (String a op) tl),
      (strip_prefix_short l2 (String a op) tl); try done;
      by apply not_startswith.
  - by exists a.
Qed.

Lemma fits_guarded p op tl :
  word_at p = false → Str.letters op →
  (∀ b, Str.head tl = Some b → Str.is_alpha b = false) →
  Str.contains op "LDA" = false → Str.contains op "lda" = false →
  fits (Seq WordBoundary
          (Plus (Seq (NotAhead (Alt (Lit "LDA") (Lit "lda")))
                     (Class Str.is_alpha))))
       p op tl.
Proof.
  intros Hp [Hne Hop] Htl C1 C2 c.
  destruct op as [|a op]; [done|].
  pose proof (guard_rep "LDA" "lda" tl (String a op) p c eq_refl eq_refl
                Htl Hop C1 C2) as R.
  exists c, "", (String a op), c. split; [done|]. split.
  - split; [done|]. split; [done|]. rewrite Hp, string_app_cons.
    cbn [Str.head word_at xorb]. cbn [Str.forallb] in Hop.
    apply andb_prop in Hop as [Ha _]. unfold Str.is_word. rewrite Ha.
    by rewrite orb_true_r.
  - cbn [Str.last].
    inversion R as [|p0 w1 w2 t0 c0 c1 c2 D R' E1 E2 E3 E4 E5]; subst.
    exists w1, w2, c1. done.
Qed.

Lemma head_after_opcode o sp3 tl :
  sp3 ≠ "" → blank sp3 →
  ∀ b, Str.head (predicate_text o +:+ sp3 +:+ tl) = Some b →
       Str.is_alpha b = false.
Proof.
  intros Hne Hs b. destruct o as [v|]; cbn [predicate_text].
  - rewrite string_app_cons. by intros [= <-].
  - rewrite string_app_nil_l. destruct sp3 as [|a sp3]; [done|].
    rewrite string_app_cons. intros [= <-].
    unfold blank in Hs. cbn [Str.forallb] in Hs.
    apply andb_prop in Hs as [Ha _]. revert Ha.
    destruct a as [[] [] [] [] [] [] [] []]; vm_compute; congruence.
Qed.

(** A line of the form of a MEMOP line is in the language of the MEMOP
    pattern; in [fadfa.py] when its opcode passes the guard. *)
Lemma P1_memop_accepts sp1 l sp2 op o sp3 tgt ref sp4 cm sp5 :
  head_ok sp1 l sp2 o → Str.letters op → memop_operands sp3 tgt ref →
  end_ok sp4 cm sp5 →
  closes Phase1.ASM_MEMOP_PAT
    (memop_line (instruction_head sp1 l sp2 op o) sp3 tgt ref
       (line_end sp4 cm sp5)).
Proof.
  intros (H1 & Hl & H2 & Ho) [Hop Hop'] (H3 & H3' & Ht & Hr) He.
  unfold memop_line, instruction_head. rewrite !string_app_assoc.
  unfold Phase1.ASM_MEMOP_PAT. cbn [seq].
  apply closes_seq; [by apply lang_spaces|].
  apply closes_seq; [by apply lang_opt_label|].
  apply closes_seq; [by apply lang_spaces|].
  apply closes_seq; [by apply lang_named, lang_plus_class|].
  apply closes_seq; [by apply lang_opt_predicate|].
  apply closes_seq; [by apply lang_spaces1|].
  apply closes_seq; [by apply lang_named, lang_register|].
  apply closes_seq; [apply lang_lit|].
  apply closes_seq; [by apply lang_named, lang_ident|].
  by apply closes_line_end.
Qed.

Lemma FA_memop_accepts sp1 l sp2 op o sp3 tgt ref sp4 cm sp5 :
  head_ok sp1 l sp2 o → Str.letters op →
  Str.contains op "LDA" = false → Str.contains op "lda" = false →
  memop_operands sp3 tgt ref → end_ok sp4 cm sp5 →
  fits Fadfa.ASM_MEMOP_PAT None
    (memop_line (instruction_head sp1 l sp2 op o) sp3 tgt ref
       (line_end sp4 cm sp5)) "".
Proof.
  intros (H1 & Hl & H2 & Ho) Hop C1 C2 (H3 & H3' & Ht & Hr) He.
  unfold memop_line, instruction_head. rewrite !string_app_assoc.
  unfold Fadfa.ASM_MEMOP_PAT. cbn [seq].
  apply fits_seq; [by apply fits_lang, lang_spaces|].
  apply fits_seq; [by apply fits_lang, lang_opt_label|].
  apply fits_seq; [by apply fits_lang, lang_spaces|].
  apply fits_seq.
  - apply fits_named, fits_guarded; [|done| |done..].
    + by apply last_blank, last_label_piece, last_blank.
    + rewrite string_app_nil_r. by apply head_after_opcode.
  - apply fits_closes.
    apply closes_seq; [by apply lang_opt_predicate|].
    apply closes_seq; [by apply lang_spaces1|].
    apply closes_seq; [by apply lang_named, lang_register|].
    apply closes_seq; [apply lang_lit|].
    apply closes_seq; [by apply lang_named, lang_ident|].
    by apply closes_line_end.
Qed.

(** The same for the lines of the form of a JUMP line and of a DATA
    line. *)
Lemma P1_jump_accepts sp1 l sp2 o sp3 ref sp4 cm sp5 :
  head_ok sp1 l sp2 o → jump_operand sp3 ref → end_ok sp4 cm sp5 →
  closes Phase1.ASM_JUMP_PAT
    (jump_line (instruction_head sp1 l sp2 "JUMP" o) sp3 ref
       (line_end sp4 cm sp5)).
Proof.
  intros (H1 & Hl & H2 & Ho) (H3 & H3' & Hr) He.
  unfold jump_line, instruction_head. rewrite !string_app_assoc.
  unfold Phase1.ASM_JUMP_PAT. cbn [seq].
  apply closes_seq; [by apply lang_spaces|].
  apply closes_seq; [by apply lang_opt_label|].
  apply closes_seq; [by apply lang_spaces|].
  apply closes_seq; [apply lang_named, lang_lit|].
  apply closes_seq; [by apply lang_opt_predicate|].
  apply closes_seq; [by apply lang_spaces1|].
  apply closes_seq; [by apply lang_named, lang_ident|].
  by apply closes_line_end.
Qed.

Lemma lang_fixed_word k u v op :
  op = u ∨ op = v → lang (Named k (Alt (Lit u) (Lit v))) op.
Proof.
  intros [-> | ->]; apply lang_named;
    [apply lang_alt_l|apply lang_alt_r]; apply lang_lit.
Qed.

Lemma FA_jump_accepts sp1 l sp2 op o sp3 ref sp4 cm sp5 :
  head_ok sp1 l sp2 o → op = "JUMP" ∨ op = "jump" → jump_operand sp3 ref →
  end_ok sp4 cm sp5 →
  closes Fadfa.ASM_JUMP_PAT
    (jump_line (instruction_head sp1 l sp2 op o) sp3 ref
       (line_end sp4 cm sp5)).
Proof.
  intros (H1 & Hl & H2 & Ho) Hop (H3 & H3' & Hr) He.
  unfold jump_line, instruction_head. rewrite !string_app_assoc.
  unfold Fadfa.ASM_JUMP_PAT. cbn [seq].
  apply closes_seq; [by apply lang_spaces|].
  apply closes_seq; [by apply lang_opt_label|].
  apply closes_seq; [by apply lang_spaces|].
  apply closes_seq; [by apply lang_fixed_word|].
  apply closes_seq; [by apply lang_opt_predicate|].
  apply closes_seq; [by apply lang_spaces1|].
  apply closes_seq; [by apply lang_named, lang_ident|].
  by apply closes_line_end.
Qed.

Lemma lang_opt_value v :
  (∀ w, v = Some w → Str.decimal w ∨ Str.hexadecimal w) →
  lang (Opt (Named "value"
               (Alt (Seq (Lit "0x") (Plus (Class Str.is_hex)))
                    (Plus (Class Str.is_digit)))))
       (value_piece v).
Proof.
  destruct v as [w|]; intros H; [|apply lang_opt_none].
  apply lang_opt, lang_named. cbn [value_piece].
  destruct (H w eq_refl) as [[Hne Hd]|(h & -> & Hne & Hh)].
  - by apply lang_alt_r, lang_plus_class.
  - apply lang_alt_l, lang_seq; [apply lang_lit|by apply lang_plus_class].
Qed.

Lemma P1_data_accepts sp1 l sp2 sp3 v sp4 cm sp5 :
  head_ok sp1 l sp2 None → data_value sp3 v → end_ok sp4 cm sp5 →
  closes Phase1.ASM_DATA_PAT
    (data_line (instruction_head sp1 l sp2 "DATA" None) sp3 v
       (line_end sp4 cm sp5)).
Proof.
  intros (H1 & Hl & H2 & _) (H3 & Hv) He.
  unfold data_line, instruction_head. cbn [predicate_text].
  rewrite !string_app_assoc.
  unfold Phase1.ASM_DATA_PAT. cbn [seq].
  apply closes_seq; [by apply lang_spaces|].
  apply closes_seq; [by apply lang_opt_label|].
  apply closes_seq; [by apply lang_spaces|].
  apply closes_seq; [apply lang_named, lang_lit|].
  rewrite string_app_nil_l.
  apply closes_seq; [by apply lang_spaces|].
  apply closes_seq; [by apply lang_opt_value|].
  by apply closes_line_end.
Qed.

Lemma FA_data_accepts sp1 l sp2 op o sp3 v sp4 cm sp5 :
  head_ok sp1 l sp2 o → op = "DATA" ∨ op = "data" → data_value sp3 v →
  end_ok sp4 cm sp5 →
  closes Fadfa.ASM_DATA_PAT
    (data_line (instruction_head sp1 l sp2 op o) sp3 v
       (line_end sp4 cm sp5)).
Proof.
  intros (H1 & Hl & H2 & Ho) Hop (H3 & Hv) He.
  unfold data_line, instruction_head. rewrite !string_app_assoc.
  unfold Fadfa.ASM_DATA_PAT. cbn [seq].
  apply closes_seq; [by apply lang_spaces|].
  apply closes_seq; [by apply lang_opt_label|].
  apply closes_seq; [by apply lang_spaces|].
  apply closes_seq; [by apply lang_fixed_word|].
  apply closes_seq; [by apply lang_opt_predicate|].
  apply closes_seq; [by apply lang_spaces|].
  apply closes_seq; [by apply lang_opt_value|].
  by apply closes_line_end.
Qed.

Lemma full_line_accepts sp1 l sp2 op o sp3 tgt s1 s2 off sp4 cm sp5 :
  head_ok sp1 l sp2 o → Str.letters op → full_operands sp3 tgt s1 s2 off →
  end_ok sp4 cm sp5 →
  closes Phase1.ASM_FULL_PAT
    (full_line (instruction_head sp1 l sp2 op o) sp3 tgt s1 s2 off
       (line_end sp4 cm sp5)).
Proof.
  intros (H1 & Hl & H2 & Ho) Hop (H3 & H3' & Ht & Hs1 & Hs2 & Hoff)
    (H4 & Hcm & Hcm' & H5).
  unfold full_line, instruction_head. rewrite !string_app_assoc.
  unfold line_end. by apply full_accepts.
Qed.

(** The opcode of a DATA line and of a JUMP line is a fixed word. *)
Lemma P1_fixed_words line f :
  Phase1.parse_line line = Ok f →
  (kind f = DATA → field f "opcode" = Some "DATA")
  ∧ (kind f = JUMP → field f "opcode" = Some "JUMP").
Proof.
  intros Hp. split; intros Hk.
  all: destruct (P1.parsed_opcode _ _ Hp) as [op Hop]; [by rewrite Hk|].
  all: apply getitem_field in Hop; rewrite Hop; f_equal.
  all: apply P1.parse_pattern in Hp as (pat & kd & m & Hin & D & ->).
  all: cbn [kind] in Hk; unfold Phase1.PATTERNS in Hin.
  all: pattern_cases Hin; try done.
  - apply (field_shape (λ w, w = "DATA") _ _ _ _ _ _ D) in Hop; [done|].
    intros r1 p w t c c' Hr1 D1.
    group_is Hr1 [Lit "DATA"]. one_pattern Hr1. by apply den_lit in D1.
  - apply (field_shape (λ w, w = "JUMP") _ _ _ _ _ _ D) in Hop; [done|].
    intros r1 p w t c c' Hr1 D1.
    group_is Hr1 [Lit "JUMP"]. one_pattern Hr1. by apply den_lit in D1.
Qed.

Lemma FA_fixed_words line f :
  Fadfa.parse_line line = Ok f →
  (kind f = DATA →
   field f "opcode" = Some "DATA" ∨ field f "opcode" = Some "data")
  ∧ (kind f = JUMP →
     field f "opcode" = Some "JUMP" ∨ field f "opcode" = Some "jump").
Proof.
  intros Hp. split; intros Hk.
  all: destruct (FA.parsed_opcode_fa _ _ Hp) as [op Hop]; [by rewrite Hk|].
  all: apply getitem_field in Hop; rewrite Hop.
  all: apply FA.parse_pattern_fa in Hp as (pat & kd & m & Hin & D & ->).
  all: cbn [kind] in Hk; unfold Fadfa.PATTERNS in Hin.
  all: pattern_cases Hin; try done.
  - apply (field_shape (λ w, w = "DATA" ∨ w = "data") _ _ _ _ _ _ D) in Hop;
      [by destruct Hop as [-> | ->]; auto|].
    intros r1 p w t c c' Hr1 D1.
    group_is Hr1 [Alt (Lit "DATA") (Lit "data")]. one_pattern Hr1.
    destruct D1 as [D1|D1]; apply den_lit in D1; auto.
  - apply (field_shape (λ w, w = "JUMP" ∨ w = "jump") _ _ _ _ _ _ D) in Hop;
      [by destruct Hop as [-> | ->]; auto|].
    intros r1 p w t c c' Hr1 D1.
    group_is Hr1 [Alt (Lit "JUMP") (Lit "jump")]. one_pattern Hr1.
    destruct D1 as [D1|D1]; apply den_lit in D1; auto.
Qed.

Lemma upper_capitals op : Str.letters op → Str.capitals (Str.upper op).
Proof. intros [Hne Hal]. split; [by destruct op|by apply upper_alpha]. Qed.

(** Claim C7, amended.  Labels: the first pass enters every label in the
    table as it is written, the second pass looks the reference of a MEMOP
    or JUMP line up as it is written, and a reference that differs from
    its label in case only is an unknown word.  Opcodes and predicates: in
    a parsed line the predicate is a word of capital letters and the opcode
    a word of letters; the opcode of a DATA or JUMP line is the word DATA or
    JUMP, in capitals in [assembler_phase1.py], in capitals or in lower
    case in [fadfa.py].  Every line of the form of a FULL or MEMOP line is
    accepted whatever the case of the letters of its opcode (in [fadfa.py]
    the opcode of a MEMOP line must hold neither LDA nor lda), and every
    line of the form of a JUMP or DATA line whose opcode is such a word;
    [data 5] and [jump x] are syntax errors in [assembler_phase1.py], and
    so are [Data 5], [Jump x] in [fadfa.py] and [ADD/z r1,r2,r3] in both.
    What is written: [fadfa.py] writes the opcode of a FULL, DATA or MEMOP
    line in capitals and ADD for a JUMP line; [assembler_phase1.py] writes
    a FULL or DATA line as it read it, a MEMOP line with the opcode as it
    is written, and ADD for a JUMP line. *)
Theorem case_of_labels_opcodes_predicates :
  (* labels *)
  (∀ lines, ∃ labels,
     Phase1.resolve lines = Ok labels ∧ binds Phase1.parse_line lines labels)
  ∧ (∀ lines, ∃ labels,
     Fadfa.resolve lines = Ok labels ∧ binds Fadfa.parse_line lines labels)
  ∧ Phase1.main ["Loop: ADD r1,r2,r3"; "JUMP loop"]
    = Run 0 ["Loop: ADD r1,r2,r3"] [] ["Unknown word in line 1: 'loop'"]
  ∧ Fadfa.main ["Loop: ADD r1,r2,r3"; "JUMP loop"]
    = Run 0 ["Loop:   ADD  r1,r2,r3  "] ["Unknown word in line 1: 'loop'"] []
  (* the opcode and the predicate of a parsed line *)
  ∧ (∀ line f,
     Phase1.parse_line line = Ok f →
     (∀ p, field f "predicate" = Some p → Str.capitals p)
     ∧ (∀ op, field f "opcode" = Some op → Str.letters op)
     ∧ (kind f = DATA → field f "opcode" = Some "DATA")
     ∧ (kind f = JUMP → field f "opcode" = Some "JUMP"))
  ∧ (∀ line f,
     Fadfa.parse_line line = Ok f →
     (∀ p, field f "predicate" = Some p → Str.capitals p)
     ∧ (∀ op, field f "opcode" = Some op → Str.letters op)
     ∧ (kind f = DATA →
        field f "opcode" = Some "DATA" ∨ field f "opcode" = Some "data")
     ∧ (kind f = JUMP →
        field f "opcode" = Some "JUMP" ∨ field f "opcode" = Some "jump"))
  (* the lines that are accepted *)
  ∧ (∀ sp1 l sp2 op o sp3 tgt s1 s2 off sp4 cm sp5,
     head_ok sp1 l sp2 o → Str.letters op →
     full_operands sp3 tgt s1 s2 off → end_ok sp4 cm sp5 →
     let line := full_line (instruction_head sp1 l sp2 op o) sp3 tgt s1 s2
                   off (line_end sp4 cm sp5) in
     (∃ g, Phase1.parse_line line = Ok g ∧ kind g = FULL)
     ∧ (∃ g, Fadfa.parse_line line = Ok g ∧ kind g = FULL))
  ∧ (∀ sp1 l sp2 op o sp3 tgt ref sp4 cm sp5,
     head_ok sp1 l sp2 o → Str.letters op →
     memop_operands sp3 tgt ref → end_ok sp4 cm sp5 →
     let line := memop_line (instruction_head sp1 l sp2 op o) sp3 tgt ref
                   (line_end sp4 cm sp5) in
     (∃ g, Phase1.parse_line line = Ok g)
     ∧ (Str.contains op "LDA" = false → Str.contains op "lda" = false →
        ∃ g, Fadfa.parse_line line = Ok g))
  ∧ (∀ sp1 l sp2 op o sp3 ref sp4 cm sp5,
     head_ok sp1 l sp2 o → jump_operand sp3 ref → end_ok sp4 cm sp5 →
     let line := jump_line (instruction_head sp1 l sp2 op o) sp3 ref
                   (line_end sp4 cm sp5) in
     (op = "JUMP" → ∃ g, Phase1.parse_line line = Ok g)
     ∧ (op = "JUMP" ∨ op = "jump" → ∃ g, Fadfa.parse_line line = Ok g))
  ∧ (∀ sp1 l sp2 op o sp3 v sp4 cm sp5,
     head_ok sp1 l sp2 o → data_value sp3 v → end_ok sp4 cm sp5 →
     let line := data_line (instruction_head sp1 l sp2 op o) sp3 v
                   (line_end sp4 cm sp5) in
     (op = "DATA" → o = None → ∃ g, Phase1.parse_line line = Ok g)
     ∧ (op = "DATA" ∨ op = "data" → ∃ g, Fadfa.parse_line line = Ok g))
  (* lines that are not *)
  ∧ Phase1.parse_line "x: data 5"
    = Raise (SyntaxError "Assembler syntax error in x: data 5")
  ∧ Phase1.parse_line "jump x"
    = Raise (SyntaxError "Assembler syntax error in jump x")
  ∧ Fadfa.parse_line "x: Data 5"
    = Raise (SyntaxError "Assembler syntax error in x: Data 5")
  ∧ Fadfa.parse_line "Jump x"
    = Raise (SyntaxError "Assembler syntax error in Jump x")
  ∧ Phase1.parse_line "ADD/z r1,r2,r3"
    = Raise (SyntaxError "Assembler syntax error in ADD/z r1,r2,r3")
  ∧ Fadfa.parse_line "ADD/z r1,r2,r3"
    = Raise (SyntaxError "Assembler syntax error in ADD/z r1,r2,r3")
  (* what [assembler_phase1.py] writes *)
  ∧ (∀ line f,
     Phase1.parse_line line = Ok f → kind f = FULL ∨ kind f = DATA →
     ∀ labels s,
       Phase1.rewrite_line labels line s = (Ok tt, emitted s line true))
  ∧ (∀ line f,
     Phase1.parse_line line = Ok f → kind f = MEMOP →
     ∃ op ref,
       field f "opcode" = Some op ∧ field f "labelref" = Some ref
       ∧ ∀ labels s,
           Phase1.rewrite_line labels line s =
           match labels !! ref with
           | Some a =>
               (Ok tt, emitted s (memop_text f op (a - address s)) true)
           | None => (Raise (KeyError (Some ref)), s)
           end)
  ∧ (∀ line f,
     Phase1.parse_line line = Ok f → kind f = JUMP →
     ∃ ref,
       field f "labelref" = Some ref
       ∧ ∀ labels s,
           Phase1.rewrite_line labels line s =
           match labels !! ref with
           | Some a => (Ok tt, emitted s (jump_text f (a - address s)) true)
           | None => (Raise (KeyError (Some ref)), s)
           end)
  (* what [fadfa.py] writes *)
  ∧ (∀ line f,
     Fadfa.parse_line line = Ok f → kind f = FULL →
     ∃ op,
       field f "opcode" = Some op ∧ Str.capitals (Str.upper op)
       ∧ ∀ lables s,
           Fadfa.rewrite_line lables line s
           = (Ok tt, emitted s (full_text f (Str.upper op)) true))
  ∧ (∀ line f,
     Fadfa.parse_line line = Ok f → kind f = DATA →
     ∃ op,
       field f "opcode" = Some op ∧ Str.upper op = "DATA"
       ∧ ∀ lables s,
           Fadfa.rewrite_line lables line s
           = (Ok tt, emitted s (data_text f "DATA") true))
  ∧ (∀ line f,
     Fadfa.parse_line line = Ok f → kind f = MEMOP →
     ∃ op ref,
       field f "opcode" = Some op ∧ field f "labelref" = Some ref
       ∧ Str.capitals (Str.upper op)
       ∧ ∀ lables s,
           Fadfa.rewrite_line lables line s =
           match lables !! ref with
           | Some a =>
               (Ok tt,
                emitted s (memop_text f (Str.upper op) (a - address s)) true)
           | None => (Raise (KeyError (Some ref)), s)
           end)
  ∧ (∀ line f,
     Fadfa.parse_line line = Ok f → kind f = JUMP →
     ∃ ref,
       field f "labelref" = Some ref
       ∧ ∀ lables s,
           Fadfa.rewrite_line lables line s =
           match lables !! ref with
           | Some a => (Ok tt, emitted s (jump_text f (a - address s)) true)
           | None => (Raise (KeyError (Some ref)), s)
           end)
  ∧ Phase1.main ["Loop: add r1,r2,r3"; "JUMP Loop"; "x: DATA 5"; "load r1,x"]
    = Run 0 ["Loop: add r1,r2,r3"; "       ADD  r15,r0,r15[-1] #Loop  ";
             "x: DATA 5"; "       load  r1,r0,r15[-1] #x  "] [] []
  ∧ Fadfa.main ["Loop: add r1,r2,r3"; "jump Loop"; "x: data 5"; "load r1,x"]
    = Run 0 ["Loop:   ADD  r1,r2,r3  "; "       ADD  r15,r0,r15[-1] #Loop  ";
             "x:   DATA  5  "; "       LOAD  r1,r0,r15[-1] #x  "] [] [].
Proof.
  split.
  { intros lines.
    destruct (ResolveFacts.resolve_binds Phase1.parse_line P1.parsed_label
                P1_raises lines) as (labels & Hres & _ & Hb). eauto. }
  split.
  { intros lines.
    destruct (ResolveFacts.resolve_binds Fadfa.parse_line FA.parsed_label_fa
                FA_raises lines) as (labels & Hres & _ & Hb). eauto. }
  split; [vm_compute; reflexivity|]. split; [vm_compute; reflexivity|].
  split.
  { intros line f Hp. destruct (P1_fixed_words _ _ Hp).
    repeat split; intros; eauto using P1_predicate, P1_opcode;
      first [by eapply P1_predicate|by eapply P1_opcode]. }
  split.
  { intros line f Hp. destruct (FA_fixed_words _ _ Hp).
    repeat split; intros; eauto;
      first [by eapply FA_predicate|by eapply FA_opcode]. }
  split.
  { intros sp1 l sp2 op o sp3 tgt s1 s2 off sp4 cm sp5 Hh Hop Ho He line.
    pose proof (full_line_accepts _ _ _ _ _ _ _ _ _ _ _ _ _ Hh Hop Ho He) as C.
    split; [by apply Resolved.P1_full_parse|by apply Resolved.FA_full_parse]. }
  split.
  { intros sp1 l sp2 op o sp3 tgt ref sp4 cm sp5 Hh Hop Ho He line. split.
    - apply (P1_parses Phase1.ASM_MEMOP_PAT MEMOP); [listed|].
      by apply fits_closes, P1_memop_accepts.
    - intros C1 C2.
      apply (FA_parses Fadfa.ASM_MEMOP_PAT MEMOP); [listed|].
      by apply FA_memop_accepts. }
  split.
  { intros sp1 l sp2 op o sp3 ref sp4 cm sp5 Hh Ho He line. split.
    - intros Hop. subst line op.
      apply (P1_parses Phase1.ASM_JUMP_PAT JUMP); [listed|].
      by apply fits_closes, P1_jump_accepts.
    - intros Hop.
      apply (FA_parses Fadfa.ASM_JUMP_PAT JUMP); [listed|].
      by apply fits_closes, FA_jump_accepts. }
  split.
  { intros sp1 l sp2 op o sp3 v sp4 cm sp5 Hh Hv He line. split.
    - intros Hop Hnone. subst line op o.
      apply (P1_parses Phase1.ASM_DATA_PAT DATA); [listed|].
      by apply fits_closes, P1_data_accepts.
    - intros Hop.
      apply (FA_parses Fadfa.ASM_DATA_PAT DATA); [listed|].
      by apply fits_closes, FA_data_accepts. }
  do 6 (split; [vm_compute; reflexivity|]).
  split.
  { intros line f Hp Hk labels s. by eapply P1.rewrite_line_pass. }
  split; [exact P1.rewrite_line_memop|].
  split; [exact P1.rewrite_line_jump|].
  split.
  { intros line f Hp Hk.
    destruct (FA.rewrite_line_full _ _ Hp Hk) as (op & Ho & Hrw).
    exists op. split; [done|]. split; [|done].
    apply upper_capitals. by eapply FA_opcode. }
  split.
  { intros line f Hp Hk.
    destruct (FA.rewrite_line_data _ _ Hp Hk) as (op & Ho & Hrw).
    assert (Hu : Str.upper op = "DATA").
    { destruct (FA_fixed_words _ _ Hp) as [Hd _].
      destruct (Hd Hk) as [E|E]; rewrite Ho in E; by injection E as ->. }
    exists op. split; [done|]. split; [done|]. by rewrite <- Hu. }
  split.
  { intros line f Hp Hk.
    destruct (FA.rewrite_line_memop_fa _ _ Hp Hk) as (op & ref & Ho & Hr & Hrw).
    exists op, ref. split; [done|]. split; [done|]. split; [|done].
    apply upper_capitals. by eapply FA_opcode. }
  split; [exact FA.rewrite_line_jump_fa|].
  split; vm_compute; reflexivity.
Qed.

Lemma case_of_labels_opcodes_predicates_witness :
  head_ok "" (Some "x") " " (Some "Z")
  ∧ Str.letters "loAd"
  ∧ memop_operands " " "r1" "Loop"
  ∧ end_ok " " (Some "# go") ""
  ∧ Str.contains "loAd" "LDA" = false
  ∧ Str.contains "loAd" "lda" = false
  ∧ (∃ g, Phase1.parse_line "x: loAd/Z r1,Loop # go" = Ok g)
  ∧ (∃ g, Fadfa.parse_line "x: loAd/Z r1,Loop # go" = Ok g).
Proof.
  assert (H1 : head_ok "" (Some "x") " " (Some "Z")).
  { split; [reflexivity|]. split; [|split; [reflexivity|]].
    - intros v [= <-]. exists "x"%char, "". repeat split; reflexivity.
    - intros v [= <-]. split; [discriminate|reflexivity]. }
  assert (H2 : Str.letters "loAd") by (split; [discriminate|reflexivity]).
  assert (H3 : memop_operands " " "r1" "Loop").
  { split; [discriminate|]. split; [reflexivity|]. split.
    - exists "1". split; [reflexivity|]. split; [discriminate|reflexivity].
    - exists "L"%char, "oop". repeat split; reflexivity. }
  assert (H4 : end_ok " " (Some "# go") "").
  { split; [reflexivity|]. split; [|split; [discriminate|reflexivity]].
    intros v [= <-]. exists "#"%char, " go". repeat split; reflexivity. }
  assert (H5 : Str.contains "loAd" "LDA" = false) by reflexivity.
  assert (H6 : Str.contains "loAd" "lda" = false) by reflexivity.
  destruct case_of_labels_opcodes_predicates
    as (_ & _ & _ & _ & _ & _ & _ & H & _).
  destruct (H "" (Some "x") " " "loAd" (Some "Z") " " "r1" "Loop" " "
              (Some "# go") "" H1 H2 H3 H4) as [P1 FA].
  do 6 (split; [assumption|]). split; [exact P1|exact (FA H5 H6)].
Defined.

End Cases.
